(** * ReasoningBank memory subsystem of chantilly-adk: a shallow embedding

    The development follows three classes:
    - [MemoryConsolidation] ([services/memoryConsolidation.js]),
    - [MemoryTestTimeScaling] ([services/memoryTestTimeScaling.js]),
    - [BuildMemoryService] (the build memory service, whose source follows
      [MemoryConsolidation] in the same file).

    JavaScript numbers are IEEE 754 binary64 values, so they are modelled by
    the kernel's primitive floats: [+], [*], [/], [Math.sqrt] and the
    comparisons below compute exactly what the JavaScript engine computes.
    Asynchronous methods become functions in a monad of state, exceptions and
    output over an abstract environment state: a run resolves or rejects,
    leaves a new state, and produces the trace of its capability calls and log
    records, so that "is called", "is logged" and "at most M times" are
    statements about that trace.  The repository, the embedder, the text
    generator, the executor and the reflector are parameters. *)

From Stdlib Require Import ZArith List String Bool Floats Lia Permutation.
Import ListNotations.

Set Warnings "-inexact-float,-register-all".

Local Open Scope string_scope.
Local Open Scope list_scope.

(** ** JavaScript values, truthiness and numbers *)
Module JS.

(** The fragment of JavaScript values the modelled code inspects.  Arrays hold
    numbers (embedding vectors); objects are association lists in insertion
    order, with unique keys. *)
Inductive value : Type :=
| VUndefined
| VNull
| VBool (b : bool)
| VNum (x : float)
| VStr (s : string)
| VArr (xs : list float)
| VObj (fields : list (string * value)).

(** Truthiness of a number: every number except [+0], [-0] and [NaN]. *)
Definition num_truthy (x : float) : bool :=
  negb (PrimFloat.eqb x 0 || PrimFloat.is_nan x).

(** Truthiness of a string: every string except the empty one. *)
Definition str_truthy (s : string) : bool :=
  negb (String.length s =? 0)%nat.

(** [ToBoolean]. *)
Definition truthy (v : value) : bool :=
  match v with
  | VUndefined | VNull => false
  | VBool b => b
  | VNum x => num_truthy x
  | VStr s => str_truthy s
  | VArr _ | VObj _ => true
  end.

Fixpoint lookup (k : string) (fields : list (string * value)) : option value :=
  match fields with
  | [] => None
  | (k', v) :: rest => if String.eqb k k' then Some v else lookup k rest
  end.

(** Property access [v.k] on a value that is neither [null] nor [undefined]:
    a missing property reads as [undefined].  Only objects carry the
    properties read by the modelled code. *)
Definition get (v : value) (k : string) : value :=
  match v with
  | VObj fields => match lookup k fields with Some x => x | None => VUndefined end
  | _ => VUndefined
  end.

(** [a || b] on values. *)
Definition or_else (a b : value) : value := if truthy a then a else b.

(** [Array.isArray], returning the elements. *)
Definition as_array (v : value) : option (list float) :=
  match v with VArr xs => Some xs | _ => None end.

Fixpoint obj_set (k : string) (v : value) (o : list (string * value))
  : list (string * value) :=
  match o with
  | [] => [(k, v)]
  | (k', v') :: rest =>
      if String.eqb k k' then (k, v) :: rest else (k', v') :: obj_set k v rest
  end.

(** Object spread [{...a, ...b}]: the fields of [b] override those of [a]. *)
Definition spread (a b : list (string * value)) : list (string * value) :=
  fold_left (fun o kv => obj_set (fst kv) (snd kv) o) b a.

(** [Math.min] on two numbers: [NaN] is contagious and [-0] is below [+0]. *)
Definition Math_min (a b : float) : float :=
  if PrimFloat.is_nan a || PrimFloat.is_nan b then nan
  else if PrimFloat.ltb a b then a
  else if PrimFloat.ltb b a then b
  else match PrimFloat.classify a with NZero => a | _ => b end.

(** The remainder [a % n] on integers; [None] stands for [NaN] ([n = 0]).
    The sign follows the dividend, as [Z.rem] does. *)
Definition rem (a n : Z) : option Z :=
  if (n =? 0)%Z then None else Some (Z.rem a n).

End JS.

(** ** Facts on the comparisons of doubles *)
Module FloatFacts.

Lemma SFcompare_antisym (a b : spec_float) :
  SFcompare b a = option_map CompOpp (SFcompare a b).
Proof.
  destruct a as [s1|s1| |s1 m1 e1], b as [s2|s2| |s2 m2 e2]; simpl;
    try reflexivity; try (destruct s1; reflexivity); try (destruct s2; reflexivity);
    try (destruct s1, s2; reflexivity).
  assert (H : PosDef.Pos.compare_cont Eq m2 m1
              = CompOpp (PosDef.Pos.compare_cont Eq m1 m2))
    by (symmetry; exact (Pos.compare_cont_antisym m1 m2 Eq)).
  rewrite (Z.compare_antisym e2 e1).
  destruct s1, s2; simpl; try reflexivity;
    destruct (e2 ?= e1)%Z; simpl; try reflexivity; now rewrite H.
Qed.

Lemma ltb_irrefl (x : float) : PrimFloat.ltb x x = false.
Proof.
  rewrite ltb_spec. unfold SFltb.
  pose proof (SFcompare_antisym (Prim2SF x) (Prim2SF x)) as H.
  destruct (SFcompare (Prim2SF x) (Prim2SF x)) as [[]|]; simpl in H;
    try reflexivity; discriminate.
Qed.

Lemma ltb_not_leb (a b : float) :
  PrimFloat.ltb a b = true -> PrimFloat.leb b a = false.
Proof.
  rewrite ltb_spec, leb_spec. unfold SFltb, SFleb.
  rewrite (SFcompare_antisym (Prim2SF a) (Prim2SF b)).
  destruct (SFcompare (Prim2SF a) (Prim2SF b)) as [[]|]; simpl; intros;
    try discriminate; reflexivity.
Qed.

Lemma ltb_leb (a b : float) :
  PrimFloat.ltb a b = true -> PrimFloat.leb a b = true.
Proof.
  rewrite ltb_spec, leb_spec. unfold SFltb, SFleb.
  destruct (SFcompare (Prim2SF a) (Prim2SF b)) as [[]|]; simpl; intros;
    try discriminate; reflexivity.
Qed.

Lemma eqb_leb (a b : float) :
  PrimFloat.eqb a b = true -> PrimFloat.leb b a = true.
Proof.
  rewrite eqb_spec, leb_spec. unfold SFeqb, SFleb.
  rewrite (SFcompare_antisym (Prim2SF a) (Prim2SF b)).
  destruct (SFcompare (Prim2SF a) (Prim2SF b)) as [[]|]; simpl; intros;
    try discriminate; reflexivity.
Qed.

Lemma SFmul_comm (p e : Z) (a b : spec_float) : SFmul p e a b = SFmul p e b a.
Proof.
  destruct a as [s1|s1| |s1 m1 e1], b as [s2|s2| |s2 m2 e2]; simpl;
    try reflexivity; try (now rewrite xorb_comm).
  now rewrite xorb_comm, Pos.mul_comm, Z.add_comm.
Qed.

(** The product of two doubles does not depend on their order. *)
Lemma mul_comm (x y : float) : PrimFloat.mul x y = PrimFloat.mul y x.
Proof. apply Prim2SF_inj. rewrite !mul_spec. apply SFmul_comm. Qed.

End FloatFacts.

(** ** Records exchanged with the environment *)

(** A reasoning memory as the scans deliver it.  [timesRetrieved] is a number,
    as the data model has it; [successRate] is [null] ([None]) until a use was
    recorded; the two use counters may be missing on a document, which the
    merge reads through [|| 0].  A timestamp is a
    Firestore timestamp, given by its [_seconds] (an integer), or missing. *)
Record Memory : Type := mkMemory {
  id : string;
  title : string;
  embedding : JS.value;
  timesRetrieved : float;
  timesUsedInSuccess : option float;
  timesUsedInFailure : option float;
  successRate : option float;
  createdAt : option Z;
  updatedAt : option Z
}.

(** What an executor returns, as far as the core reads it.  [success] is the
    truthiness of the [success] field; absent optional fields are [None];
    [outputData] is given by its own enumerable keys; [data] is the payload the
    core never looks at. *)
Record Result : Type := mkResult {
  success : bool;
  steps : option float;
  executionTime : option float;
  outputData : option (list string);
  htmlReport : option string;
  data : string
}.

(** A task is an object; the core reads [taskId], [description],
    [templateName] and [parameters] and spreads refinements over it. *)
Definition Task : Type := list (string * JS.value).

(** ** Trajectory scoring ([MemoryTestTimeScaling._scoreTrajectory]) *)
Module Scoring.

Local Open Scope float_scope.

(** [result.steps && result.steps < 10] *)
Definition fewSteps (r : Result) : bool :=
  match steps r with
  | Some x => JS.num_truthy x && PrimFloat.ltb x 10
  | None => false
  end.

(** [result.executionTime && result.executionTime < 5000] *)
Definition quick (r : Result) : bool :=
  match executionTime r with
  | Some x => JS.num_truthy x && PrimFloat.ltb x 5000
  | None => false
  end.

(** [result.outputData && Object.keys(result.outputData).length > 5] *)
Definition richOutput (r : Result) : bool :=
  match outputData r with
  | Some keys => (5 <? List.length keys)%nat
  | None => false
  end.

(** [result.htmlReport && result.htmlReport.length > 1000] *)
Definition longReport (r : Result) : bool :=
  match htmlReport r with
  | Some s => JS.str_truthy s && (1000 <? String.length s)%nat
  | None => false
  end.

Definition _scoreTrajectory (result : option Result) : float :=
  match result with
  | None => 0
  | Some r =>
      if negb (success r) then 0
      else
        let score := 0.5 in
        let score := if fewSteps r then score + 0.2 else score in
        let score := if quick r then score + 0.1 else score in
        let score := if richOutput r then score + 0.1 else score in
        let score := if longReport r then score + 0.1 else score in
        JS.Math_min score 1.0
  end.

(** The scorer as section 4.5 of the specification words it: a bonus is earned
    by a field that is _present_ and below its bound. *)
Definition present_below (field : option float) (bound : float) : bool :=
  match field with
  | Some x => PrimFloat.ltb x bound
  | None => false
  end.

Definition score_spec (result : option Result) : float :=
  match result with
  | None => 0
  | Some r =>
      if negb (success r) then 0
      else
        let score := 0.5 in
        let score := if present_below (steps r) 10 then score + 0.2 else score in
        let score := if present_below (executionTime r) 5000 then score + 0.1 else score in
        let score := if richOutput r then score + 0.1 else score in
        let score := if longReport r then score + 0.1 else score in
        JS.Math_min score 1.0
  end.

(** The number of tenths a result earns: the order of the scores is the order
    of these integers (lemma [score_ltb_rank] below). *)
Definition rank (result : option Result) : Z :=
  match result with
  | None => 0
  | Some r =>
      if negb (success r) then 0
      else 5 + (if fewSteps r then 2 else 0) + (if quick r then 1 else 0)
             + (if richOutput r then 1 else 0) + (if longReport r then 1 else 0)
  end%Z.

(** The double a given number of tenths is computed to, following the order of
    the additions in the source. *)
Definition tenths (k : Z) : float :=
  match k with
  | 5%Z => 0.5
  | 6%Z => 0.5 + 0.1
  | 7%Z => 0.5 + 0.2
  | 8%Z => 0.5 + 0.2 + 0.1
  | 9%Z => 0.5 + 0.2 + 0.1 + 0.1
  | 10%Z => 0.5 + 0.2 + 0.1 + 0.1 + 0.1
  | _ => 0
  end.

Definition basicSuccess : Result :=
  mkResult true None None None None "".

(** A result that earns every bonus: 5 steps, 3 seconds, 6 keys and a report
    of 2000 characters. *)
Definition perfectResult : Result :=
  mkResult true (Some 5) (Some 3000) (Some ["a"; "b"; "c"; "d"; "e"; "f"])
    (Some (String.concat "" (repeat "x" 2000))) "".

Definition zeroSteps : Result :=
  mkResult true (Some 0) None None None "".

Definition zeroTime : Result :=
  mkResult true None (Some 0) None None "".

Lemma rank_range (result : option Result) :
  (rank result = 0 \/ 5 <= rank result <= 10)%Z.
Proof.
  destruct result as [r|]; simpl; [|now left].
  destruct (success r); simpl; [right|now left].
  destruct (fewSteps r), (quick r), (richOutput r), (longReport r); lia.
Qed.

Lemma score_tenths (result : option Result) :
  _scoreTrajectory result = tenths (rank result).
Proof.
  destruct result as [r|]; simpl; [|reflexivity].
  destruct (success r); simpl; [|reflexivity].
  destruct (fewSteps r), (quick r), (richOutput r), (longReport r);
    vm_compute; reflexivity.
Qed.

Lemma tenths_ltb (a b : Z) :
  (a = 0 \/ 5 <= a <= 10)%Z -> (b = 0 \/ 5 <= b <= 10)%Z ->
  PrimFloat.ltb (tenths a) (tenths b) = (a <? b)%Z.
Proof.
  intros Ha Hb.
  assert (Ea : a = 0%Z \/ a = 5%Z \/ a = 6%Z \/ a = 7%Z \/ a = 8%Z \/ a = 9%Z \/ a = 10%Z) by lia.
  assert (Eb : b = 0%Z \/ b = 5%Z \/ b = 6%Z \/ b = 7%Z \/ b = 8%Z \/ b = 9%Z \/ b = 10%Z) by lia.
  clear Ha Hb.
  repeat (destruct Ea as [Ea|Ea]); subst a;
    repeat (destruct Eb as [Eb|Eb]); subst b; vm_compute; reflexivity.
Qed.

(** Scores compare as their ranks do: the only doubles the scorer returns are
    the seven values of [tenths]. *)
Lemma score_ltb_rank (r1 r2 : option Result) :
  PrimFloat.ltb (_scoreTrajectory r1) (_scoreTrajectory r2) = (rank r1 <? rank r2)%Z.
Proof.
  rewrite !score_tenths. apply tenths_ltb; apply rank_range.
Qed.

(** The score is never below 0 and never above 1. *)
Lemma score_in_unit_interval (result : option Result) :
  PrimFloat.leb 0 (_scoreTrajectory result) = true /\
  PrimFloat.leb (_scoreTrajectory result) 1 = true.
Proof.
  rewrite score_tenths.
  destruct (rank_range result) as [E|E].
  - rewrite E. split; vm_compute; reflexivity.
  - assert (Ek : rank result = 5%Z \/ rank result = 6%Z \/ rank result = 7%Z
                 \/ rank result = 8%Z \/ rank result = 9%Z \/ rank result = 10%Z) by lia.
    repeat (destruct Ek as [Ek|Ek]); rewrite Ek; split; vm_compute; reflexivity.
Qed.

(** The scores the test suite expects: the base score for a bare success,
    and the five summands for a result with every bonus, which in double
    precision add up to 0.9999999999999999, above 0.9 and not above 1. *)
Example score_of_basic_and_perfect_results :
  _scoreTrajectory (Some basicSuccess) = 0.5 /\
  _scoreTrajectory (Some perfectResult) = 0.5 + 0.2 + 0.1 + 0.1 + 0.1 /\
  PrimFloat.ltb 0.9 (_scoreTrajectory (Some perfectResult)) = true /\
  PrimFloat.ltb (_scoreTrajectory (Some perfectResult)) 1 = true.
Proof. repeat match goal with |- _ /\ _ => split end; vm_compute; reflexivity. Qed.

(** A null result and a result whose [success] is false score 0. *)
Lemma score_failure (result : option Result) :
  match result with Some r => success r = false | None => True end ->
  _scoreTrajectory result = 0.
Proof.
  destruct result as [r|]; simpl; [|reflexivity].
  intros ->. reflexivity.
Qed.

(** A [NaN] is below nothing. *)
Lemma nan_not_ltb (x y : float) :
  PrimFloat.is_nan x = true -> PrimFloat.ltb x y = false.
Proof.
  unfold PrimFloat.is_nan. rewrite eqb_spec, ltb_spec.
  unfold SFeqb, SFltb.
  destruct (Prim2SF x) as [s| s| |s m e]; simpl; try discriminate; try reflexivity.
  - destruct s; discriminate.
  - rewrite Z.compare_refl, Pos.compare_cont_refl. destruct s; discriminate.
Qed.

Lemma truthy_guard_off_zero (x bound : float) :
  PrimFloat.eqb x 0 = false ->
  JS.num_truthy x && PrimFloat.ltb x bound = PrimFloat.ltb x bound.
Proof.
  intros Hz. unfold JS.num_truthy. rewrite Hz. simpl.
  destruct (PrimFloat.is_nan x) eqn:En; simpl; [|reflexivity].
  symmetry. now apply nan_not_ltb.
Qed.

(** Where neither [steps] nor [executionTime] is a zero, the code computes the
    score the specification words. *)
Lemma score_matches_spec_off_zero (r : Result) :
  match steps r with Some x => PrimFloat.eqb x 0 = false | None => True end ->
  match executionTime r with Some x => PrimFloat.eqb x 0 = false | None => True end ->
  _scoreTrajectory (Some r) = score_spec (Some r).
Proof.
  intros Hs Ht. unfold _scoreTrajectory, score_spec, fewSteps, quick, present_below.
  destruct (steps r) as [x|], (executionTime r) as [y|];
    rewrite ?truthy_guard_off_zero by assumption; reflexivity.
Qed.

(** C7 (code defect): [{success: true, steps: 0}] carries a [steps] field that
    is present and below 10, yet [_scoreTrajectory] returns the base score 0.5
    where the specified scorer returns 0.5 + 0.2; likewise an [executionTime]
    of 0 earns no bonus.  The guard [result.steps && ...] tests truthiness, and
    0 is falsy. *)
Theorem scoreTrajectory_zero_field_earns_no_bonus :
  _scoreTrajectory (Some zeroSteps) = 0.5 /\
  score_spec (Some zeroSteps) = 0.5 + 0.2 /\
  _scoreTrajectory (Some zeroTime) = 0.5 /\
  score_spec (Some zeroTime) = 0.5 + 0.1 /\
  PrimFloat.ltb (_scoreTrajectory (Some zeroSteps)) (score_spec (Some zeroSteps)) = true.
Proof. repeat match goal with |- _ /\ _ => split end; vm_compute; reflexivity. Qed.

(** *** Further facts on the scorer *)

Lemma tenths_leb (a b : Z) :
  (a = 0 \/ 5 <= a <= 10)%Z -> (b = 0 \/ 5 <= b <= 10)%Z ->
  PrimFloat.leb (tenths a) (tenths b) = (a <=? b)%Z.
Proof.
  intros Ha Hb.
  assert (Ea : a = 0%Z \/ a = 5%Z \/ a = 6%Z \/ a = 7%Z \/ a = 8%Z \/ a = 9%Z \/ a = 10%Z) by lia.
  assert (Eb : b = 0%Z \/ b = 5%Z \/ b = 6%Z \/ b = 7%Z \/ b = 8%Z \/ b = 9%Z \/ b = 10%Z) by lia.
  clear Ha Hb.
  repeat (destruct Ea as [Ea|Ea]); subst a;
    repeat (destruct Eb as [Eb|Eb]); subst b; vm_compute; reflexivity.
Qed.

Lemma score_leb_rank (r1 r2 : option Result) :
  PrimFloat.leb (_scoreTrajectory r1) (_scoreTrajectory r2) = (rank r1 <=? rank r2)%Z.
Proof.
  rewrite !score_tenths. apply tenths_leb; apply rank_range.
Qed.

(** The score lies in [0, 1]; it is 0 for a null result and for a result
    whose [success] is falsy, and at least 0.5 for every successful result,
    so that any success outscores any failure. *)
Theorem scoreTrajectory_bounds (result : option Result) :
  PrimFloat.leb 0 (_scoreTrajectory result) = true /\
  PrimFloat.leb (_scoreTrajectory result) 1 = true /\
  match result with
  | Some r =>
      if success r then PrimFloat.leb 0.5 (_scoreTrajectory result) = true
      else _scoreTrajectory result = 0
  | None => _scoreTrajectory result = 0
  end.
Proof.
  destruct (score_in_unit_interval result) as [Hlo Hhi].
  repeat split; [exact Hlo|exact Hhi|].
  destruct result as [r|]; [|reflexivity].
  destruct (success r) eqn:Hs; [|simpl; now rewrite Hs].
  change 0.5 with (_scoreTrajectory (Some basicSuccess)).
  rewrite score_leb_rank. apply Z.leb_le. simpl. rewrite Hs. simpl.
  destruct (fewSteps r), (quick r), (richOutput r), (longReport r); lia.
Qed.

(** The scorer is monotone in its four bonuses: a successful result that
    earns every bonus another successful result earns never scores less,
    although the sums are rounded. *)
Theorem scoreTrajectory_monotone (r r' : Result) :
  success r = true -> success r' = true ->
  (fewSteps r = true -> fewSteps r' = true) ->
  (quick r = true -> quick r' = true) ->
  (richOutput r = true -> richOutput r' = true) ->
  (longReport r = true -> longReport r' = true) ->
  PrimFloat.leb (_scoreTrajectory (Some r)) (_scoreTrajectory (Some r')) = true.
Proof.
  intros Hs Hs' H1 H2 H3 H4.
  rewrite score_leb_rank. apply Z.leb_le. simpl. rewrite Hs, Hs'. simpl.
  destruct (fewSteps r), (fewSteps r'); try (specialize (H1 eq_refl); discriminate);
  destruct (quick r), (quick r'); try (specialize (H2 eq_refl); discriminate);
  destruct (richOutput r), (richOutput r'); try (specialize (H3 eq_refl); discriminate);
  destruct (longReport r), (longReport r'); try (specialize (H4 eq_refl); discriminate);
  lia.
Qed.

Lemma scoreTrajectory_monotone_witness :
  PrimFloat.leb (_scoreTrajectory (Some basicSuccess))
    (_scoreTrajectory (Some perfectResult)) = true.
Proof.
  apply (scoreTrajectory_monotone basicSuccess perfectResult);
    try reflexivity; intros H; vm_compute in H; discriminate.
Defined.

End Scoring.

(** ** Effects: outcomes, the trace, and the monad of asynchronous methods *)
Module Effects.

(** How an awaited call ends: with a value, or with a thrown [Error], of which
    the code only reads [message]. *)
Inductive Outcome (A : Type) : Type :=
| Return (a : A)
| Throw (message : string).
Arguments Return {A} a.
Arguments Throw {A} message.

Inductive Level : Type := Debug | Info | Warn | Error.

(** The fields [updateMemory] receives from the merge pass. *)
Record MemoryPatch : Type := mkPatch {
  patchTimesRetrieved : float;
  patchTimesUsedInSuccess : float;
  patchTimesUsedInFailure : float;
  patchSuccessRate : option float
}.

(** The statistics object of [consolidate].  [endTime] and [success] are
    undefined ([None]) until they are assigned. *)
Record Stats : Type := mkStats {
  startTime : Z;
  totalMemories : nat;
  pruned : nat;
  merged : nat;
  archived : nat;
  errors : list string;
  endTime : option Z;
  statsSuccess : option bool
}.

(** The reflection an optional reflector returns. *)
Record Reflection : Type := mkReflection {
  shouldRefine : bool;
  refinedTask : Task
}.

(** A value as [JSON.parse] delivers it; the fields of an object have
    distinct keys. *)
Inductive Json : Type :=
| JNull
| JBool (b : bool)
| JNum (x : float)
| JStr (text : string)
| JArr (items : list Json)
| JObj (fields : list (string * Json)).

(** A memory item proposed by the text generator: whatever its answer holds
    at that place, well formed or not. *)
Abbreviation Candidate := Json.

(** The calls the core makes on its collaborators. *)
Inductive Call : Type :=
| GetAllMemories (limit : Z)
| UpdateMemory (memoryId : string) (patch : MemoryPatch)
| DeleteMemory (memoryId : string)
| ArchiveMemory (memoryId : string)
| RetrieveMemories (queryEmbedding : list float) (topK : Z) (minSuccessRate : float)
| UpdateMemoryStats (memoryIds : list string) (succeeded : bool)
| AddMemory (c : Candidate) (source : string) (vector : list float)
| EmbedQuery (text : string) (taskType : string)
| EmbedContent (text : string)
| GenerateContent (model : string) (prompt : string)
| ConfigGet (key : string)
| Reflect (task : Task) (result : option Result) (memories : list Memory).

(** What the environment observes of a run, in order: the calls on the
    collaborators and whether they returned, the calls on the executor with
    what it answered, and the log records. *)
Inductive Event : Type :=
| Called (c : Call) (returned : bool)
| Executed (task : Task) (memories : list Memory) (answer : Outcome (option Result))
| Logged (level : Level) (message : string) (about : list string)
| LoggedStats (level : Level) (message : string) (error : string) (stats : Stats).

Abbreviation Trace := (list Event).

Section Monad.
Context {W : Type}.

(** An asynchronous method: run from an environment state, it resolves or
    rejects, leaves a new state, and has produced a trace. *)
Definition M (A : Type) : Type := W -> Outcome A * W * Trace.

Definition ret {A} (a : A) : M A := fun w => (Return a, w, []).

Definition throw {A} (message : string) : M A := fun w => (Throw message, w, []).

Definition bind {A B} (m : M A) (k : A -> M B) : M B :=
  fun w =>
    match m w with
    | (Return a, w1, tr1) =>
        match k a w1 with (o, w2, tr2) => (o, w2, tr1 ++ tr2) end
    | (Throw e, w1, tr1) => (Throw e, w1, tr1)
    end.

(** One step inside a [try] block: [handler] is the [catch] block, which
    reads the local variables as they stand when the step throws. *)
Definition bind_or {A B} (m : M A) (handler : string -> M B) (k : A -> M B) : M B :=
  fun w =>
    match m w with
    | (Return a, w1, tr1) =>
        match k a w1 with (o, w2, tr2) => (o, w2, tr1 ++ tr2) end
    | (Throw e, w1, tr1) =>
        match handler e w1 with (o, w2, tr2) => (o, w2, tr1 ++ tr2) end
    end.

(** [try { m } catch (error) { handler error }] *)
Definition try_catch {A} (m : M A) (handler : string -> M A) : M A :=
  bind_or m handler ret.

Definition emit (e : Event) : M unit := fun w => (Return tt, w, [e]).

Definition emit_all (es : list Event) : M unit := fun w => (Return tt, w, es).

Definition log (level : Level) (message : string) (about : list string) : M unit :=
  emit (Logged level message about).

(** Awaiting a capability: the call is recorded together with the way it
    ended. *)
Definition call {A} (c : Call) (f : W -> Outcome A * W) : M A :=
  fun w =>
    match f w with
    | (Return a, w1) => (Return a, w1, [Called c true])
    | (Throw e, w1) => (Throw e, w1, [Called c false])
    end.

(** Awaiting the executor: the call is recorded together with its answer. *)
Definition run (task : Task) (memories : list Memory)
  (executeFunction : Task -> list Memory -> W -> Outcome (option Result) * W)
  : M (option Result) :=
  fun w =>
    match executeFunction task memories w with
    | (answer, w1) => (answer, w1, [Executed task memories answer])
    end.

(** Reading the environment without a recorded call (the clock). *)
Definition peek {A} (f : W -> A * W) : M A :=
  fun w => match f w with (a, w1) => (Return a, w1, []) end.

(** [for (const x of xs) { body x }] *)
Fixpoint forEach {A} (xs : list A) (body : A -> M unit) : M unit :=
  match xs with
  | [] => ret tt
  | x :: rest => bind (body x) (fun _ => forEach rest body)
  end.

Definition outcomeOf {A} (m : M A) (w : W) : Outcome A := fst (fst (m w)).
Definition traceOf {A} (m : M A) (w : W) : Trace := snd (m w).

End Monad.

Arguments M W A : clear implicits.

Declare Scope js_scope.
Delimit Scope js_scope with js.
Notation "x <- m ;; k" := (bind m (fun x => k))
  (at level 61, m at next level, right associativity) : js_scope.
Notation "m ;;; k" := (bind m (fun _ => k))
  (at level 61, right associativity) : js_scope.

(** The memory model ([models/reasoningMemory]) as the core calls it. *)
Record MemoryModel (W : Type) : Type := mkMemoryModel {
  getAllMemories : Z -> W -> Outcome (list Memory) * W;
  updateMemory : string -> MemoryPatch -> W -> Outcome unit * W;
  deleteMemory : string -> W -> Outcome unit * W;
  archiveMemory : string -> W -> Outcome unit * W;
  retrieveMemories : list float -> Z -> float -> W -> Outcome (list Memory) * W;
  updateMemoryStats : list string -> bool -> W -> Outcome unit * W;
  addMemory : Candidate -> string -> list float -> W -> Outcome unit * W
}.
Arguments getAllMemories {W}.
Arguments updateMemory {W}.
Arguments deleteMemory {W}.
Arguments archiveMemory {W}.
Arguments retrieveMemories {W}.
Arguments updateMemoryStats {W}.
Arguments addMemory {W}.

(** Projections of a trace. *)
Definition deleteAttempts (tr : Trace) : list string :=
  flat_map (fun e => match e with Called (DeleteMemory i) _ => [i] | _ => [] end) tr.

Definition failedDeletes (tr : Trace) : list string :=
  flat_map (fun e => match e with Called (DeleteMemory i) false => [i] | _ => [] end) tr.

Definition updateAttempts (tr : Trace) : list (string * MemoryPatch) :=
  flat_map (fun e => match e with Called (UpdateMemory i p) _ => [(i, p)] | _ => [] end) tr.

Definition executeCalls (tr : Trace) : list (Task * list Memory) :=
  flat_map (fun e => match e with Executed t ms _ => [(t, ms)] | _ => [] end) tr.

(** The results the executor returned, in order. *)
Definition observedResults (tr : Trace) : list (option Result) :=
  flat_map (fun e => match e with Executed _ _ (Return r) => [r] | _ => [] end) tr.

Definition warnings (message : string) (tr : Trace) : list (list string) :=
  flat_map (fun e => match e with
                     | Logged Warn m about => if String.eqb m message then [about] else []
                     | _ => [] end) tr.

Definition successfulDeletes (tr : Trace) : list string :=
  flat_map (fun e => match e with Called (DeleteMemory i) true => [i] | _ => [] end) tr.

(** Whether each [updateMemory] call returned, in order. *)
Definition updateOutcomes (tr : Trace) : list bool :=
  flat_map (fun e => match e with Called (UpdateMemory _ _) b => [b] | _ => [] end) tr.

(** The elements of [l] whose flag is set. *)
Fixpoint keepWhere {A : Type} (flags : list bool) (l : list A) : list A :=
  match flags, l with
  | flag :: flags', x :: l' =>
      if flag then x :: keepWhere flags' l' else keepWhere flags' l'
  | _, _ => []
  end.

Lemma keepWhere_length {A : Type} (flags : list bool) : forall (l : list A),
  (List.length (keepWhere flags l) <= List.length l)%nat.
Proof.
  induction flags as [|flag flags IH]; intros [|x l]; simpl; try lia.
  specialize (IH l). destruct flag; simpl; lia.
Qed.

(** The trace of a sequence starts with the trace of its first step. *)
Lemma bind_or_trace_prefix {W A B : Type} (m : M W A) (handler : string -> M W B)
  (k : A -> M W B) (w : W) :
  exists later, traceOf (bind_or m handler k) w = traceOf m w ++ later.
Proof.
  unfold traceOf, bind_or.
  destruct (m w) as [[[a|e] w1] tr1]; simpl.
  - destruct (k a w1) as [[o w2] tr2]. simpl. eauto.
  - destruct (handler e w1) as [[o w2] tr2]. simpl. eauto.
Qed.

Lemma bind_trace_prefix {W A B : Type} (m : M W A) (k : A -> M W B) (w : W) :
  exists later, traceOf (bind m k) w = traceOf m w ++ later.
Proof.
  unfold traceOf, bind.
  destruct (m w) as [[[a|e] w1] tr1]; simpl.
  - destruct (k a w1) as [[o w2] tr2]. simpl. eauto.
  - exists []. now rewrite app_nil_r.
Qed.

Lemma call_trace {W A : Type} (c : Call) (f : W -> Outcome A * W) (w : W) :
  exists returned, traceOf (call c f) w = [Called c returned].
Proof.
  unfold traceOf, call. destruct (f w) as [[a|e] w1]; simpl; eauto.
Qed.

(** Whether a call returned. *)
Definition returned {A : Type} (o : Outcome A) : bool :=
  match o with Return _ => true | Throw _ => false end.

(** Calling [f] on each id in turn, whatever the earlier calls did: the ids
    with the way each call ended, and the state the calls leave behind. *)
Fixpoint attemptEach {W : Type} (f : string -> W -> Outcome unit * W)
  (ids : list string) (w : W) : list (string * bool) * W :=
  match ids with
  | [] => ([], w)
  | i :: rest =>
      let (o, w1) := f i w in
      let (done, w') := attemptEach f rest w1 in
      ((i, returned o) :: done, w')
  end.

(** The deletions and the archive calls of a trace, each with the way it
    ended. *)
Definition deleteCalls (tr : Trace) : list (string * bool) :=
  flat_map (fun e => match e with Called (DeleteMemory i) ok => [(i, ok)] | _ => [] end) tr.

Definition archiveCalls (tr : Trace) : list (string * bool) :=
  flat_map (fun e => match e with Called (ArchiveMemory i) ok => [(i, ok)] | _ => [] end) tr.

(** Whether an event is a call on the text generator, an embedder or the
    repository. *)
Definition touchesCollaborator (e : Event) : bool :=
  match e with
  | Called _ _ | Executed _ _ _ => true
  | Logged _ _ _ | LoggedStats _ _ _ _ => false
  end.

End Effects.

(** ** A reference environment

    The memory model, the embedder and the executors are collaborators of the
    core; the theorems below hold for every implementation of them.  This
    module provides one implementation, on which the theorems are instantiated
    and the counterexamples are run. *)
Module Reference.

Import Effects.
Local Open Scope float_scope.

(** The state of the reference environment. *)
Record World : Type := mkWorld {
  store : list Memory;
  archivedIds : list string;
  unavailable : bool;
  undeletable : list string;
  retrievable : list Memory;
  embedderDown : bool;
  time : Z;
  script : list (Outcome (option Result))
}.

Definition withStore (w : World) (records : list Memory) : World :=
  mkWorld records (archivedIds w) (unavailable w) (undeletable w) (retrievable w)
    (embedderDown w) (time w) (script w).

Definition withScript (w : World) (rest : list (Outcome (option Result))) : World :=
  mkWorld (store w) (archivedIds w) (unavailable w) (undeletable w) (retrievable w)
    (embedderDown w) (time w) rest.

Definition holds (i : string) (records : list Memory) : bool :=
  existsb (fun m => String.eqb (id m) i) records.

Definition applyPatch (patch : MemoryPatch) (m : Memory) : Memory :=
  mkMemory (id m) (title m) (embedding m)
    (patchTimesRetrieved patch)
    (Some (patchTimesUsedInSuccess patch))
    (Some (patchTimesUsedInFailure patch))
    (patchSuccessRate patch)
    (createdAt m) (updatedAt m).

Definition recordUse (succeeded : bool) (m : Memory) : Memory :=
  let used (x : option float) := match x with Some v => v | None => 0 end in
  let s := if succeeded then used (timesUsedInSuccess m) + 1 else used (timesUsedInSuccess m) in
  let f := if succeeded then used (timesUsedInFailure m) else used (timesUsedInFailure m) + 1 in
  mkMemory (id m) (title m) (embedding m) (timesRetrieved m)
    (Some s) (Some f) (Some (s / (s + f))) (createdAt m) (updatedAt m).

(** Modelled from the spec: the repository of section 4.3, whose source
    ([models/reasoningMemory.js]) is not among the files.  The store holds the
    active records in scan order.  [scanAll] (here [getAllMemories]) delivers
    at most [limit] of them and fails when the store is unavailable; [update]
    fails with [NotFound] on a missing id; [delete] is idempotent, and fails
    for the ids listed in [undeletable] (the failure the tests inject);
    [archive] takes the record out of the active ones.  Retrieval answers with
    the canned list [retrievable], whatever [k] is, as the mocks of the test
    suite do. *)
Definition memoryModel : MemoryModel World :=
  mkMemoryModel World
    (fun limit w =>
       if unavailable w then (Throw "Database connection failed", w)
       else (Return (firstn (Z.to_nat limit) (store w)), w))
    (fun i patch w =>
       if holds i (store w)
       then (Return tt,
             withStore w (map (fun m => if String.eqb (id m) i then applyPatch patch m else m)
                            (store w)))
       else (Throw "NotFound", w))
    (fun i w =>
       if existsb (String.eqb i) (undeletable w) then (Throw "Delete failed", w)
       else (Return tt,
             withStore w (filter (fun m => negb (String.eqb (id m) i)) (store w))))
    (fun i w =>
       if holds i (store w)
       then (Return tt,
             mkWorld (filter (fun m => negb (String.eqb (id m) i)) (store w))
               (archivedIds w ++ [i]) (unavailable w) (undeletable w) (retrievable w)
               (embedderDown w) (time w) (script w))
       else (Throw "NotFound", w))
    (fun _ _ _ w =>
       if unavailable w then (Throw "Database connection failed", w)
       else (Return (retrievable w), w))
    (fun ids succeeded w =>
       (Return tt,
        withStore w (map (fun m => if existsb (String.eqb (id m)) ids
                                   then recordUse succeeded m else m) (store w))))
    (fun _ _ _ w => (Return tt, w)).

(** The clock: every reading advances it by one millisecond. *)
Definition clock (w : World) : Z * World :=
  (time w,
   mkWorld (store w) (archivedIds w) (unavailable w) (undeletable w) (retrievable w)
     (embedderDown w) (time w + 1)%Z (script w)).

(** The embedder. *)
Definition embedQuery (_ _ : string) (w : World) : Outcome (list float) * World :=
  if embedderDown w then (Throw "Embedding failed", w) else (Return [1; 0; 0], w).

(** An executor that answers call after call from [script], as the mock
    executors of the test suite do; past the script it answers [null]. *)
Definition scripted (_ : Task) (_ : list Memory) (w : World)
  : Outcome (option Result) * World :=
  match script w with
  | [] => (Return None, w)
  | answer :: rest => (answer, withScript w rest)
  end.

(** A reflector that always asks for another refinement. *)
Definition alwaysRefine (_ : Task) (_ : option Result) (_ : list Memory) (w : World)
  : Outcome (option Reflection) * World :=
  (Return (Some (mkReflection true [])), w).

(** Template interpolation and [JSON.stringify], as far as the tasks of this
    module need them. *)
Definition toText (v : JS.value) : string :=
  match v with JS.VStr s => s | _ => "" end.

Definition stringify (_ : JS.value) : string := "{}".

Definition task : Task := [("taskId", JS.VStr "test")].

Definition record (i : string) (vector : list float) (retrieved : float)
  (rate : option float) (created : Z) : Memory :=
  mkMemory i "" (JS.VArr vector) retrieved None None rate (Some created) None.

Definition world (records : list Memory) : World :=
  mkWorld records [] false [] [] false 0 [].

End Reference.

(** ** [services/memoryConsolidation.js]: class [MemoryConsolidation] *)
Module MemoryConsolidation.

Import Effects.
Local Open Scope float_scope.

(** *** [_cosineSimilarity] *)

(** The body of the summation loop: after the loop the three accumulators hold
    the dot product and the two squared magnitudes. *)
Fixpoint accumulate (arr1 arr2 : list float) (acc : float * float * float)
  : float * float * float :=
  match arr1, arr2 with
  | x :: rest1, y :: rest2 =>
      let '(dotProduct, mag1, mag2) := acc in
      accumulate rest1 rest2 (dotProduct + x * y, mag1 + x * x, mag2 + y * y)
  | _, _ => acc
  end.

(** [vec._values || vec] *)
Definition unwrap (vec : JS.value) : JS.value :=
  JS.or_else (JS.get vec "_values") vec.

(** The similarity, and the warnings the call hands to the logger. *)
Definition _cosineSimilarity (vec1 vec2 : JS.value) : float * Trace :=
  if negb (JS.truthy vec1) || negb (JS.truthy vec2) then (0, [])
  else
    match JS.as_array (unwrap vec1), JS.as_array (unwrap vec2) with
    | Some arr1, Some arr2 =>
        if negb (List.length arr1 =? List.length arr2)%nat
        then (0, [Logged Warn "Embedding dimension mismatch" []])
        else
          let '(dotProduct, mag1, mag2) := accumulate arr1 arr2 (0, 0, 0) in
          let mag1 := PrimFloat.sqrt mag1 in
          let mag2 := PrimFloat.sqrt mag2 in
          if PrimFloat.eqb mag1 0 || PrimFloat.eqb mag2 0 then (0, [])
          else (dotProduct / (mag1 * mag2), [])
    | _, _ => (0, [Logged Warn "Invalid embedding format for similarity calculation" []])
    end.

(** The quantities of section 4.1, each summed from 0 in index order. *)
Definition dot (u v : list float) : float :=
  fold_left (fun acc xy => acc + fst xy * snd xy) (combine u v) 0.

Definition sumSquares (u : list float) : float :=
  fold_left (fun acc x => acc + x * x) u 0.

Definition norm (u : list float) : float := PrimFloat.sqrt (sumSquares u).

(** A wrapped vector as the specification names it (a [values] field) and as
    Firestore delivers it (a [_values] field). *)
Definition wrappedValues (xs : list float) : JS.value := JS.VObj [("values", JS.VArr xs)].
Definition firestoreVector (xs : list float) : JS.value := JS.VObj [("_values", JS.VArr xs)].

Lemma accumulate_folds (u v : list float) : forall d m1 m2,
  List.length u = List.length v ->
  accumulate u v (d, m1, m2)
  = (fold_left (fun acc xy => acc + fst xy * snd xy) (combine u v) d,
     fold_left (fun acc x => acc + x * x) u m1,
     fold_left (fun acc x => acc + x * x) v m2).
Proof.
  revert v. induction u as [|x u IH]; intros [|y v] d m1 m2 Hlen;
    simpl in *; try discriminate; [reflexivity|].
  apply IH. now injection Hlen.
Qed.

Lemma cosine_of_arrays (vec1 vec2 : JS.value) (u v : list float) :
  JS.truthy vec1 = true -> JS.truthy vec2 = true ->
  JS.as_array (unwrap vec1) = Some u -> JS.as_array (unwrap vec2) = Some v ->
  List.length u = List.length v ->
  fst (_cosineSimilarity vec1 vec2)
  = if PrimFloat.eqb (norm u) 0 || PrimFloat.eqb (norm v) 0 then 0
    else dot u v / (norm u * norm v).
Proof.
  intros T1 T2 A1 A2 Hlen. unfold _cosineSimilarity.
  rewrite T1, T2, A1, A2. simpl.
  rewrite Hlen, Nat.eqb_refl. simpl.
  rewrite (accumulate_folds u v 0 0 0 Hlen).
  fold (dot u v) (sumSquares u) (sumSquares v). fold (norm u) (norm v).
  destruct (PrimFloat.eqb (norm u) 0 || PrimFloat.eqb (norm v) 0); reflexivity.
Qed.

(** C6, as far as the code goes: the similarity is 0 for an absent (falsy)
    input, for an input that is no array once a [_values] field is unwrapped,
    for arrays of different lengths and for a zero magnitude; otherwise it is
    the double-precision quotient of the dot product by the product of the
    magnitudes.  A Firestore vector [{_values: [1,2,3]}] against itself gives
    more than 0.999, and [[1,2,3]] against [[1,2,3,4]] gives 0. *)
Theorem cosineSimilarity_contract :
  (forall vec1 vec2,
     JS.truthy vec1 = false \/ JS.truthy vec2 = false ->
     fst (_cosineSimilarity vec1 vec2) = 0) /\
  (forall vec1 vec2,
     JS.as_array (unwrap vec1) = None \/ JS.as_array (unwrap vec2) = None ->
     fst (_cosineSimilarity vec1 vec2) = 0) /\
  (forall vec1 vec2 u v,
     JS.as_array (unwrap vec1) = Some u -> JS.as_array (unwrap vec2) = Some v ->
     List.length u <> List.length v ->
     fst (_cosineSimilarity vec1 vec2) = 0) /\
  (forall vec1 vec2 u v,
     JS.as_array (unwrap vec1) = Some u -> JS.as_array (unwrap vec2) = Some v ->
     PrimFloat.eqb (norm u) 0 = true \/ PrimFloat.eqb (norm v) 0 = true ->
     fst (_cosineSimilarity vec1 vec2) = 0) /\
  (forall vec1 vec2 u v,
     JS.truthy vec1 = true -> JS.truthy vec2 = true ->
     JS.as_array (unwrap vec1) = Some u -> JS.as_array (unwrap vec2) = Some v ->
     List.length u = List.length v ->
     PrimFloat.eqb (norm u) 0 = false -> PrimFloat.eqb (norm v) 0 = false ->
     fst (_cosineSimilarity vec1 vec2) = dot u v / (norm u * norm v)) /\
  PrimFloat.ltb 0.999
    (fst (_cosineSimilarity (firestoreVector [1; 2; 3]) (firestoreVector [1; 2; 3]))) = true /\
  fst (_cosineSimilarity (JS.VArr [1; 2; 3]) (JS.VArr [1; 2; 3; 4])) = 0.
Proof.
  repeat match goal with |- _ /\ _ => split end.
  - intros vec1 vec2 H. unfold _cosineSimilarity.
    destruct H as [H|H]; rewrite H; simpl; [reflexivity|].
    now rewrite orb_true_r.
  - intros vec1 vec2 H. unfold _cosineSimilarity.
    destruct (negb (JS.truthy vec1) || negb (JS.truthy vec2)); [reflexivity|].
    destruct H as [H|H]; rewrite H; [reflexivity|].
    destruct (JS.as_array (unwrap vec1)); reflexivity.
  - intros vec1 vec2 u v A1 A2 Hlen. unfold _cosineSimilarity.
    destruct (negb (JS.truthy vec1) || negb (JS.truthy vec2)); [reflexivity|].
    rewrite A1, A2. apply Nat.eqb_neq in Hlen. now rewrite Hlen.
  - intros vec1 vec2 u v A1 A2 Hz.
    destruct (JS.truthy vec1) eqn:T1; [|unfold _cosineSimilarity; now rewrite T1].
    destruct (JS.truthy vec2) eqn:T2;
      [|unfold _cosineSimilarity; rewrite T1, T2; reflexivity].
    destruct (Nat.eq_dec (List.length u) (List.length v)) as [Hlen|Hlen].
    + rewrite (cosine_of_arrays vec1 vec2 u v T1 T2 A1 A2 Hlen).
      destruct Hz as [Hz|Hz]; rewrite Hz; [reflexivity|].
      now rewrite orb_true_r.
    + unfold _cosineSimilarity. rewrite T1, T2, A1, A2. simpl.
      apply Nat.eqb_neq in Hlen. now rewrite Hlen.
  - intros vec1 vec2 u v T1 T2 A1 A2 Hlen Z1 Z2.
    rewrite (cosine_of_arrays vec1 vec2 u v T1 T2 A1 A2 Hlen).
    now rewrite Z1, Z2.
  - vm_compute. reflexivity.
  - vm_compute. reflexivity.
Qed.

(** The contract at work on the orthogonal unit vectors of scenario S6. *)
Lemma cosineSimilarity_contract_witness :
  fst (_cosineSimilarity (JS.VArr [1; 0; 0]) (JS.VArr [0; 1; 0]))
  = dot [1; 0; 0] [0; 1; 0] / (norm [1; 0; 0] * norm [0; 1; 0]).
Proof.
  apply (proj1 (proj2 (proj2 (proj2 (proj2 cosineSimilarity_contract)))));
    reflexivity.
Defined.

(** C6 fails as stated.  An object carrying a [values] field is not unwrapped
    (the code reads [_values]), so it is no array and the similarity is 0, not
    above 0.999.  And the quotient leaves [-1, 1]: [[2,3]] against itself
    gives 1.0000000000000002, and [[1e200]] against itself gives [NaN]. *)
Lemma cosineSimilarity_values_field_and_range :
  fst (_cosineSimilarity (wrappedValues [1; 2; 3]) (wrappedValues [1; 2; 3])) = 0 /\
  PrimFloat.ltb 0.999
    (fst (_cosineSimilarity (wrappedValues [1; 2; 3]) (wrappedValues [1; 2; 3]))) = false /\
  PrimFloat.leb (fst (_cosineSimilarity (JS.VArr [2; 3]) (JS.VArr [2; 3]))) 1 = false /\
  PrimFloat.is_nan (fst (_cosineSimilarity (JS.VArr [1e200]) (JS.VArr [1e200]))) = true.
Proof. repeat match goal with |- _ /\ _ => split end; vm_compute; reflexivity. Qed.

(** *** [pruneLowQualityMemories] *)

Definition lowQualityThreshold : float := 0.3.
Definition minRetrievals : float := 10.

(** [ToNumber] of a field that holds a number or [null]. *)
Definition toNumber (x : option float) : float :=
  match x with Some v => v | None => 0 end.

Definition isNull (x : option float) : bool :=
  match x with None => true | Some _ => false end.

(** The filter of the prune pass:
    [m.timesRetrieved >= minRetrievals && m.successRate !== null &&
     m.successRate < lowQualityThreshold]. *)
Definition isLowQuality (m : Memory) : bool :=
  PrimFloat.leb minRetrievals (timesRetrieved m)
  && negb (isNull (successRate m))
  && PrimFloat.ltb (toNumber (successRate m)) lowQualityThreshold.

(** The prune predicate in the words of section 4.4.1. *)
Definition meetsPrunePredicate (m : Memory) : Prop :=
  PrimFloat.leb 10 (timesRetrieved m) = true /\
  exists rate, successRate m = Some rate /\ PrimFloat.ltb rate 0.3 = true.

(** The memory ids named by the warnings of a pass. *)
Definition warnedIds (message : string) (tr : Trace) : list string :=
  map (fun about => hd "" about) (warnings message tr).

Section Prune.
Context {W : Type} (memoryModel : MemoryModel W).
Local Open Scope js_scope.

Definition pruneOne (memory : Memory) : M W unit :=
  try_catch
    (call (DeleteMemory (id memory)) (deleteMemory memoryModel (id memory)) ;;;
     log Debug "Pruned low-quality memory" [id memory])
    (fun error => log Warn "Failed to prune memory" [id memory; error]).

Definition pruneLowQualityMemories : M W nat :=
  memories <- call (GetAllMemories 10000) (getAllMemories memoryModel 10000) ;;
  let toPrune := filter isLowQuality memories in
  log Info "Identified low-quality memories for pruning" [] ;;;
  forEach toPrune pruneOne ;;;
  ret (List.length toPrune).

End Prune.

Lemma isLowQuality_iff (m : Memory) :
  isLowQuality m = true <-> meetsPrunePredicate m.
Proof.
  unfold isLowQuality, meetsPrunePredicate, minRetrievals, lowQualityThreshold.
  rewrite !andb_true_iff. split.
  - intros [[H1 H2] H3]. split; [exact H1|].
    destruct (successRate m) as [rate|]; [|discriminate].
    exists rate. split; [reflexivity|exact H3].
  - intros [H1 (rate & E & H3)]. rewrite E. simpl. auto.
Qed.

Section PruneProofs.
Context {W : Type} (memoryModel : MemoryModel W).

(** One iteration of the loop never throws: it adds one deletion attempt for
    the record, and a warning naming the record exactly when the deletion
    failed. *)
Lemma pruneOne_run (memory : Memory) (w : W) :
  exists w' tr',
    pruneOne memoryModel memory w = (Return tt, w', tr') /\
    deleteAttempts tr' = [id memory] /\
    warnedIds "Failed to prune memory" tr' = failedDeletes tr'.
Proof.
  unfold pruneOne, try_catch, bind_or, bind, call, log, emit, ret.
  destruct (deleteMemory memoryModel (id memory) w) as [[[]|e] w'];
    eexists; eexists; (split; [reflexivity|]); simpl; auto.
Qed.

Lemma prune_loop_run (toPrune : list Memory) : forall (w : W),
  exists w' tr',
    forEach toPrune (pruneOne memoryModel) w = (Return tt, w', tr') /\
    deleteAttempts tr' = map id toPrune /\
    warnedIds "Failed to prune memory" tr' = failedDeletes tr'.
Proof.
  induction toPrune as [|memory rest IH]; intros w; simpl.
  - exists w, []. auto.
  - unfold bind.
    destruct (pruneOne_run memory w) as (w1 & tr1 & E1 & D1 & L1).
    destruct (IH w1) as (w2 & tr2 & E2 & D2 & L2).
    rewrite E1, E2. exists w2, (tr1 ++ tr2). split; [reflexivity|].
    unfold warnedIds, warnings, deleteAttempts, failedDeletes in *.
    rewrite !flat_map_app, map_app, D1, D2, L1, L2. auto.
Qed.

(** The deletions of the loop are the repository's own: the state the loop
    leaves is the state reached by calling [deleteMemory] on each record in
    turn, and the trace records how each of these calls ended. *)
Lemma pruneOne_calls (memory : Memory) (w : W) :
  (deleteCalls (traceOf (pruneOne memoryModel memory) w),
   snd (fst (pruneOne memoryModel memory w)))
  = attemptEach (deleteMemory memoryModel) [id memory] w.
Proof.
  unfold traceOf, pruneOne, try_catch, bind_or, bind, call, log, emit, ret. simpl.
  destruct (deleteMemory memoryModel (id memory) w) as [[[]|e] w1]; reflexivity.
Qed.

Lemma prune_loop_calls (toPrune : list Memory) : forall (w w' : W) (tr' : Trace),
  forEach toPrune (pruneOne memoryModel) w = (Return tt, w', tr') ->
  (deleteCalls tr', w') = attemptEach (deleteMemory memoryModel) (map id toPrune) w.
Proof.
  induction toPrune as [|memory rest IH]; intros w w' tr'; simpl.
  - unfold ret. intros E. now injection E as <- <-.
  - unfold bind at 1.
    pose proof (pruneOne_calls memory w) as H1. unfold traceOf in H1. simpl in H1.
    destruct (pruneOne memoryModel memory w) as [[[[]|e] w1] tr1]; [|discriminate].
    destruct (forEach rest (pruneOne memoryModel) w1) as [[[[]|e'] w2] tr2] eqn:E2;
      [|discriminate].
    intros E. injection E as <- <-.
    specialize (IH w1 w2 tr2 E2). simpl in H1.
    destruct (deleteMemory memoryModel (id memory) w) as [o w0].
    injection H1 as Hd <-.
    rewrite <- IH. unfold deleteCalls in *. now rewrite flat_map_app, Hd.
Qed.

(** C3: when the scan delivers [memories], the prune pass returns the number
    of records meeting the predicate [timesRetrieved >= 10 /\ successRate is
    not null /\ successRate < 0.3]; it asks the repository to delete exactly
    those records, once each and in scan order; a deletion that fails is
    answered by a warning naming the record, and the remaining records are
    still processed (the pass resolves whatever the deletions do).  The
    deletions are carried out by the repository: the state the pass leaves
    is the one reached from the scan by calling [deleteMemory] on these
    records in turn. *)
Theorem pruneLowQualityMemories_prunes_exactly_low_quality
  (w w1 : W) (memories : list Memory) :
  getAllMemories memoryModel 10000 w = (Return memories, w1) ->
  exists w' tr',
    pruneLowQualityMemories memoryModel w
      = (Return (List.length (filter isLowQuality memories)), w', tr') /\
    deleteAttempts tr' = map id (filter isLowQuality memories) /\
    (forall i, In i (deleteAttempts tr') <->
               exists m, In m memories /\ id m = i /\ meetsPrunePredicate m) /\
    (forall m, In m memories ->
               (isLowQuality m = true <-> meetsPrunePredicate m)) /\
    warnedIds "Failed to prune memory" tr' = failedDeletes tr' /\
    (deleteCalls tr', w')
    = attemptEach (deleteMemory memoryModel) (map id (filter isLowQuality memories)) w1.
Proof.
  intros Hscan.
  unfold pruneLowQualityMemories, bind, call, log, emit, ret.
  rewrite Hscan.
  destruct (prune_loop_run (filter isLowQuality memories) w1)
    as (w2 & tr2 & E2 & D & L).
  pose proof (prune_loop_calls _ _ _ _ E2) as Hcalls.
  rewrite E2.
  eexists; eexists; split; [reflexivity|].
  assert (Dall : deleteAttempts
            ([Called (GetAllMemories 10000) true]
             ++ [Logged Info "Identified low-quality memories for pruning" []]
             ++ tr2 ++ [])
          = map id (filter isLowQuality memories)).
  { unfold deleteAttempts in *. rewrite !flat_map_app. simpl.
    now rewrite app_nil_r. }
  repeat match goal with |- _ /\ _ => split end.
  - exact Dall.
  - intros i. rewrite Dall, in_map_iff. split.
    + intros (m & E & Hin). apply filter_In in Hin. destruct Hin as [Hin Hq].
      exists m. repeat split; auto; now apply isLowQuality_iff.
    + intros (m & Hin & E & Hq). exists m. split; [exact E|].
      apply filter_In. split; [exact Hin|]. now apply isLowQuality_iff.
  - intros m _. apply isLowQuality_iff.
  - unfold warnedIds, warnings, failedDeletes in *.
    rewrite !flat_map_app. simpl. rewrite !app_nil_r. exact L.
  - rewrite <- Hcalls. unfold deleteCalls.
    rewrite !flat_map_app. simpl. now rewrite !app_nil_r.
Qed.

End PruneProofs.

(** *** [detectAndMergeDuplicates] *)

Definition similarityThreshold : float := 0.95.

(** An entry of [duplicatePairs]. *)
Record Pair : Type := mkPair {
  memory1 : Memory;
  memory2 : Memory;
  similarity : float
}.

(** The inner loop ([j] from [i + 1]) for a fixed [memories[i]]: the pairs it
    pushes and the warnings the similarity calls emit. *)
Fixpoint scanAgainst (mi : Memory) (others : list Memory) : list Pair * Trace :=
  match others with
  | [] => ([], [])
  | mj :: rest =>
      if negb (JS.truthy (embedding mi)) || negb (JS.truthy (embedding mj))
      then scanAgainst mi rest
      else
        let (sim, warned) := _cosineSimilarity (embedding mi) (embedding mj) in
        let (pairs, warnedLater) := scanAgainst mi rest in
        (if PrimFloat.leb similarityThreshold sim
         then mkPair mi mj sim :: pairs else pairs,
         warned ++ warnedLater)
  end.

(** The outer loop ([i] from 0). *)
Fixpoint findDuplicatePairs (memories : list Memory) : list Pair * Trace :=
  match memories with
  | [] => ([], [])
  | mi :: rest =>
      let (pairs, warned) := scanAgainst mi rest in
      let (pairsLater, warnedLater) := findDuplicatePairs rest in
      (pairs ++ pairsLater, warned ++ warnedLater)
  end.

(** [a > b] on two [successRate] fields: [null] converts to 0. *)
Definition rateGreater (a b : option float) : bool :=
  PrimFloat.ltb (toNumber b) (toNumber a).

(** The record bound to [keep] by the [if]/[else if]/[else] of the merge. *)
Definition keepOf (pair : Pair) : Memory :=
  let m1 := memory1 pair in
  let m2 := memory2 pair in
  if rateGreater (successRate m1) (successRate m2) then m1
  else if rateGreater (successRate m2) (successRate m1) then m2
  else if PrimFloat.leb (timesRetrieved m2) (timesRetrieved m1) then m1 else m2.

(** The record bound to [remove]. *)
Definition removeOf (pair : Pair) : Memory :=
  let m1 := memory1 pair in
  let m2 := memory2 pair in
  if rateGreater (successRate m1) (successRate m2) then m2
  else if rateGreater (successRate m2) (successRate m1) then m1
  else if PrimFloat.leb (timesRetrieved m2) (timesRetrieved m1) then m2 else m1.

(** [x || 0] on a counter that may be missing. *)
Definition orZero (x : option float) : float :=
  match x with
  | Some v => if JS.num_truthy v then v else 0
  | None => 0
  end.

(** The merged statistics written to the kept record. *)
Definition mergedPatch (keep remove : Memory) : MemoryPatch :=
  let mergedTimesRetrieved := timesRetrieved keep + timesRetrieved remove in
  let mergedTimesSuccessful :=
    orZero (timesUsedInSuccess keep) + orZero (timesUsedInSuccess remove) in
  let mergedTimesFailure :=
    orZero (timesUsedInFailure keep) + orZero (timesUsedInFailure remove) in
  let totalUses := mergedTimesSuccessful + mergedTimesFailure in
  mkPatch mergedTimesRetrieved mergedTimesSuccessful mergedTimesFailure
    (if PrimFloat.ltb 0 totalUses then Some (mergedTimesSuccessful / totalUses) else None).

Definition staleThresholdDays : Z := 90.

(** [updatedAt], or [createdAt] as fallback, in milliseconds. *)
Definition lastActivity (m : Memory) : option Z :=
  match updatedAt m, createdAt m with
  | Some seconds, _ => Some (seconds * 1000)%Z
  | None, Some seconds => Some (seconds * 1000)%Z
  | None, None => None
  end.

Definition isStale (staleDate : Z) (m : Memory) : bool :=
  match lastActivity m with
  | None => false
  | Some t => (t <? staleDate)%Z
  end.

Section Passes.
Context {W : Type} (memoryModel : MemoryModel W) (clock : W -> Z * W).
Local Open Scope js_scope.

(** The body of the merge loop for one pair; [true] when [mergedCount] was
    incremented. *)
Definition mergePair (pair : Pair) : M W bool :=
  try_catch
    (let keep := keepOf pair in
     let remove := removeOf pair in
     let patch := mergedPatch keep remove in
     call (UpdateMemory (id keep) patch) (updateMemory memoryModel (id keep) patch) ;;;
     call (DeleteMemory (id remove)) (deleteMemory memoryModel (id remove)) ;;;
     log Debug "Merged duplicate memory" [id keep; id remove] ;;;
     ret true)
    (fun error =>
       log Warn "Failed to merge duplicate memories"
         [id (memory1 pair); id (memory2 pair); error] ;;;
       ret false).

Fixpoint mergeAll (pairs : list Pair) (mergedCount : nat) : M W nat :=
  match pairs with
  | [] => ret mergedCount
  | candidate :: rest =>
      merged <- mergePair candidate ;;
      mergeAll rest (if merged then S mergedCount else mergedCount)
  end.

Definition detectAndMergeDuplicates : M W nat :=
  memories <- call (GetAllMemories 10000) (getAllMemories memoryModel 10000) ;;
  let (duplicatePairs, warned) := findDuplicatePairs memories in
  emit_all warned ;;;
  log Info "Found near-duplicate memory pairs" [] ;;;
  mergeAll duplicatePairs 0.

(** *** [archiveStaleMemories] *)

Definition archiveOne (memory : Memory) : M W unit :=
  try_catch
    (call (ArchiveMemory (id memory)) (archiveMemory memoryModel (id memory)) ;;;
     log Debug "Archived stale memory" [id memory])
    (fun error => log Warn "Failed to archive memory" [id memory; error]).

Definition archiveStaleMemories : M W nat :=
  now <- peek clock ;;
  let staleDate := (now - staleThresholdDays * 24 * 60 * 60 * 1000)%Z in
  memories <- call (GetAllMemories 10000) (getAllMemories memoryModel 10000) ;;
  let staleMemories := filter (isStale staleDate) memories in
  log Info "Identified stale memories for archiving" [] ;;;
  forEach staleMemories archiveOne ;;;
  ret (List.length staleMemories).

(** *** [consolidate] *)

(** The [catch] block: it records the message in [stats.errors], sets
    [stats.success] to false, logs the failure with the statistics, and throws
    the error again. *)
Definition consolidateFailed {A} (stats : Stats) (error : string) : M W A :=
  let stats :=
    mkStats (startTime stats) (totalMemories stats) (pruned stats) (merged stats)
      (archived stats) (errors stats ++ [error]) (endTime stats) (Some false) in
  emit (LoggedStats Error "Memory consolidation failed" error stats) ;;;
  throw error.

Definition consolidate : M W Stats :=
  log Info "Starting memory consolidation" [] ;;;
  started <- peek clock ;;
  let stats := mkStats started 0 0 0 0 [] None None in
  bind_or (call (GetAllMemories 10000) (getAllMemories memoryModel 10000))
    (consolidateFailed stats) (fun memoriesBefore =>
  let stats :=
    mkStats started (List.length memoriesBefore) 0 0 0 [] None None in
  bind_or (log Info "Step 1: Pruning low-quality memories" [] ;;;
           pruneLowQualityMemories memoryModel)
    (consolidateFailed stats) (fun prunedCount =>
  let stats :=
    mkStats started (List.length memoriesBefore) prunedCount 0 0 [] None None in
  bind_or (log Info "Step 2: Detecting and merging duplicates" [] ;;;
           detectAndMergeDuplicates)
    (consolidateFailed stats) (fun mergedCount =>
  let stats :=
    mkStats started (List.length memoriesBefore) prunedCount mergedCount 0 []
      None None in
  bind_or (log Info "Step 3: Archiving stale memories" [] ;;;
           archiveStaleMemories)
    (consolidateFailed stats) (fun archivedCount =>
  ended <- peek clock ;;
  let stats :=
    mkStats started (List.length memoriesBefore) prunedCount mergedCount
      archivedCount [] (Some ended) (Some true) in
  emit (LoggedStats Info "Memory consolidation completed successfully" "" stats) ;;;
  ret stats)))).

End Passes.

(** *** The merge rule *)

(** The same pair with other creation times. *)
Definition withCreatedAt (c1 c2 : option Z) (pair : Pair) : Pair :=
  let recreated (c : option Z) (m : Memory) :=
    mkMemory (id m) (title m) (embedding m) (timesRetrieved m)
      (timesUsedInSuccess m) (timesUsedInFailure m) (successRate m) c (updatedAt m) in
  mkPair (recreated c1 (memory1 pair)) (recreated c2 (memory2 pair)) (similarity pair).

Lemma keep_first (pair : Pair) :
  rateGreater (successRate (memory1 pair)) (successRate (memory2 pair)) = true ->
  keepOf pair = memory1 pair /\ removeOf pair = memory2 pair.
Proof. intros H. unfold keepOf, removeOf. now rewrite H. Qed.

Lemma keep_second (pair : Pair) :
  rateGreater (successRate (memory2 pair)) (successRate (memory1 pair)) = true ->
  keepOf pair = memory2 pair /\ removeOf pair = memory1 pair.
Proof.
  intros H. unfold keepOf, removeOf. rewrite H.
  unfold rateGreater in *. apply FloatFacts.ltb_leb in H as Hle.
  destruct (PrimFloat.ltb (toNumber (successRate (memory2 pair)))
              (toNumber (successRate (memory1 pair)))) eqn:E; [|auto].
  apply FloatFacts.ltb_not_leb in E. congruence.
Qed.

Lemma rates_tied (pair : Pair) :
  successRate (memory1 pair) = successRate (memory2 pair) ->
  rateGreater (successRate (memory1 pair)) (successRate (memory2 pair)) = false /\
  rateGreater (successRate (memory2 pair)) (successRate (memory1 pair)) = false.
Proof.
  intros E. unfold rateGreater. rewrite E. split; apply FloatFacts.ltb_irrefl.
Qed.

(** C4, as far as the code goes.  Of a candidate pair the record with the
    strictly higher [successRate] is kept and the other removed, a [null] rate
    counting as 0, so that a record without a rate loses to a record with a
    positive rate.  When the rates are equal the record retrieved more often is
    kept, and when the retrieval counts are equal too the first record of the
    pair in scan order is kept: [createdAt] is never read. *)
Theorem merge_keeps_higher_rate_then_more_retrievals_then_first (pair : Pair) :
  ((keepOf pair = memory1 pair /\ removeOf pair = memory2 pair) \/
   (keepOf pair = memory2 pair /\ removeOf pair = memory1 pair)) /\
  (PrimFloat.ltb (toNumber (successRate (memory2 pair)))
     (toNumber (successRate (memory1 pair))) = true ->
   keepOf pair = memory1 pair /\ removeOf pair = memory2 pair) /\
  (PrimFloat.ltb (toNumber (successRate (memory1 pair)))
     (toNumber (successRate (memory2 pair))) = true ->
   keepOf pair = memory2 pair /\ removeOf pair = memory1 pair) /\
  (forall rate, successRate (memory1 pair) = None ->
     successRate (memory2 pair) = Some rate -> PrimFloat.ltb 0 rate = true ->
     keepOf pair = memory2 pair /\ removeOf pair = memory1 pair) /\
  (forall rate, successRate (memory2 pair) = None ->
     successRate (memory1 pair) = Some rate -> PrimFloat.ltb 0 rate = true ->
     keepOf pair = memory1 pair /\ removeOf pair = memory2 pair) /\
  (successRate (memory1 pair) = successRate (memory2 pair) ->
   PrimFloat.ltb (timesRetrieved (memory2 pair)) (timesRetrieved (memory1 pair)) = true ->
   keepOf pair = memory1 pair /\ removeOf pair = memory2 pair) /\
  (successRate (memory1 pair) = successRate (memory2 pair) ->
   PrimFloat.ltb (timesRetrieved (memory1 pair)) (timesRetrieved (memory2 pair)) = true ->
   keepOf pair = memory2 pair /\ removeOf pair = memory1 pair) /\
  (successRate (memory1 pair) = successRate (memory2 pair) ->
   PrimFloat.eqb (timesRetrieved (memory1 pair)) (timesRetrieved (memory2 pair)) = true ->
   forall c1 c2,
     keepOf (withCreatedAt c1 c2 pair) = memory1 (withCreatedAt c1 c2 pair) /\
     removeOf (withCreatedAt c1 c2 pair) = memory2 (withCreatedAt c1 c2 pair)).
Proof.
  repeat match goal with |- _ /\ _ => split end.
  - unfold keepOf, removeOf.
    destruct (rateGreater (successRate (memory1 pair)) (successRate (memory2 pair)));
      [now left|].
    destruct (rateGreater (successRate (memory2 pair)) (successRate (memory1 pair)));
      [now right|].
    destruct (PrimFloat.leb (timesRetrieved (memory2 pair)) (timesRetrieved (memory1 pair)));
      [now left|now right].
  - apply keep_first.
  - apply keep_second.
  - intros rate E1 E2 Hpos. apply keep_second.
    unfold rateGreater. now rewrite E1, E2.
  - intros rate E2 E1 Hpos. apply keep_first.
    unfold rateGreater. now rewrite E1, E2.
  - intros E Hmore. destruct (rates_tied pair E) as [T1 T2].
    unfold keepOf, removeOf. rewrite T1, T2.
    now rewrite (FloatFacts.ltb_leb _ _ Hmore).
  - intros E Hmore. destruct (rates_tied pair E) as [T1 T2].
    unfold keepOf, removeOf. rewrite T1, T2.
    now rewrite (FloatFacts.ltb_not_leb _ _ Hmore).
  - intros E Heq c1 c2.
    assert (E' : successRate (memory1 (withCreatedAt c1 c2 pair))
                 = successRate (memory2 (withCreatedAt c1 c2 pair))) by exact E.
    destruct (rates_tied _ E') as [T1 T2].
    unfold keepOf, removeOf. rewrite T1, T2. simpl.
    now rewrite (FloatFacts.eqb_leb _ _ Heq).
Qed.

(** Scenario S2 of the specification: of two duplicates the one with the
    higher rate is kept. *)
Definition scenarioS2 : Pair :=
  mkPair (Reference.record "R1" [0.5; 0.5] 10 (Some 0.8) 0)
         (Reference.record "R2" [0.5; 0.5] 5 (Some 0.7) 0) 1.

Lemma merge_scenarioS2 :
  keepOf scenarioS2 = memory1 scenarioS2 /\ removeOf scenarioS2 = memory2 scenarioS2.
Proof.
  apply (proj1 (proj2 (merge_keeps_higher_rate_then_more_retrievals_then_first
                         scenarioS2))).
  vm_compute. reflexivity.
Defined.

(** Two duplicates with the same rate and the same retrieval count, the first
    in scan order being the more recent one; and a record without a rate next
    to a record whose rate is 0. *)
Definition newer : Memory := Reference.record "newer" [1; 0] 5 (Some 0.5) 200.
Definition older : Memory := Reference.record "older" [1; 0] 5 (Some 0.5) 100.
Definition unrated : Memory := Reference.record "unrated" [1; 0] 20 None 100.
Definition zeroRated : Memory := Reference.record "zeroRated" [1; 0] 5 (Some 0) 100.

(** C4 fails as stated.  [older] and [newer] are duplicates with the same rate
    and the same retrieval count; the pass keeps [newer], which comes first in
    the scan, and deletes the record with the older [createdAt].  And a record
    without a rate that was retrieved more often is kept over a record whose
    rate is 0. *)
Lemma merge_deletes_older_record_and_keeps_unrated :
  fst (findDuplicatePairs [newer; older]) = [mkPair newer older 1] /\
  createdAt older = Some 100%Z /\ createdAt newer = Some 200%Z /\
  keepOf (mkPair newer older 1) = newer /\
  deleteAttempts
    (traceOf (detectAndMergeDuplicates Reference.memoryModel)
       (Reference.world [newer; older])) = ["older"] /\
  fst (findDuplicatePairs [unrated; zeroRated]) = [mkPair unrated zeroRated 1] /\
  keepOf (mkPair unrated zeroRated 1) = unrated /\
  deleteAttempts
    (traceOf (detectAndMergeDuplicates Reference.memoryModel)
       (Reference.world [unrated; zeroRated])) = ["zeroRated"].
Proof.
  repeat match goal with |- _ /\ _ => split end; vm_compute; reflexivity.
Qed.

(** *** The merge pass *)

(** Every pair of positions [i < j] of the scan, by [i] and then by [j]. *)
Fixpoint allPairs (memories : list Memory) : list (Memory * Memory) :=
  match memories with
  | [] => []
  | mi :: rest => map (fun mj => (mi, mj)) rest ++ allPairs rest
  end.

(** A pair is a candidate when both records carry an embedding and their
    similarity reaches the threshold. *)
Definition candidate (ab : Memory * Memory) : list Pair :=
  let (a, b) := ab in
  if JS.truthy (embedding a) && JS.truthy (embedding b)
  then
    let sim := fst (_cosineSimilarity (embedding a) (embedding b)) in
    if PrimFloat.leb similarityThreshold sim then [mkPair a b sim] else []
  else [].

Definition candidatePairs (memories : list Memory) : list Pair :=
  flat_map candidate (allPairs memories).

(** What the pass asks the repository for one pair. *)
Definition winnerUpdate (pair : Pair) : string * MemoryPatch :=
  (id (keepOf pair), mergedPatch (keepOf pair) (removeOf pair)).

Definition loserId (pair : Pair) : string := id (removeOf pair).

Lemma scanAgainst_candidates (mi : Memory) (others : list Memory) :
  fst (scanAgainst mi others) = flat_map candidate (map (fun mj => (mi, mj)) others).
Proof.
  induction others as [|mj rest IH]; simpl; [reflexivity|].
  destruct (JS.truthy (embedding mi)), (JS.truthy (embedding mj)); simpl;
    try exact IH.
  destruct (_cosineSimilarity (embedding mi) (embedding mj)) as [sim warned].
  destruct (scanAgainst mi rest) as [pairs warnedLater]. simpl in *.
  rewrite <- IH.
  destruct (PrimFloat.leb similarityThreshold sim); reflexivity.
Qed.

Lemma findDuplicatePairs_candidates (memories : list Memory) :
  fst (findDuplicatePairs memories) = candidatePairs memories.
Proof.
  unfold candidatePairs.
  induction memories as [|mi rest IH]; simpl; [reflexivity|].
  pose proof (scanAgainst_candidates mi rest) as Hscan.
  destruct (scanAgainst mi rest) as [pairs warned].
  destruct (findDuplicatePairs rest) as [pairsLater warnedLater]. simpl in *.
  now rewrite flat_map_app, Hscan, IH.
Qed.

Lemma allPairs_length (memories : list Memory) :
  (2 * List.length (allPairs memories)
   = List.length memories * (List.length memories - 1))%nat.
Proof.
  induction memories as [|mi rest IH]; [reflexivity|].
  cbn [allPairs List.length]. rewrite length_app, length_map.
  destruct (List.length rest) as [|n]; simpl in *; nia.
Qed.

Lemma candidatePairs_length (memories : list Memory) :
  (List.length (candidatePairs memories) <= List.length (allPairs memories))%nat.
Proof.
  unfold candidatePairs.
  induction (allPairs memories) as [|[a b] rest IH]; [simpl; lia|].
  cbn [flat_map List.length]. rewrite length_app.
  assert (List.length (candidate (a, b)) <= 1)%nat.
  { unfold candidate.
    destruct (JS.truthy (embedding a) && JS.truthy (embedding b)); simpl; [|lia].
    destruct (PrimFloat.leb similarityThreshold
                (fst (_cosineSimilarity (embedding a) (embedding b)))); simpl; lia. }
  lia.
Qed.

(** The similarity calls only log. *)
Definition isLog (e : Event) : bool := negb (touchesCollaborator e).

Lemma cosineSimilarity_only_logs (vec1 vec2 : JS.value) :
  forallb isLog (snd (_cosineSimilarity vec1 vec2)) = true.
Proof.
  unfold _cosineSimilarity.
  destruct (negb (JS.truthy vec1) || negb (JS.truthy vec2)); [reflexivity|].
  destruct (JS.as_array (unwrap vec1)) as [arr1|]; [|reflexivity].
  destruct (JS.as_array (unwrap vec2)) as [arr2|]; [|reflexivity].
  destruct (negb (List.length arr1 =? List.length arr2)%nat); [reflexivity|].
  destruct (accumulate arr1 arr2 (0, 0, 0)) as [[dotProduct mag1] mag2].
  destruct (PrimFloat.eqb (PrimFloat.sqrt mag1) 0 || PrimFloat.eqb (PrimFloat.sqrt mag2) 0);
    reflexivity.
Qed.

Lemma scanAgainst_only_logs (mi : Memory) (others : list Memory) :
  forallb isLog (snd (scanAgainst mi others)) = true.
Proof.
  induction others as [|mj rest IH]; simpl; [reflexivity|].
  destruct (negb (JS.truthy (embedding mi)) || negb (JS.truthy (embedding mj)));
    [exact IH|].
  pose proof (cosineSimilarity_only_logs (embedding mi) (embedding mj)) as Hcos.
  destruct (_cosineSimilarity (embedding mi) (embedding mj)) as [sim warned].
  destruct (scanAgainst mi rest) as [pairs warnedLater]. simpl in *.
  now rewrite forallb_app, Hcos, IH.
Qed.

Lemma findDuplicatePairs_only_logs (memories : list Memory) :
  forallb isLog (snd (findDuplicatePairs memories)) = true.
Proof.
  induction memories as [|mi rest IH]; simpl; [reflexivity|].
  pose proof (scanAgainst_only_logs mi rest) as Hscan.
  destruct (scanAgainst mi rest) as [pairs warned].
  destruct (findDuplicatePairs rest) as [pairsLater warnedLater]. simpl in *.
  now rewrite forallb_app, Hscan, IH.
Qed.

Lemma successfulDeletes_length (tr : Trace) :
  (List.length (successfulDeletes tr) <= List.length (deleteAttempts tr))%nat.
Proof.
  unfold successfulDeletes, deleteAttempts.
  induction tr as [|e rest IH]; simpl; [lia|].
  rewrite !length_app.
  destruct e as [[] []| | |]; simpl; lia.
Qed.

Lemma logs_hold_no_call (es : Trace) :
  forallb isLog es = true ->
  updateAttempts es = [] /\ updateOutcomes es = [] /\
  deleteAttempts es = [] /\ successfulDeletes es = [].
Proof.
  induction es as [|e rest IH]; simpl; [auto|].
  intros H. apply andb_true_iff in H. destruct H as [He Hrest].
  destruct (IH Hrest) as (U & O & D & S).
  unfold updateAttempts, updateOutcomes, deleteAttempts, successfulDeletes in *.
  simpl. rewrite U, O, D, S. destruct e; try discriminate; auto.
Qed.

(** The writes a trace holds, each with the way it ended. *)
Inductive Write : Type :=
| Updated (memoryId : string) (patch : MemoryPatch) (ok : bool)
| Deleted (memoryId : string) (ok : bool).

Definition writes (tr : Trace) : list Write :=
  flat_map (fun e => match e with
                     | Called (UpdateMemory i patch) ok => [Updated i patch ok]
                     | Called (DeleteMemory i) ok => [Deleted i ok]
                     | _ => [] end) tr.

(** The merge of section 4.4.2 carried out on the repository, pair after
    pair: the winner is updated, and when that update returned the loser is
    deleted; the writes with the way each ended, and the state they leave. *)
Fixpoint mergeEach {W : Type} (memoryModel : MemoryModel W) (pairs : list Pair) (w : W)
  : list Write * W :=
  match pairs with
  | [] => ([], w)
  | candidate :: rest =>
      let (winner, patch) := winnerUpdate candidate in
      match updateMemory memoryModel winner patch w with
      | (Throw _, w1) =>
          let (done, w') := mergeEach memoryModel rest w1 in
          (Updated winner patch false :: done, w')
      | (Return _, w1) =>
          let (o, w2) := deleteMemory memoryModel (loserId candidate) w1 in
          let (done, w') := mergeEach memoryModel rest w2 in
          (Updated winner patch true :: Deleted (loserId candidate) (returned o) :: done, w')
      end
  end.

(** A count that is a number: neither [NaN] nor the negative zero; a missing
    count is read as 0. *)
Definition properCount (x : option float) : Prop :=
  match x with
  | Some v => PrimFloat.is_nan v = false /\ (PrimFloat.eqb v 0 = true -> v = 0)
  | None => True
  end.

Definition properCounts (m : Memory) : Prop :=
  properCount (timesUsedInSuccess m) /\ properCount (timesUsedInFailure m).

(** The statistics of section 4.4.2: the sums of the counts of the two
    records, and the rate recomputed from the summed uses, [null] when there
    is none. *)
Definition summedStatistics (winner loser : Memory) (patch : MemoryPatch) : Prop :=
  patchTimesRetrieved patch = timesRetrieved winner + timesRetrieved loser /\
  patchTimesUsedInSuccess patch
  = toNumber (timesUsedInSuccess winner) + toNumber (timesUsedInSuccess loser) /\
  patchTimesUsedInFailure patch
  = toNumber (timesUsedInFailure winner) + toNumber (timesUsedInFailure loser) /\
  patchSuccessRate patch
  = if PrimFloat.ltb 0 (patchTimesUsedInSuccess patch + patchTimesUsedInFailure patch)
    then Some (patchTimesUsedInSuccess patch
               / (patchTimesUsedInSuccess patch + patchTimesUsedInFailure patch))
    else None.

Lemma orZero_proper (x : option float) : properCount x -> orZero x = toNumber x.
Proof.
  destruct x as [v|]; simpl; [|reflexivity].
  intros [Hnan Hzero]. unfold JS.num_truthy. rewrite Hnan, orb_false_r.
  destruct (PrimFloat.eqb v 0) eqn:E; simpl; [|reflexivity].
  symmetry. now apply Hzero.
Qed.

Lemma mergedPatch_sums (keep remove : Memory) :
  properCounts keep -> properCounts remove ->
  summedStatistics keep remove (mergedPatch keep remove).
Proof.
  intros [Hks Hkf] [Hrs Hrf]. unfold summedStatistics, mergedPatch. simpl.
  rewrite !(orZero_proper _ Hks), !(orZero_proper _ Hkf),
    !(orZero_proper _ Hrs), !(orZero_proper _ Hrf).
  repeat split; reflexivity.
Qed.

Lemma logs_hold_no_write (es : Trace) : forallb isLog es = true -> writes es = [].
Proof.
  induction es as [|e rest IH]; simpl; [auto|].
  intros H. apply andb_true_iff in H. destruct H as [He Hrest].
  unfold writes in *. simpl. rewrite (IH Hrest).
  destruct e; try discriminate; reflexivity.
Qed.

Section MergeProofs.
Context {W : Type} (memoryModel : MemoryModel W).

(** The writes of the loop are the repository's own. *)
Lemma mergePair_writes (pair : Pair) (w : W) :
  (writes (traceOf (mergePair memoryModel pair) w),
   snd (fst (mergePair memoryModel pair w)))
  = mergeEach memoryModel [pair] w.
Proof.
  unfold traceOf, mergePair, try_catch, bind_or, bind, call, log, emit, ret. simpl.
  unfold loserId.
  destruct (updateMemory memoryModel (id (keepOf pair))
              (mergedPatch (keepOf pair) (removeOf pair)) w) as [[[]|e] w1];
    [|reflexivity].
  destruct (deleteMemory memoryModel (id (removeOf pair)) w1) as [[[]|e] w2];
    reflexivity.
Qed.

Lemma mergeAll_writes (pairs : list Pair) :
  forall (mergedCount total : nat) (w w' : W) (tr' : Trace),
  mergeAll memoryModel pairs mergedCount w = (Return total, w', tr') ->
  (writes tr', w') = mergeEach memoryModel pairs w.
Proof.
  induction pairs as [|pair rest IH]; intros mergedCount total w w' tr'.
  - simpl. unfold ret. intros E. now injection E as _ <- <-.
  - cbn [mergeAll]. unfold bind at 1.
    pose proof (mergePair_writes pair w) as H1. unfold traceOf in H1.
    destruct (mergePair memoryModel pair w) as [[[merged|e] w1] tr1] eqn:E1.
    2:{ discriminate. }
    destruct (mergeAll memoryModel rest (if merged then S mergedCount else mergedCount) w1)
      as [[[total'|e'] w2] tr2] eqn:E2; [|discriminate].
    intros E. injection E as _ <- <-.
    specialize (IH _ _ _ _ _ E2).
    simpl in H1. cbn [mergeEach]. unfold winnerUpdate. cbv iota beta.
    destruct (updateMemory memoryModel (id (keepOf pair))
                (mergedPatch (keepOf pair) (removeOf pair)) w) as [[[]|e] w0].
    + destruct (deleteMemory memoryModel (loserId pair) w0) as [o w3].
      injection H1 as Hw <-. rewrite <- IH.
      unfold writes in *. now rewrite flat_map_app, Hw.
    + injection H1 as Hw <-. rewrite <- IH.
      unfold writes in *. now rewrite flat_map_app, Hw.
Qed.

Lemma mergePair_run (pair : Pair) (w : W) :
  exists w' tr' merged updated,
    mergePair memoryModel pair w = (Return merged, w', tr') /\
    updateAttempts tr' = [winnerUpdate pair] /\
    updateOutcomes tr' = [updated] /\
    deleteAttempts tr' = (if updated then [loserId pair] else []) /\
    (if merged then 1 else 0)%nat = List.length (successfulDeletes tr').
Proof.
  unfold mergePair, try_catch, bind_or, bind, call, log, emit, ret,
    winnerUpdate, loserId.
  set (keep := keepOf pair). set (remove := removeOf pair).
  set (patch := mergedPatch keep remove).
  destruct (updateMemory memoryModel (id keep) patch w) as [[[]|e] w1].
  - destruct (deleteMemory memoryModel (id remove) w1) as [[[]|e] w2];
      eexists; eexists; eexists; exists true; (split; [reflexivity|]); simpl;
      repeat split; auto.
  - eexists; eexists; eexists; exists false; (split; [reflexivity|]); simpl.
    repeat split; auto.
Qed.

Lemma mergeAll_run (pairs : list Pair) : forall (mergedCount : nat) (w : W),
  exists w' tr' total,
    mergeAll memoryModel pairs mergedCount w = (Return total, w', tr') /\
    updateAttempts tr' = map winnerUpdate pairs /\
    List.length (updateOutcomes tr') = List.length pairs /\
    deleteAttempts tr' = map loserId (keepWhere (updateOutcomes tr') pairs) /\
    total = (mergedCount + List.length (successfulDeletes tr'))%nat.
Proof.
  induction pairs as [|pair rest IH]; intros mergedCount w; simpl.
  - exists w, [], mergedCount. simpl. repeat split; auto.
  - unfold bind.
    destruct (mergePair_run pair w)
      as (w1 & tr1 & merged & updated & E1 & U1 & O1 & D1 & S1).
    destruct (IH (if merged then S mergedCount else mergedCount) w1)
      as (w2 & tr2 & total & E2 & U2 & O2 & D2 & S2).
    rewrite E1, E2. exists w2, (tr1 ++ tr2), total.
    unfold updateAttempts, updateOutcomes, deleteAttempts, successfulDeletes in *.
    rewrite !flat_map_app, !length_app, U1, U2, O1, O2, D1, D2.
    repeat split.
    + destruct updated; reflexivity.
    + rewrite S2, <- S1. destruct merged; lia.
Qed.

(** C5, as far as the code goes.  The candidate pairs are the pairs of
    positions [i < j] of the scan whose records both carry an embedding and
    are similar to at least 0.95; the pass takes them in scan order.  For
    every candidate pair, whatever happened to its records in earlier pairs,
    it asks the repository to update the winner with the sums of the scanned
    counts, and to delete the loser when that update succeeded; the count it
    returns is the number of deletions that succeeded, which is at most the
    number of candidate pairs, itself at most n(n-1)/2.  The writes are
    carried out by the repository, pair after pair: the state the pass
    leaves is the one [mergeEach] reaches from the scan.  The statistics
    written are the sums of the scanned counts of the two records (a missing
    count being 0) and the rate recomputed from them. *)
Theorem detectAndMergeDuplicates_takes_every_candidate_pair_in_scan_order
  (w w1 : W) (memories : list Memory) :
  getAllMemories memoryModel 10000 w = (Return memories, w1) ->
  exists w' tr' mergedCount,
    detectAndMergeDuplicates memoryModel w = (Return mergedCount, w', tr') /\
    updateAttempts tr' = map winnerUpdate (candidatePairs memories) /\
    List.length (updateOutcomes tr') = List.length (candidatePairs memories) /\
    deleteAttempts tr'
      = map loserId (keepWhere (updateOutcomes tr') (candidatePairs memories)) /\
    mergedCount = List.length (successfulDeletes tr') /\
    (mergedCount <= List.length (candidatePairs memories))%nat /\
    (2 * List.length (candidatePairs memories)
     <= List.length memories * (List.length memories - 1))%nat /\
    (writes tr', w') = mergeEach memoryModel (candidatePairs memories) w1 /\
    (forall pair, In pair (candidatePairs memories) ->
       properCounts (memory1 pair) -> properCounts (memory2 pair) ->
       summedStatistics (keepOf pair) (removeOf pair) (snd (winnerUpdate pair))).
Proof.
  intros Hscan.
  unfold detectAndMergeDuplicates, bind, call. rewrite Hscan.
  pose proof (findDuplicatePairs_candidates memories) as Hpairs.
  pose proof (findDuplicatePairs_only_logs memories) as Hlogs.
  destruct (findDuplicatePairs memories) as [duplicatePairs warned].
  simpl in Hpairs, Hlogs. subst duplicatePairs.
  unfold emit_all, log, emit.
  destruct (mergeAll_run (candidatePairs memories) 0 w1)
    as (w2 & tr2 & total & E2 & U2 & O2 & D2 & S2).
  pose proof (mergeAll_writes _ _ _ _ _ _ E2) as Hwrites.
  pose proof (logs_hold_no_write warned Hlogs) as W0.
  rewrite E2.
  destruct (logs_hold_no_call warned Hlogs) as (U0 & O0 & D0 & S0).
  eexists; eexists; eexists; split; [reflexivity|].
  pose proof (candidatePairs_length memories) as Hc.
  pose proof (allPairs_length memories) as Ha.
  pose proof (successfulDeletes_length tr2) as Hs.
  pose proof (keepWhere_length (updateOutcomes tr2) (candidatePairs memories)) as Hk.
  rewrite D2, length_map in Hs.
  assert (Hsums : forall pair, In pair (candidatePairs memories) ->
            properCounts (memory1 pair) -> properCounts (memory2 pair) ->
            summedStatistics (keepOf pair) (removeOf pair) (snd (winnerUpdate pair))).
  { intros pair _ H1 H2. unfold winnerUpdate. cbn [snd].
    assert (Hboth : properCounts (keepOf pair) /\ properCounts (removeOf pair)).
    { unfold keepOf, removeOf.
      destruct (rateGreater (successRate (memory1 pair)) (successRate (memory2 pair)));
        [tauto|].
      destruct (rateGreater (successRate (memory2 pair)) (successRate (memory1 pair)));
        [tauto|].
      destruct (PrimFloat.leb (timesRetrieved (memory2 pair))
                  (timesRetrieved (memory1 pair))); tauto. }
    apply mergedPatch_sums; tauto. }
  assert (Hw : (writes ([Called (GetAllMemories 10000) true]
                        ++ warned
                        ++ [Logged Info "Found near-duplicate memory pairs" []] ++ tr2), w2)
               = mergeEach memoryModel (candidatePairs memories) w1).
  { rewrite <- Hwrites. unfold writes in *. rewrite !flat_map_app, W0. reflexivity. }
  unfold updateAttempts, updateOutcomes, deleteAttempts, successfulDeletes in *.
  rewrite !flat_map_app, U0, O0, D0, S0. simpl.
  repeat match goal with |- _ /\ _ => split end; auto; lia.
Qed.

End MergeProofs.

(** Scenario S1 of the specification: only [A] meets the prune predicate. *)
Definition scenarioS1 : list Memory :=
  [ Reference.record "A" [] 10 (Some 0.1) 0;
    Reference.record "B" [] 10 (Some 0.5) 0;
    Reference.record "C" [] 5 (Some 0) 0 ].

Lemma pruneLowQualityMemories_scenarioS1 :
  exists w' tr',
    pruneLowQualityMemories Reference.memoryModel (Reference.world scenarioS1)
      = (Return 1%nat, w', tr') /\
    deleteAttempts tr' = ["A"] /\
    map id (Reference.store w') = ["B"; "C"].
Proof.
  destruct (pruneLowQualityMemories_prunes_exactly_low_quality Reference.memoryModel
              (Reference.world scenarioS1) (Reference.world scenarioS1)
              scenarioS1 eq_refl)
    as (w' & tr' & E & D & _ & _ & _ & Hcalls).
  exists w', tr'. split; [exact E|]. split; [exact D|].
  apply (f_equal snd) in Hcalls. simpl snd in Hcalls. rewrite Hcalls. reflexivity.
Defined.

(** Three near-duplicates: [A] and [C] point the same way, [B] slightly
    aside; the rates rise from [A] to [C]. *)
Definition recordA : Memory := Reference.record "A" [1; 0] 10 (Some 0.5) 100.
Definition recordB : Memory := Reference.record "B" [1; 0.2] 10 (Some 0.8) 100.
Definition recordC : Memory := Reference.record "C" [2; 0] 10 (Some 0.9) 100.

Lemma detectAndMergeDuplicates_three_duplicates :
  exists w' tr' mergedCount,
    detectAndMergeDuplicates Reference.memoryModel
      (Reference.world [recordA; recordB; recordC])
      = (Return mergedCount, w', tr') /\
    map fst (updateAttempts tr') = ["B"; "C"; "C"] /\
    map (fun update => patchTimesRetrieved (snd update)) (updateAttempts tr')
    = [20; 20; 20] /\
    map id (Reference.store w') = ["C"] /\
    summedStatistics recordB recordA (mergedPatch recordB recordA).
Proof.
  destruct (detectAndMergeDuplicates_takes_every_candidate_pair_in_scan_order
              Reference.memoryModel
              (Reference.world [recordA; recordB; recordC])
              (Reference.world [recordA; recordB; recordC])
              [recordA; recordB; recordC] eq_refl)
    as (w' & tr' & mergedCount & E & U & _ & _ & _ & _ & _ & Hw & Hsums).
  exists w', tr', mergedCount. split; [exact E|].
  split; [rewrite U; vm_compute; reflexivity|].
  split; [rewrite U; vm_compute; reflexivity|].
  split.
  - apply (f_equal snd) in Hw. simpl snd in Hw. rewrite Hw. vm_compute. reflexivity.
  - apply (Hsums (mkPair recordA recordB
                    (fst (_cosineSimilarity (embedding recordA) (embedding recordB))))).
    + vm_compute. tauto.
    + split; exact I.
    + split; exact I.
Defined.

(** C5 fails as stated.  The candidate pairs of [A], [B], [C] are taken in the
    order (A,B), (A,C), (B,C), although (A,C) is the most similar one; [A]
    loses the first pair and is considered again in the second: the repository
    is asked to delete [A] twice, and the counts of [A] are folded into [B]
    and into [C].  The pass reports 3 merges on 3 records. *)
Lemma merge_pass_is_unsorted_and_reconsiders_losers :
  map (fun p => (id (memory1 p), id (memory2 p)))
    (fst (findDuplicatePairs [recordA; recordB; recordC]))
    = [("A", "B"); ("A", "C"); ("B", "C")] /\
  match map similarity (fst (findDuplicatePairs [recordA; recordB; recordC])) with
  | first :: second :: _ => PrimFloat.ltb first second
  | _ => false
  end = true /\
  deleteAttempts
    (traceOf (detectAndMergeDuplicates Reference.memoryModel)
       (Reference.world [recordA; recordB; recordC])) = ["A"; "A"; "B"] /\
  map fst (updateAttempts
    (traceOf (detectAndMergeDuplicates Reference.memoryModel)
       (Reference.world [recordA; recordB; recordC]))) = ["B"; "C"; "C"] /\
  outcomeOf (detectAndMergeDuplicates Reference.memoryModel)
    (Reference.world [recordA; recordB; recordC]) = Return 3%nat.
Proof.
  repeat match goal with |- _ /\ _ => split end; vm_compute; reflexivity.
Qed.

(** *** [consolidate] *)

Section ConsolidateProofs.
Context {W : Type} (memoryModel : MemoryModel W) (clock : W -> Z * W).

(** C9, as far as the code goes.  When the initial scan throws, [consolidate]
    records the message in [stats.errors], sets [stats.success] to false, logs
    the failure together with these statistics, and throws the error again: no
    statistics are returned.  When the scan and the three passes return, it
    returns statistics with [success = true], no error, and the three counts.
    Statistics are only ever returned with [success = true]. *)
Theorem consolidate_rethrows_scan_failure_and_returns_counts :
  (forall w started w0 error w1,
     clock w = (started, w0) ->
     getAllMemories memoryModel 10000 w0 = (Throw error, w1) ->
     consolidate memoryModel clock w
     = (Throw error, w1,
        [Logged Info "Starting memory consolidation" [];
         Called (GetAllMemories 10000) false;
         LoggedStats Error "Memory consolidation failed" error
           (mkStats started 0 0 0 0 [error] None (Some false))])) /\
  (forall w started w0 memoriesBefore w1 prunedCount w2 tr2 mergedCount w3 tr3
          archivedCount w4 tr4 ended w5,
     clock w = (started, w0) ->
     getAllMemories memoryModel 10000 w0 = (Return memoriesBefore, w1) ->
     pruneLowQualityMemories memoryModel w1 = (Return prunedCount, w2, tr2) ->
     detectAndMergeDuplicates memoryModel w2 = (Return mergedCount, w3, tr3) ->
     archiveStaleMemories memoryModel clock w3 = (Return archivedCount, w4, tr4) ->
     clock w4 = (ended, w5) ->
     exists tr,
       consolidate memoryModel clock w
       = (Return (mkStats started (List.length memoriesBefore) prunedCount
                    mergedCount archivedCount [] (Some ended) (Some true)),
          w5, tr)) /\
  (forall w stats w' tr,
     consolidate memoryModel clock w = (Return stats, w', tr) ->
     statsSuccess stats = Some true /\ errors stats = []).
Proof.
  repeat match goal with |- _ /\ _ => split end.
  - intros w started w0 error w1 Hclock Hscan.
    unfold consolidate, bind, bind_or, log, emit, peek, call, consolidateFailed, throw.
    rewrite Hclock, Hscan. reflexivity.
  - intros w started w0 memoriesBefore w1 prunedCount w2 tr2 mergedCount w3 tr3
      archivedCount w4 tr4 ended w5 Hclock Hscan Hprune Hmerge Harchive Hend.
    unfold consolidate, bind_or.
    unfold bind at 1. unfold log at 1, emit at 1.
    unfold bind at 1. unfold peek at 1. rewrite Hclock.
    unfold call at 1. rewrite Hscan.
    unfold bind at 1. unfold log at 1, emit at 1. rewrite Hprune.
    unfold bind at 1. unfold log at 1, emit at 1. rewrite Hmerge.
    unfold bind at 1. unfold log at 1, emit at 1. rewrite Harchive.
    unfold bind, peek, emit, ret. rewrite Hend.
    eexists. reflexivity.
  - intros w stats w' tr.
    unfold consolidate, bind_or, consolidateFailed, throw.
    unfold bind at 1. unfold log at 1, emit at 1.
    unfold bind at 1. unfold peek at 1.
    destruct (clock w) as [started w0].
    unfold call at 1.
    destruct (getAllMemories memoryModel 10000 w0) as [[memoriesBefore|e] w1];
      [|unfold bind, emit; discriminate].
    unfold bind at 1. unfold log at 1, emit at 1.
    destruct (pruneLowQualityMemories memoryModel w1) as [[[prunedCount|e] w2] tr2];
      [|unfold bind, emit; discriminate].
    unfold bind at 1. unfold log at 1, emit at 1.
    destruct (detectAndMergeDuplicates memoryModel w2) as [[[mergedCount|e] w3] tr3];
      [|unfold bind, emit; discriminate].
    unfold bind at 1. unfold log at 1, emit at 1.
    destruct (archiveStaleMemories memoryModel clock w3) as [[[archivedCount|e] w4] tr4];
      [|unfold bind, emit; discriminate].
    unfold bind, peek, emit, ret.
    destruct (clock w4) as [ended w5].
    intros H. injection H as <- _ _. split; reflexivity.
Qed.

End ConsolidateProofs.

(** A store that cannot be reached. *)
Definition unreachable : Reference.World :=
  Reference.mkWorld scenarioS1 [] true [] [] false 0 [].

(** C9 fails as stated: with an unreachable store the call ends by throwing
    the repository's error; it returns no statistics. *)
Lemma consolidate_throws_when_scan_fails :
  outcomeOf (consolidate Reference.memoryModel Reference.clock) unreachable
  = Throw "Database connection failed".
Proof. vm_compute. reflexivity. Qed.

(** Scenario S1 through [consolidate]: one record pruned, success reported. *)
Lemma consolidate_scenarioS1 :
  exists stats w' tr,
    consolidate Reference.memoryModel Reference.clock (Reference.world scenarioS1)
    = (Return stats, w', tr) /\
    statsSuccess stats = Some true /\ pruned stats = 1%nat /\ totalMemories stats = 3%nat.
Proof.
  edestruct (proj1 (proj2 (consolidate_rethrows_scan_failure_and_returns_counts
                             Reference.memoryModel Reference.clock))
               (Reference.world scenarioS1))
    as [tr E].
  - lazy; reflexivity.
  - lazy; reflexivity.
  - lazy; reflexivity.
  - lazy; reflexivity.
  - lazy; reflexivity.
  - lazy; reflexivity.
  - eexists; eexists; exists tr. split; [exact E|]. repeat split.
Defined.

(** *** Further properties of [_cosineSimilarity] *)

Lemma accumulate_swap (arr1 arr2 : list float) : forall dotProduct mag1 mag2,
  accumulate arr2 arr1 (dotProduct, mag2, mag1)
  = (fst (fst (accumulate arr1 arr2 (dotProduct, mag1, mag2))),
     snd (accumulate arr1 arr2 (dotProduct, mag1, mag2)),
     snd (fst (accumulate arr1 arr2 (dotProduct, mag1, mag2)))).
Proof.
  revert arr2. induction arr1 as [|x rest1 IH]; intros [|y rest2] d m1 m2;
    simpl; try reflexivity.
  rewrite (FloatFacts.mul_comm y x). apply IH.
Qed.

(** Exchanging the two embeddings changes nothing in the model (the lengths
    that the mismatch warning carries are not part of it). *)
Lemma cosineSimilarity_exchange (vec1 vec2 : JS.value) :
  _cosineSimilarity vec1 vec2 = _cosineSimilarity vec2 vec1.
Proof.
  unfold _cosineSimilarity.
  rewrite (orb_comm (negb (JS.truthy vec2))).
  destruct (negb (JS.truthy vec1) || negb (JS.truthy vec2)); [reflexivity|].
  destruct (JS.as_array (unwrap vec1)) as [arr1|], (JS.as_array (unwrap vec2)) as [arr2|];
    try reflexivity.
  rewrite (Nat.eqb_sym (List.length arr2)).
  destruct (negb (List.length arr1 =? List.length arr2)%nat); [reflexivity|].
  rewrite (accumulate_swap arr1 arr2 0 0 0).
  destruct (accumulate arr1 arr2 (0, 0, 0)) as [[dotProduct mag1] mag2]. simpl.
  rewrite (orb_comm (PrimFloat.eqb (PrimFloat.sqrt mag2) 0)).
  now rewrite (FloatFacts.mul_comm (PrimFloat.sqrt mag2)).
Qed.

(** The similarity is symmetric in double precision: exchanging the two
    embeddings does not change the number returned, bit for bit, nor whether
    a warning is logged. *)
Theorem cosineSimilarity_symmetric (vec1 vec2 : JS.value) :
  fst (_cosineSimilarity vec1 vec2) = fst (_cosineSimilarity vec2 vec1) /\
  (snd (_cosineSimilarity vec1 vec2) = [] <-> snd (_cosineSimilarity vec2 vec1) = []).
Proof.
  rewrite (cosineSimilarity_exchange vec1 vec2). split; [reflexivity|tauto].
Qed.

(** What the similarity reports: a warning is logged only when both inputs
    are present and the similarity returned is 0; at most one warning is
    logged per call; an absent input, and a pair of arrays of the same
    length (zero vectors included), are answered without any warning. *)
Theorem cosineSimilarity_warnings (vec1 vec2 : JS.value) :
  (snd (_cosineSimilarity vec1 vec2) <> [] ->
   fst (_cosineSimilarity vec1 vec2) = 0 /\
   JS.truthy vec1 = true /\ JS.truthy vec2 = true) /\
  (List.length (snd (_cosineSimilarity vec1 vec2)) <= 1)%nat /\
  (JS.truthy vec1 = false \/ JS.truthy vec2 = false ->
   snd (_cosineSimilarity vec1 vec2) = []) /\
  (forall arr1 arr2,
     JS.as_array (unwrap vec1) = Some arr1 -> JS.as_array (unwrap vec2) = Some arr2 ->
     List.length arr1 = List.length arr2 ->
     snd (_cosineSimilarity vec1 vec2) = []).
Proof.
  unfold _cosineSimilarity.
  destruct (JS.truthy vec1), (JS.truthy vec2); simpl negb; simpl orb; cbv iota;
    try (simpl; repeat match goal with |- _ /\ _ => split end;
         solve [intros H; now destruct H | lia | reflexivity]).
  destruct (JS.as_array (unwrap vec1)) as [a1|], (JS.as_array (unwrap vec2)) as [a2|];
    try (simpl; repeat match goal with |- _ /\ _ => split end;
         solve [lia | intros [H|H]; discriminate | intros; discriminate | auto]).
  destruct (List.length a1 =? List.length a2)%nat eqn:El; simpl negb; cbv iota.
  - destruct (accumulate a1 a2 (0, 0, 0)) as [[dotProduct mag1] mag2].
    destruct (PrimFloat.eqb (PrimFloat.sqrt mag1) 0 || PrimFloat.eqb (PrimFloat.sqrt mag2) 0);
      simpl; repeat match goal with |- _ /\ _ => split end;
      solve [intros H; now destruct H | lia | reflexivity].
  - simpl. repeat match goal with |- _ /\ _ => split end;
      try lia; try (intros [H|H]; discriminate); auto.
    intros arr1 arr2 E1 E2 Hlen. injection E1 as <-. injection E2 as <-.
    apply Nat.eqb_neq in El. contradiction.
Qed.

Lemma cosineSimilarity_warnings_mismatch :
  snd (_cosineSimilarity (JS.VArr [1]) (JS.VArr [1; 2])) <> [] /\
  fst (_cosineSimilarity (JS.VArr [1]) (JS.VArr [1; 2])) = 0.
Proof.
  assert (H : snd (_cosineSimilarity (JS.VArr [1]) (JS.VArr [1; 2])) <> [])
    by (vm_compute; discriminate).
  split; [exact H|].
  exact (proj1 (proj1 (cosineSimilarity_warnings (JS.VArr [1]) (JS.VArr [1; 2])) H)).
Defined.

(** Whether each scan of the collection returned, in order. *)
Definition scanOutcomes (tr : Trace) : list bool :=
  flat_map (fun e => match e with Called (GetAllMemories _) ok => [ok] | _ => [] end) tr.

(** *** The archive pass *)

Definition archiveAttempts (tr : Trace) : list string :=
  flat_map (fun e => match e with Called (ArchiveMemory i) _ => [i] | _ => [] end) tr.

Definition failedArchives (tr : Trace) : list string :=
  flat_map (fun e => match e with Called (ArchiveMemory i) false => [i] | _ => [] end) tr.

(** Staleness in words: the last activity is [updatedAt] when the record has
    one, else [createdAt]; a record is stale when that instant lies before the
    cut-off. *)
Definition lastActiveBefore (cutoff : Z) (m : Memory) : Prop :=
  (exists seconds, updatedAt m = Some seconds /\ (seconds * 1000 < cutoff)%Z) \/
  (updatedAt m = None /\
   exists seconds, createdAt m = Some seconds /\ (seconds * 1000 < cutoff)%Z).

(** The instants a [Date] can hold, in milliseconds; on these the comparison
    of two dates is the comparison of their integers. *)
Definition inDateRange (t : Z) : Prop := (Z.abs t <= 8640000000000000)%Z.

(** The timestamps of a record are Firestore timestamps that denote a date. *)
Definition datedInRange (m : Memory) : Prop :=
  forall seconds, updatedAt m = Some seconds \/ createdAt m = Some seconds ->
                  inDateRange (seconds * 1000).

Lemma isStale_iff (cutoff : Z) (m : Memory) :
  isStale cutoff m = true <-> lastActiveBefore cutoff m.
Proof.
  unfold isStale, lastActivity, lastActiveBefore.
  destruct (updatedAt m) as [u|], (createdAt m) as [c|]; split;
    try (intros H; apply Z.ltb_lt in H; eauto; fail);
    try discriminate.
  - intros [(s & E & H)|(E & _)]; [injection E as <-; now apply Z.ltb_lt|discriminate].
  - intros [(s & E & H)|(E & _)]; [injection E as <-; now apply Z.ltb_lt|discriminate].
  - intros [(s & E & H)|(_ & s & E & H)]; [discriminate|].
    injection E as <-. now apply Z.ltb_lt.
  - intros [(s & E & H)|(_ & s & E & H)]; discriminate.
Qed.

Section ArchiveProofs.
Context {W : Type} (memoryModel : MemoryModel W) (clock : W -> Z * W).

Lemma archiveOne_run (memory : Memory) (w : W) :
  exists w' tr',
    archiveOne memoryModel memory w = (Return tt, w', tr') /\
    archiveAttempts tr' = [id memory] /\
    warnedIds "Failed to archive memory" tr' = failedArchives tr' /\
    scanOutcomes tr' = [].
Proof.
  unfold archiveOne, try_catch, bind_or, bind, call, log, emit, ret.
  destruct (archiveMemory memoryModel (id memory) w) as [[[]|e] w'];
    eexists; eexists; (split; [reflexivity|]); simpl; auto.
Qed.

Lemma archive_loop_run (staleMemories : list Memory) : forall (w : W),
  exists w' tr',
    forEach staleMemories (archiveOne memoryModel) w = (Return tt, w', tr') /\
    archiveAttempts tr' = map id staleMemories /\
    warnedIds "Failed to archive memory" tr' = failedArchives tr' /\
    scanOutcomes tr' = [].
Proof.
  induction staleMemories as [|memory rest IH]; intros w; simpl.
  - exists w, []. auto.
  - unfold bind.
    destruct (archiveOne_run memory w) as (w1 & tr1 & E1 & D1 & L1 & S1).
    destruct (IH w1) as (w2 & tr2 & E2 & D2 & L2 & S2).
    rewrite E1, E2. exists w2, (tr1 ++ tr2). split; [reflexivity|].
    unfold warnedIds, warnings, archiveAttempts, failedArchives, scanOutcomes in *.
    rewrite !flat_map_app, map_app, D1, D2, L1, L2, S1, S2. auto.
Qed.

(** The archive calls of the loop are the repository's own: the state the
    loop leaves is the state reached by calling [archiveMemory] on each
    record in turn, and the trace records how each of these calls ended. *)
Lemma archiveOne_calls (memory : Memory) (w : W) :
  (archiveCalls (traceOf (archiveOne memoryModel memory) w),
   snd (fst (archiveOne memoryModel memory w)))
  = attemptEach (archiveMemory memoryModel) [id memory] w.
Proof.
  unfold traceOf, archiveOne, try_catch, bind_or, bind, call, log, emit, ret. simpl.
  destruct (archiveMemory memoryModel (id memory) w) as [[[]|e] w1]; reflexivity.
Qed.

Lemma archive_loop_calls (staleMemories : list Memory) :
  forall (w w' : W) (tr' : Trace),
  forEach staleMemories (archiveOne memoryModel) w = (Return tt, w', tr') ->
  (archiveCalls tr', w')
  = attemptEach (archiveMemory memoryModel) (map id staleMemories) w.
Proof.
  induction staleMemories as [|memory rest IH]; intros w w' tr'; simpl.
  - unfold ret. intros E. now injection E as <- <-.
  - unfold bind at 1.
    pose proof (archiveOne_calls memory w) as H1. unfold traceOf in H1. simpl in H1.
    destruct (archiveOne memoryModel memory w) as [[[[]|e] w1] tr1]; [|discriminate].
    destruct (forEach rest (archiveOne memoryModel) w1) as [[[[]|e'] w2] tr2] eqn:E2;
      [|discriminate].
    intros E. injection E as <- <-.
    specialize (IH w1 w2 tr2 E2). simpl in H1.
    destruct (archiveMemory memoryModel (id memory) w) as [o w0].
    injection H1 as Hd <-.
    rewrite <- IH. unfold archiveCalls in *. now rewrite flat_map_app, Hd.
Qed.

(** With the clock read as [now] and a scan that delivers [memories], whose
    timestamps denote dates, the archive pass asks the repository to archive
    exactly the records whose last activity ([updatedAt] if present, else
    [createdAt]) lies more than 90 days before [now], once each and in scan
    order; records without any timestamp are never archived; a failing
    archive call is answered by a warning naming the record and does not stop
    the pass; the pass returns the number of stale records, archived or
    not.  The archive calls are carried out by the repository: the state
    the pass leaves is the one reached from the scan by calling
    [archiveMemory] on the stale records in turn. *)
Theorem archiveStaleMemories_archives_exactly_stale
  (w w0 w1 : W) (now : Z) (memories : list Memory) :
  clock w = (now, w0) ->
  getAllMemories memoryModel 10000 w0 = (Return memories, w1) ->
  inDateRange (now - 7776000000) ->
  Forall datedInRange memories ->
  exists w' tr',
    archiveStaleMemories memoryModel clock w
      = (Return (List.length (filter (isStale (now - 7776000000)) memories)), w', tr') /\
    archiveAttempts tr' = map id (filter (isStale (now - 7776000000)) memories) /\
    (forall i, In i (archiveAttempts tr') <->
               exists m, In m memories /\ id m = i /\
                         lastActiveBefore (now - 7776000000) m) /\
    (forall m, In m memories -> updatedAt m = None -> createdAt m = None ->
               isStale (now - 7776000000) m = false) /\
    warnedIds "Failed to archive memory" tr' = failedArchives tr' /\
    (archiveCalls tr', w')
    = attemptEach (archiveMemory memoryModel)
        (map id (filter (isStale (now - 7776000000)) memories)) w1.
Proof.
  intros Hclock Hscan _ _.
  unfold archiveStaleMemories, bind, peek, call, log, emit, ret.
  rewrite Hclock, Hscan.
  change (now - staleThresholdDays * 24 * 60 * 60 * 1000)%Z with (now - 7776000000)%Z.
  destruct (archive_loop_run (filter (isStale (now - 7776000000)) memories) w1)
    as (w2 & tr2 & E2 & D & L & _).
  pose proof (archive_loop_calls _ _ _ _ E2) as Hcalls.
  rewrite E2.
  eexists; eexists; split; [reflexivity|].
  assert (Dall : archiveAttempts
            ([] ++ [Called (GetAllMemories 10000) true]
             ++ [Logged Info "Identified stale memories for archiving" []]
             ++ tr2 ++ [])
          = map id (filter (isStale (now - 7776000000)) memories)).
  { unfold archiveAttempts in *. rewrite !flat_map_app. simpl.
    now rewrite app_nil_r. }
  repeat match goal with |- _ /\ _ => split end.
  - exact Dall.
  - intros i. rewrite Dall, in_map_iff. split.
    + intros (m & E & Hin). apply filter_In in Hin. destruct Hin as [Hin Hq].
      exists m. repeat split; auto; now apply isStale_iff.
    + intros (m & Hin & E & Hq). exists m. split; [exact E|].
      apply filter_In. split; [exact Hin|]. now apply isStale_iff.
  - intros m _ Hu Hc. unfold isStale, lastActivity. now rewrite Hu, Hc.
  - unfold warnedIds, warnings, failedArchives in *.
    rewrite !flat_map_app. simpl. rewrite !app_nil_r. exact L.
  - rewrite <- Hcalls. unfold archiveCalls.
    rewrite !flat_map_app. simpl. now rewrite !app_nil_r.
Qed.

End ArchiveProofs.

(** Scenario S3 of the specification, read at day 200: a record last used on
    day 100, a record last used on day 170, and a record without timestamps. *)
Definition day : Z := 86400.

Definition scenarioS3 : list Memory :=
  [ mkMemory "old" "" JS.VNull 0 None None None (Some 0%Z) (Some (100 * day)%Z);
    mkMemory "recent" "" JS.VNull 0 None None None (Some 0%Z) (Some (170 * day)%Z);
    mkMemory "undated" "" JS.VNull 0 None None None None None ].

Definition atDay200 : Reference.World :=
  Reference.mkWorld scenarioS3 [] false [] [] false (200 * day * 1000) [].

Lemma archiveStaleMemories_scenarioS3 :
  exists w' tr',
    archiveStaleMemories Reference.memoryModel Reference.clock atDay200
      = (Return 1%nat, w', tr') /\
    archiveAttempts tr' = ["old"] /\
    Reference.archivedIds w' = ["old"] /\
    map id (Reference.store w') = ["recent"; "undated"].
Proof.
  assert (Hrange : inDateRange (200 * day * 1000 - 7776000000))
    by (unfold inDateRange, day; lia).
  assert (Hdated : Forall datedInRange scenarioS3).
  { repeat constructor; intros seconds [E|E]; try discriminate;
      injection E as <-; unfold inDateRange, day; lia. }
  destruct (archiveStaleMemories_archives_exactly_stale Reference.memoryModel
              Reference.clock atDay200 _ _ _ scenarioS3 eq_refl eq_refl Hrange Hdated)
    as (w' & tr' & E & D & _ & _ & _ & Hcalls).
  exists w', tr'. split; [exact E|]. split; [exact D|].
  apply (f_equal snd) in Hcalls. simpl snd in Hcalls. rewrite Hcalls.
  split; reflexivity.
Defined.

(** *** The merge pass: what it touches *)

Definition mergeFailed : string := "Failed to merge duplicate memories".

Lemma allPairs_In (a b : Memory) (memories : list Memory) :
  In (a, b) (allPairs memories) -> In a memories /\ In b memories.
Proof.
  induction memories as [|mi rest IH]; simpl; [tauto|].
  intros H. apply in_app_or in H. destruct H as [H|H].
  - apply in_map_iff in H. destruct H as (mj & E & Hin).
    injection E as <- <-. auto.
  - destruct (IH H). auto.
Qed.

(** A candidate pair is made of two scanned records that both carry an
    embedding, with the similarity of their embeddings, which reaches 0.95. *)
Lemma candidatePairs_In (pair : Pair) (memories : list Memory) :
  In pair (candidatePairs memories) ->
  In (memory1 pair) memories /\ In (memory2 pair) memories /\
  JS.truthy (embedding (memory1 pair)) = true /\
  JS.truthy (embedding (memory2 pair)) = true /\
  similarity pair
  = fst (_cosineSimilarity (embedding (memory1 pair)) (embedding (memory2 pair))) /\
  PrimFloat.leb 0.95 (similarity pair) = true.
Proof.
  unfold candidatePairs. intros H. apply in_flat_map in H.
  destruct H as ([a b] & Hin & Hc). apply allPairs_In in Hin.
  unfold candidate in Hc.
  destruct (JS.truthy (embedding a)) eqn:Ta, (JS.truthy (embedding b)) eqn:Tb;
    simpl in Hc; try contradiction.
  destruct (PrimFloat.leb similarityThreshold
              (fst (_cosineSimilarity (embedding a) (embedding b)))) eqn:Hs;
    simpl in Hc; [|contradiction].
  destruct Hc as [<-|[]]. simpl. tauto.
Qed.

Lemma keepOf_removeOf (pair : Pair) :
  (keepOf pair = memory1 pair /\ removeOf pair = memory2 pair) \/
  (keepOf pair = memory2 pair /\ removeOf pair = memory1 pair).
Proof.
  unfold keepOf, removeOf.
  destruct (rateGreater (successRate (memory1 pair)) (successRate (memory2 pair)));
    [now left|].
  destruct (rateGreater (successRate (memory2 pair)) (successRate (memory1 pair)));
    [now right|].
  destruct (PrimFloat.leb (timesRetrieved (memory2 pair)) (timesRetrieved (memory1 pair)));
    [now left|now right].
Qed.

Lemma cosineSimilarity_quiet (vec1 vec2 : JS.value) :
  warnings mergeFailed (snd (_cosineSimilarity vec1 vec2)) = [] /\
  scanOutcomes (snd (_cosineSimilarity vec1 vec2)) = [].
Proof.
  unfold _cosineSimilarity.
  destruct (negb (JS.truthy vec1) || negb (JS.truthy vec2)); [split; reflexivity|].
  destruct (JS.as_array (unwrap vec1)) as [arr1|]; [|split; reflexivity].
  destruct (JS.as_array (unwrap vec2)) as [arr2|]; [|split; reflexivity].
  destruct (negb (List.length arr1 =? List.length arr2)%nat); [split; reflexivity|].
  destruct (accumulate arr1 arr2 (0, 0, 0)) as [[dotProduct mag1] mag2].
  destruct (PrimFloat.eqb (PrimFloat.sqrt mag1) 0 || PrimFloat.eqb (PrimFloat.sqrt mag2) 0);
    split; reflexivity.
Qed.

Lemma scanAgainst_quiet (mi : Memory) (others : list Memory) :
  warnings mergeFailed (snd (scanAgainst mi others)) = [] /\
  scanOutcomes (snd (scanAgainst mi others)) = [].
Proof.
  induction others as [|mj rest IH]; simpl; [split; reflexivity|].
  destruct (negb (JS.truthy (embedding mi)) || negb (JS.truthy (embedding mj)));
    [exact IH|].
  destruct (cosineSimilarity_quiet (embedding mi) (embedding mj)) as [Hw Hs].
  destruct (_cosineSimilarity (embedding mi) (embedding mj)) as [sim warned].
  destruct (scanAgainst mi rest) as [pairs warnedLater]. simpl in *.
  destruct IH as [IHw IHs]. unfold warnings, scanOutcomes in *.
  now rewrite !flat_map_app, Hw, Hs, IHw, IHs.
Qed.

Lemma findDuplicatePairs_quiet (memories : list Memory) :
  warnings mergeFailed (snd (findDuplicatePairs memories)) = [] /\
  scanOutcomes (snd (findDuplicatePairs memories)) = [].
Proof.
  induction memories as [|mi rest IH]; simpl; [split; reflexivity|].
  destruct (scanAgainst_quiet mi rest) as [Hw Hs].
  destruct (scanAgainst mi rest) as [pairs warned].
  destruct (findDuplicatePairs rest) as [pairsLater warnedLater]. simpl in *.
  destruct IH as [IHw IHs]. unfold warnings, scanOutcomes in *.
  now rewrite !flat_map_app, Hw, Hs, IHw, IHs.
Qed.

Section MergeTouches.
Context {W : Type} (memoryModel : MemoryModel W).

Lemma mergePair_touches (pair : Pair) (w : W) :
  exists w' tr' merged,
    mergePair memoryModel pair w = (Return merged, w', tr') /\
    updateAttempts tr' = [winnerUpdate pair] /\
    (forall i, In i (deleteAttempts tr') -> i = loserId pair) /\
    (List.length (warnings mergeFailed tr') + List.length (successfulDeletes tr') = 1)%nat /\
    scanOutcomes tr' = [].
Proof.
  unfold mergePair, try_catch, bind_or, bind, call, log, emit, ret,
    winnerUpdate, loserId.
  set (keep := keepOf pair). set (remove := removeOf pair).
  set (patch := mergedPatch keep remove).
  destruct (updateMemory memoryModel (id keep) patch w) as [[[]|e] w1].
  - destruct (deleteMemory memoryModel (id remove) w1) as [[[]|e] w2];
      eexists; eexists; eexists; (split; [reflexivity|]); simpl;
      (repeat match goal with |- _ /\ _ => split end); auto;
      intros i [<-|[]]; reflexivity.
  - eexists; eexists; eexists; (split; [reflexivity|]); simpl.
    repeat match goal with |- _ /\ _ => split end; auto. intros i [].
Qed.

Lemma mergeAll_touches (pairs : list Pair) : forall (mergedCount : nat) (w : W),
  exists w' tr' total,
    mergeAll memoryModel pairs mergedCount w = (Return total, w', tr') /\
    updateAttempts tr' = map winnerUpdate pairs /\
    (forall i, In i (deleteAttempts tr') -> In i (map loserId pairs)) /\
    (List.length (warnings mergeFailed tr') + List.length (successfulDeletes tr')
     = List.length pairs)%nat /\
    total = (mergedCount + List.length (successfulDeletes tr'))%nat /\
    scanOutcomes tr' = [].
Proof.
  induction pairs as [|pair rest IH]; intros mergedCount w; simpl.
  - exists w, [], mergedCount. simpl.
    repeat match goal with |- _ /\ _ => split end; auto.
  - unfold bind.
    destruct (mergePair_run memoryModel pair w)
      as (w1 & tr1 & merged & updated & E1 & _ & _ & _ & M1).
    destruct (mergePair_touches pair w)
      as (w1' & tr1' & merged' & E1' & U1 & D1 & C1 & S1).
    rewrite E1 in E1'. injection E1' as <- <- <-.
    destruct (IH (if merged then S mergedCount else mergedCount) w1)
      as (w2 & tr2 & total & E2 & U2 & D2 & C2 & T2 & S2).
    rewrite E1, E2. exists w2, (tr1 ++ tr2), total.
    split; [reflexivity|].
    unfold updateAttempts, deleteAttempts, warnings, successfulDeletes, scanOutcomes in *.
    rewrite !flat_map_app, !length_app, U1, U2, S1, S2.
    repeat match goal with |- _ /\ _ => split end; auto.
    + intros i Hi. apply in_app_or in Hi. destruct Hi as [Hi|Hi].
      * left. symmetry. now apply D1.
      * right. now apply D2.
    + lia.
    + rewrite T2, <- M1. destruct merged; lia.
Qed.

(** When the scan delivers [memories], every record the merge pass asks the
    repository to update or to delete is one of the two records of a
    candidate pair: two scanned records that both carry an embedding and
    whose similarity reaches 0.95 (so a record without embedding is never
    touched).  Every candidate pair ends either in a successful deletion,
    which is counted, or in one warning: the count returned and the number of
    merge warnings add up to the number of candidate pairs. *)
Theorem detectAndMergeDuplicates_touches_only_similar_embedded_records
  (w w1 : W) (memories : list Memory) :
  getAllMemories memoryModel 10000 w = (Return memories, w1) ->
  exists w' tr' mergedCount,
    detectAndMergeDuplicates memoryModel w = (Return mergedCount, w', tr') /\
    (forall i, In i (map fst (updateAttempts tr')) \/ In i (deleteAttempts tr') ->
       exists m other,
         In m memories /\ In other memories /\ id m = i /\
         JS.truthy (embedding m) = true /\ JS.truthy (embedding other) = true /\
         (PrimFloat.leb 0.95 (fst (_cosineSimilarity (embedding m) (embedding other))) = true \/
          PrimFloat.leb 0.95 (fst (_cosineSimilarity (embedding other) (embedding m))) = true)) /\
    (List.length (warnings mergeFailed tr') + mergedCount
     = List.length (candidatePairs memories))%nat.
Proof.
  intros Hscan.
  unfold detectAndMergeDuplicates, bind, call. rewrite Hscan.
  pose proof (findDuplicatePairs_candidates memories) as Hpairs.
  pose proof (findDuplicatePairs_only_logs memories) as Hlogs.
  destruct (findDuplicatePairs_quiet memories) as [Hquiet _].
  destruct (findDuplicatePairs memories) as [duplicatePairs warned].
  simpl in Hpairs, Hlogs, Hquiet. subst duplicatePairs.
  unfold emit_all, log, emit.
  destruct (mergeAll_touches (candidatePairs memories) 0 w1)
    as (w2 & tr2 & total & E2 & U2 & D2 & C2 & T2 & _).
  rewrite E2.
  destruct (logs_hold_no_call warned Hlogs) as (U0 & _ & D0 & _).
  eexists; eexists; eexists; split; [reflexivity|].
  assert (Hmember : forall pair m, In pair (candidatePairs memories) ->
            m = keepOf pair \/ m = removeOf pair ->
            exists other,
              In m memories /\ In other memories /\
              JS.truthy (embedding m) = true /\ JS.truthy (embedding other) = true /\
              (PrimFloat.leb 0.95 (fst (_cosineSimilarity (embedding m) (embedding other)))
               = true \/
               PrimFloat.leb 0.95 (fst (_cosineSimilarity (embedding other) (embedding m)))
               = true)).
  { intros pair m Hin Hm.
    destruct (candidatePairs_In pair memories Hin) as (I1 & I2 & T1 & T2' & Es & Hs).
    rewrite Es in Hs.
    destruct (keepOf_removeOf pair) as [[Ek Er]|[Ek Er]];
      rewrite Ek, Er in Hm; destruct Hm as [->| ->];
      [exists (memory2 pair)|exists (memory1 pair)
      |exists (memory1 pair)|exists (memory2 pair)]; tauto. }
  unfold updateAttempts, deleteAttempts, warnings in *.
  rewrite !flat_map_app, U0, D0, Hquiet. simpl. rewrite ?app_nil_r.
  split.
  - intros i [Hi|Hi].
    + rewrite U2, map_map in Hi. apply in_map_iff in Hi.
      destruct Hi as (pair & E & Hin). simpl in E.
      destruct (Hmember pair (keepOf pair) Hin (or_introl eq_refl)) as (other & H).
      exists (keepOf pair), other. tauto.
    + apply D2 in Hi. apply in_map_iff in Hi.
      destruct Hi as (pair & E & Hin). unfold loserId in E.
      destruct (Hmember pair (removeOf pair) Hin (or_intror eq_refl)) as (other & H).
      exists (removeOf pair), other. tauto.
  - unfold successfulDeletes in *. lia.
Qed.

End MergeTouches.

(** Two similar records with embeddings and one record without: the pass
    leaves the third alone. *)
Lemma detectAndMergeDuplicates_skips_record_without_embedding :
  exists w' tr' mergedCount,
    detectAndMergeDuplicates Reference.memoryModel
      (Reference.world
         [recordA; mkMemory "bare" "" JS.VNull 0 None None None None None; recordC])
      = (Return mergedCount, w', tr') /\
    ~ In "bare" (map fst (updateAttempts tr') ++ deleteAttempts tr').
Proof.
  destruct (detectAndMergeDuplicates_touches_only_similar_embedded_records
              Reference.memoryModel
              (Reference.world
                 [recordA; mkMemory "bare" "" JS.VNull 0 None None None None None; recordC])
              _ _ eq_refl)
    as (w' & tr' & mergedCount & E & Hin & _).
  exists w', tr', mergedCount. split; [exact E|].
  intros H. apply in_app_or in H.
  destruct (Hin "bare" H) as (m & other & Hm & _ & Hid & Ht & _).
  simpl in Hm. destruct Hm as [<-|[<-|[<-|[]]]]; discriminate.
Defined.

(** *** [consolidate]: when it fails *)

Section ConsolidateScans.
Context {W : Type} (memoryModel : MemoryModel W) (clock : W -> Z * W).

(** A pass scans the collection once, and ends as its scan ends. *)
Definition scansOnce {A : Type} (pass : M W A) : Prop :=
  forall w,
    (exists a w' tr', pass w = (Return a, w', tr') /\ scanOutcomes tr' = [true]) \/
    (exists e w' tr', pass w = (Throw e, w', tr') /\ scanOutcomes tr' = [false]).

Lemma pruneOne_no_scan (memory : Memory) (w : W) :
  exists w' tr',
    pruneOne memoryModel memory w = (Return tt, w', tr') /\ scanOutcomes tr' = [].
Proof.
  unfold pruneOne, try_catch, bind_or, bind, call, log, emit, ret.
  destruct (deleteMemory memoryModel (id memory) w) as [[[]|e] w'];
    eexists; eexists; (split; [reflexivity|]); reflexivity.
Qed.

Lemma prune_loop_no_scan (toPrune : list Memory) : forall (w : W),
  exists w' tr',
    forEach toPrune (pruneOne memoryModel) w = (Return tt, w', tr') /\
    scanOutcomes tr' = [].
Proof.
  induction toPrune as [|memory rest IH]; intros w; simpl.
  - exists w, []. auto.
  - unfold bind.
    destruct (pruneOne_no_scan memory w) as (w1 & tr1 & E1 & S1).
    destruct (IH w1) as (w2 & tr2 & E2 & S2).
    rewrite E1, E2. exists w2, (tr1 ++ tr2). split; [reflexivity|].
    unfold scanOutcomes in *. now rewrite flat_map_app, S1, S2.
Qed.

Lemma pruneLowQualityMemories_scansOnce :
  scansOnce (pruneLowQualityMemories memoryModel).
Proof.
  intros w. unfold pruneLowQualityMemories, bind, call, log, emit, ret.
  destruct (getAllMemories memoryModel 10000 w) as [[memories|e] w1].
  - left. destruct (prune_loop_no_scan (filter isLowQuality memories) w1)
      as (w2 & tr2 & E2 & S2).
    rewrite E2. eexists; eexists; eexists; split; [reflexivity|].
    unfold scanOutcomes in *. rewrite !flat_map_app, S2. reflexivity.
  - right. eexists; eexists; eexists; split; reflexivity.
Qed.

Lemma detectAndMergeDuplicates_scansOnce :
  scansOnce (detectAndMergeDuplicates memoryModel).
Proof.
  intros w. unfold detectAndMergeDuplicates, bind, call.
  destruct (getAllMemories memoryModel 10000 w) as [[memories|e] w1].
  - left. destruct (findDuplicatePairs_quiet memories) as [_ Hquiet].
    destruct (findDuplicatePairs memories) as [duplicatePairs warned].
    simpl in Hquiet. unfold emit_all, log, emit.
    destruct (mergeAll_touches memoryModel duplicatePairs 0 w1)
      as (w2 & tr2 & total & E2 & _ & _ & _ & _ & S2).
    rewrite E2. eexists; eexists; eexists; split; [reflexivity|].
    unfold scanOutcomes in *. rewrite !flat_map_app, Hquiet, S2. reflexivity.
  - right. eexists; eexists; eexists; split; reflexivity.
Qed.

Lemma archiveStaleMemories_scansOnce :
  scansOnce (archiveStaleMemories memoryModel clock).
Proof.
  intros w. unfold archiveStaleMemories, bind, peek, call, log, emit, ret.
  destruct (clock w) as [now w0].
  destruct (getAllMemories memoryModel 10000 w0) as [[memories|e] w1].
  - left.
    destruct (archive_loop_run memoryModel
                (filter (isStale (now - staleThresholdDays * 24 * 60 * 60 * 1000)) memories) w1)
      as (w2 & tr2 & E2 & _ & _ & S2).
    rewrite E2. eexists; eexists; eexists; split; [reflexivity|].
    unfold scanOutcomes in *. rewrite !flat_map_app, S2. reflexivity.
  - right. eexists; eexists; eexists; split; reflexivity.
Qed.

Ltac failed_run :=
  repeat match goal with |- _ /\ _ => split end;
  try lia;
  try (unfold scanOutcomes in *; rewrite !flat_map_app;
       repeat match goal with H : flat_map _ _ = _ |- _ => rewrite H; clear H end;
       reflexivity);
  try (rewrite ?app_nil_r, !app_assoc; apply last_last);
  try reflexivity.

(** The way a run of [consolidate] ends, by its scans. *)
Lemma consolidate_run (w : W) :
  (exists stats w' tr',
     consolidate memoryModel clock w = (Return stats, w', tr') /\
     scanOutcomes tr' = [true; true; true; true]) \/
  (exists error w' tr' scansBefore stats,
     consolidate memoryModel clock w = (Throw error, w', tr') /\
     (scansBefore < 4)%nat /\
     scanOutcomes tr' = repeat true scansBefore ++ [false] /\
     last tr' (Logged Info "" [])
     = LoggedStats Error "Memory consolidation failed" error stats /\
     statsSuccess stats = Some false /\ errors stats = [error]).
Proof.
  set (r := consolidate memoryModel clock w).
  assert (Hr : r = consolidate memoryModel clock w) by reflexivity.
  clearbody r.
  unfold consolidate, bind_or, consolidateFailed, throw in Hr.
  unfold bind at 1 in Hr. unfold log at 1, emit at 1 in Hr.
  unfold bind at 1 in Hr. unfold peek at 1 in Hr.
  destruct (clock w) as [started w0].
  unfold call at 1 in Hr.
  destruct (getAllMemories memoryModel 10000 w0) as [[memoriesBefore|e] w1].
  2:{ right. unfold bind, emit in Hr.
      eexists; eexists; eexists; exists 0%nat; eexists.
      split; [exact Hr|]. failed_run. }
  unfold bind at 1 in Hr. unfold log at 1, emit at 1 in Hr.
  destruct (pruneLowQualityMemories_scansOnce w1)
    as [(prunedCount & w2 & tr2 & E2 & S2)|(e & w2 & tr2 & E2 & S2)]; rewrite E2 in Hr.
  2:{ right. unfold bind, emit in Hr.
      eexists; eexists; eexists; exists 1%nat; eexists.
      split; [exact Hr|]. failed_run. }
  unfold bind at 1 in Hr. unfold log at 1, emit at 1 in Hr.
  destruct (detectAndMergeDuplicates_scansOnce w2)
    as [(mergedCount & w3 & tr3 & E3 & S3)|(e & w3 & tr3 & E3 & S3)]; rewrite E3 in Hr.
  2:{ right. unfold bind, emit in Hr.
      eexists; eexists; eexists; exists 2%nat; eexists.
      split; [exact Hr|]. failed_run. }
  unfold bind at 1 in Hr. unfold log at 1, emit at 1 in Hr.
  destruct (archiveStaleMemories_scansOnce w3)
    as [(archivedCount & w4 & tr4 & E4 & S4)|(e & w4 & tr4 & E4 & S4)]; rewrite E4 in Hr.
  2:{ right. unfold bind, emit in Hr.
      eexists; eexists; eexists; exists 3%nat; eexists.
      split; [exact Hr|]. failed_run. }
  left. unfold bind, peek, emit, ret in Hr.
  destruct (clock w4) as [ended w5].
  eexists; eexists; eexists; split; [exact Hr|].
  unfold scanOutcomes in *. rewrite !flat_map_app, S2, S3, S4. reflexivity.
Qed.

(** [consolidate] scans the collection once itself and once in each pass.  It
    returns exactly when these four scans return; it throws exactly when one
    of them fails, which ends the run: the statistics logged with the failure
    carry [success = false] and the message thrown.  A deletion, an update or
    an archive call that fails never makes the run fail. *)
Theorem consolidate_fails_exactly_when_a_scan_fails (w : W) :
  (exists stats w' tr',
     consolidate memoryModel clock w = (Return stats, w', tr') /\
     scanOutcomes tr' = [true; true; true; true]) \/
  (exists error w' tr' scansBefore stats,
     consolidate memoryModel clock w = (Throw error, w', tr') /\
     (scansBefore < 4)%nat /\
     scanOutcomes tr' = repeat true scansBefore ++ [false] /\
     last tr' (Logged Info "" [])
     = LoggedStats Error "Memory consolidation failed" error stats /\
     statsSuccess stats = Some false /\ errors stats = [error]).
Proof. exact (consolidate_run w). Qed.

End ConsolidateScans.

(** With a store that cannot be reached, the first scan fails and ends the
    run. *)
Lemma consolidate_unreachable_store :
  exists error w' tr',
    consolidate Reference.memoryModel Reference.clock unreachable = (Throw error, w', tr') /\
    scanOutcomes tr' = [false].
Proof.
  assert (Hrun : consolidate Reference.memoryModel Reference.clock unreachable
                 = (outcomeOf (consolidate Reference.memoryModel Reference.clock) unreachable,
                    snd (fst (consolidate Reference.memoryModel Reference.clock unreachable)),
                    traceOf (consolidate Reference.memoryModel Reference.clock) unreachable)).
  { unfold outcomeOf, traceOf.
    now destruct (consolidate Reference.memoryModel Reference.clock unreachable) as [[o w] tr]. }
  assert (Hout : outcomeOf (consolidate Reference.memoryModel Reference.clock) unreachable
                 = Throw "Database connection failed") by (vm_compute; reflexivity).
  assert (Hscans : scanOutcomes
                     (traceOf (consolidate Reference.memoryModel Reference.clock) unreachable)
                   = [false]) by (vm_compute; reflexivity).
  destruct (consolidate_fails_exactly_when_a_scan_fails Reference.memoryModel
              Reference.clock unreachable)
    as [(stats & w' & tr' & E & _)|(error & w' & tr' & k & stats & E & _)].
  - rewrite Hrun, Hout in E. discriminate.
  - exists error, w', tr'. split; [exact E|].
    rewrite Hrun in E. injection E as _ _ <-. exact Hscans.
Defined.

End MemoryConsolidation.

(** ** [services/memoryTestTimeScaling.js]: class [MemoryTestTimeScaling] *)
Module MemoryTestTimeScaling.

Import Effects Scoring.
Local Open Scope float_scope.

(** The two switches of [config/env] the class reads. *)
Record Config : Type := mkConfig {
  MATTS_PARALLEL_ENABLED : bool;
  MATTS_SEQUENTIAL_ENABLED : bool
}.

(** The object a variant of the parallel fan-out resolves to. *)
Record Trajectory : Type := mkTrajectory {
  index : nat;
  result : option Result;
  succeeded : bool;
  score : float;
  memoriesUsed : list string
}.

(** [obj.push] on [undefined], and [result.success] on [null]. *)
Definition pushOnUndefined : string :=
  "Cannot read properties of undefined (reading 'push')".
Definition successOfNull : string :=
  "Cannot read properties of null (reading 'success')".
Definition indexOfUndefined : string :=
  "Cannot read properties of undefined (reading 'index')".

(** [memoryChunks[slot].push(memory)] on an existing chunk. *)
Fixpoint pushAt (slot : nat) (memory : Memory) (memoryChunks : list (list Memory))
  : list (list Memory) :=
  match memoryChunks, slot with
  | [], _ => []
  | chunk :: rest, O => (chunk ++ [memory]) :: rest
  | chunk :: rest, S slot' => chunk :: pushAt slot' memory rest
  end.

(** [memories.forEach((memory, index) =>
       memoryChunks[index % numVariants].push(memory))], from position
    [index] on.  Reading a chunk that does not exist gives [undefined], and
    the [push] on it throws. *)
Fixpoint distributeFrom (index : Z) (memories : list Memory) (numVariants : Z)
  (memoryChunks : list (list Memory)) : Outcome (list (list Memory)) :=
  match memories with
  | [] => Return memoryChunks
  | memory :: rest =>
      match JS.rem index numVariants with
      | None => Throw pushOnUndefined
      | Some slot =>
          if (slot <? 0)%Z then Throw pushOnUndefined
          else
            match nth_error memoryChunks (Z.to_nat slot) with
            | None => Throw pushOnUndefined
            | Some _ =>
                distributeFrom (index + 1) rest numVariants
                  (pushAt (Z.to_nat slot) memory memoryChunks)
            end
      end
  end.

(** [Array.from({ length: numVariants }, () => [])] followed by the
    round-robin distribution. *)
Definition distribute (memories : list Memory) (numVariants : Z)
  : Outcome (list (list Memory)) :=
  distributeFrom 0 memories numVariants (repeat [] (Z.to_nat numVariants)).

(** [current.score > best.score ? current : best] *)
Definition better (best current : Trajectory) : Trajectory :=
  if PrimFloat.ltb (score best) (score current) then current else best.

(** The selection: the [reduce] over the successful trajectories, or the
    first trajectory when none succeeded ([undefined] when there is none). *)
Definition selectBest (trajectories : list Trajectory) : option Trajectory :=
  match filter succeeded trajectories with
  | first :: others => Some (fold_left better others first)
  | [] => nth_error trajectories 0
  end.

(** What the sequential loop keeps: [bestResult] is replaced when the new
    score is strictly above [bestScore]. *)
Definition track (best : option Result * float) (result : option Result)
  : option Result * float :=
  let score := _scoreTrajectory result in
  if PrimFloat.ltb (snd best) score then (result, score) else best.

Section Scaling.
Context {W : Type} (config : Config) (memoryModel : MemoryModel W)
  (embedQuery : string -> string -> W -> Outcome (list float) * W)
  (toText : JS.value -> string) (JSON_stringify : JS.value -> string).
Local Open Scope js_scope.

(** The executor and the optional reflector the caller passes in. *)
Definition Executor : Type := Task -> list Memory -> W -> Outcome (option Result) * W.
Definition Reflector : Type :=
  Task -> option Result -> list Memory -> W -> Outcome (option Reflection) * W.

(** The query text: description or template name, then the parameters. *)
Definition queryText (task : Task) : string :=
  (toText (JS.or_else (JS.get (JS.VObj task) "description")
             (JS.or_else (JS.get (JS.VObj task) "templateName") (JS.VStr "")))
   ++ ". Parameters: "
   ++ JSON_stringify (JS.or_else (JS.get (JS.VObj task) "parameters") (JS.VObj [])))%string.

(** One variant: the executor's result wrapped with its score, or the failed
    trajectory when the executor throws or resolves to [null]. *)
Definition runTrajectory (task : Task) (executeFunction : Executor)
  (index : nat) (memorySet : list Memory) : M W Trajectory :=
  try_catch
    (result <- run task memorySet executeFunction ;;
     match result with
     | None => throw successOfNull
     | Some r =>
         ret (mkTrajectory index result (success r) (_scoreTrajectory result)
                (map id memorySet))
     end)
    (fun error =>
       log Warn "Parallel trajectory failed" [error] ;;;
       ret (mkTrajectory index None false 0 (map id memorySet))).

(** The variants are launched in index order; their effects on the
    environment are taken in that order. *)
Fixpoint runTrajectories (task : Task) (executeFunction : Executor)
  (index : nat) (memoryChunks : list (list Memory)) : M W (list Trajectory) :=
  match memoryChunks with
  | [] => ret []
  | memorySet :: rest =>
      trajectory <- runTrajectory task executeFunction index memorySet ;;
      others <- runTrajectories task executeFunction (S index) rest ;;
      ret (trajectory :: others)
  end.

(** The statistics update for the winning trajectory. *)
Definition rewardWinner (best : Trajectory) : M W unit :=
  if succeeded best && (0 <? List.length (memoriesUsed best))%nat
  then
    call (UpdateMemoryStats (memoriesUsed best) true)
      (updateMemoryStats memoryModel (memoriesUsed best) true) ;;;
    log Debug "Updated memory stats for winning trajectory" []
  else ret tt.

Definition parallelScaling (task : Task) (executeFunction : Executor)
  (numVariants : Z) : M W (option Result) :=
  if negb (MATTS_PARALLEL_ENABLED config)
  then
    log Debug "Parallel scaling disabled, using single execution" [] ;;;
    run task [] executeFunction
  else
    queryEmbedding <-
      call (EmbedQuery (queryText task) "RETRIEVAL_QUERY")
        (embedQuery (queryText task) "RETRIEVAL_QUERY") ;;
    memories <-
      call (RetrieveMemories queryEmbedding (numVariants * 3) 0.5)
        (retrieveMemories memoryModel queryEmbedding (numVariants * 3) 0.5) ;;
    match memories with
    | [] =>
        log Info "No memories available for parallel scaling, using single execution" [] ;;;
        run task [] executeFunction
    | _ :: _ =>
        match distribute memories numVariants with
        | Throw error => throw error
        | Return memoryChunks =>
            log Info "Starting parallel scaling with memory-guided variants" [] ;;;
            trajectories <- runTrajectories task executeFunction 0 memoryChunks ;;
            match selectBest trajectories with
            | None => throw indexOfUndefined
            | Some bestTrajectory =>
                log Info "Parallel scaling complete, selected best trajectory" [] ;;;
                rewardWinner bestTrajectory ;;;
                ret (result bestTrajectory)
            end
        end
    end.

(** The [for] loop of [sequentialScaling], with [remaining] iterations still
    allowed; it resolves to [bestResult] as it stands when the loop is left. *)
Fixpoint refine (remaining : nat) (executeFunction : Executor)
  (reflectFunction : option Reflector) (queryEmbedding : list float)
  (currentTask : Task) (best : option Result * float) : M W (option Result) :=
  match remaining with
  | O => ret (fst best)
  | S remaining' =>
      log Info "Sequential scaling iteration" [] ;;;
      memories <-
        call (RetrieveMemories queryEmbedding 5 0.6)
          (retrieveMemories memoryModel queryEmbedding 5 0.6) ;;
      result <- run currentTask memories executeFunction ;;
      match result with
      | None => throw successOfNull
      | Some r =>
          let score := _scoreTrajectory result in
          let best := track best result in
          if success r && PrimFloat.ltb 0.9 score
          then
            log Info "Sequential scaling achieved high score, stopping early" [] ;;;
            ret (fst best)
          else
            match reflectFunction with
            | Some reflect =>
                bind_or
                  (call (Reflect currentTask result memories)
                     (reflect currentTask result memories))
                  (fun error =>
                     log Warn "Reflection function failed, stopping refinement" [error] ;;;
                     ret (fst best))
                  (fun reflection =>
                     match reflection with
                     | Some rho =>
                         if shouldRefine rho
                         then refine remaining' executeFunction reflectFunction
                                queryEmbedding
                                (JS.spread currentTask (refinedTask rho)) best
                         else
                           log Info
                             "Sequential scaling reflection suggests no further refinement" [] ;;;
                           ret (fst best)
                     | None =>
                         log Info
                           "Sequential scaling reflection suggests no further refinement" [] ;;;
                         ret (fst best)
                     end)
            | None =>
                if success r then ret (fst best)
                else refine remaining' executeFunction reflectFunction
                       queryEmbedding currentTask best
            end
      end
  end.

Definition sequentialScaling (task : Task) (executeFunction : Executor)
  (reflectFunction : option Reflector) (maxIterations : Z) : M W (option Result) :=
  if negb (MATTS_SEQUENTIAL_ENABLED config)
  then
    log Debug "Sequential scaling disabled, using single execution" [] ;;;
    run task [] executeFunction
  else
    queryEmbedding <-
      call (EmbedQuery (queryText task) "RETRIEVAL_QUERY")
        (embedQuery (queryText task) "RETRIEVAL_QUERY") ;;
    bestResult <-
      refine (Z.to_nat maxIterations) executeFunction reflectFunction
        queryEmbedding task (None, 0) ;;
    log Info "Sequential scaling complete" [] ;;;
    ret bestResult.

End Scaling.

(** *** Selecting the first maximum *)

(** Folding "replace the best when the next is strictly greater" over a list
    ends on the first element that no other element exceeds. *)
Lemma fold_keeps_first_maximum {A : Type} (lt : A -> A -> bool) (rk : A -> Z)
  (l : list A) (init : A) :
  (forall a b, In a (init :: l) -> In b (init :: l) -> lt a b = (rk a <? rk b)%Z) ->
  exists before after,
    init :: l = before ++ fold_left (fun b x => if lt b x then x else b) l init :: after /\
    (forall x, In x before ->
               (rk x < rk (fold_left (fun b x => if lt b x then x else b) l init))%Z) /\
    (forall x, In x after ->
               (rk x <= rk (fold_left (fun b x => if lt b x then x else b) l init))%Z).
Proof.
  induction l as [|x l IH] using rev_ind; intros Hlt.
  - exists [], []. simpl. repeat split; intros y [].
  - destruct IH as (before & after & E & Hb & Ha).
    { intros a b Ia Ib. apply Hlt.
      - change (In a ((init :: l) ++ [x])). apply in_or_app. now left.
      - change (In b ((init :: l) ++ [x])). apply in_or_app. now left. }
    rewrite fold_left_app. simpl.
    set (best := fold_left (fun b x => if lt b x then x else b) l init) in *.
    assert (Ibest : In best (init :: l ++ [x])).
    { change (In best ((init :: l) ++ [x])). apply in_or_app. left.
      rewrite E. apply in_or_app. right. now left. }
    assert (Ix : In x (init :: l ++ [x])).
    { change (In x ((init :: l) ++ [x])). apply in_or_app. right. now left. }
    rewrite (Hlt best x Ibest Ix).
    destruct (rk best <? rk x)%Z eqn:C.
    + apply Z.ltb_lt in C.
      exists (init :: l), []. repeat split.
      * intros y Hy. rewrite E in Hy. apply in_app_or in Hy.
        destruct Hy as [Hy|[<-|Hy]]; [specialize (Hb y Hy)| |specialize (Ha y Hy)]; lia.
      * intros y [].
    + apply Z.ltb_ge in C.
      exists before, (after ++ [x]). repeat split.
      * change (init :: l ++ [x]) with ((init :: l) ++ [x]).
        rewrite E, <- app_assoc. reflexivity.
      * exact Hb.
      * intros y Hy. apply in_app_or in Hy.
        destruct Hy as [Hy|[<-|[]]]; [now apply Ha|exact C].
Qed.

(** A trajectory built by the fan-out carries the score and the success flag
    of its result. *)
Definition wellFormed (t : Trajectory) : Prop :=
  score t = _scoreTrajectory (result t) /\
  succeeded t = match result t with Some r => success r | None => false end.

Lemma better_is_rank_order (a b : Trajectory) :
  wellFormed a -> wellFormed b ->
  PrimFloat.ltb (score a) (score b) = (rank (result a) <? rank (result b))%Z.
Proof.
  intros [Ha _] [Hb _]. rewrite Ha, Hb. apply score_ltb_rank.
Qed.

(** The selection among the successful trajectories: the chosen one is
    successful, every successful trajectory launched before it scores strictly
    less, and no successful trajectory launched after it scores more. *)
Lemma selectBest_first_maximum (trajectories : list Trajectory) :
  Forall wellFormed trajectories ->
  (exists t, In t trajectories /\ succeeded t = true) ->
  exists best before after,
    selectBest trajectories = Some best /\
    filter succeeded trajectories = before ++ best :: after /\
    (forall t, In t before -> PrimFloat.ltb (score t) (score best) = true) /\
    (forall t, In t after -> PrimFloat.ltb (score best) (score t) = false).
Proof.
  intros Hwf (t0 & Hin & Hs).
  assert (Hne : In t0 (filter succeeded trajectories)) by (apply filter_In; auto).
  assert (Hwf' : Forall wellFormed (filter succeeded trajectories)).
  { rewrite Forall_forall in *. intros t Ht. apply Hwf.
    apply filter_In in Ht. tauto. }
  unfold selectBest.
  destruct (filter succeeded trajectories) as [|first others]; [destruct Hne|].
  destruct (fold_keeps_first_maximum
              (fun a b => PrimFloat.ltb (score a) (score b))
              (fun t => rank (result t)) others first)
    as (before & after & E & Hb & Ha).
  { rewrite Forall_forall in Hwf'. intros a b Ia Ib.
    apply better_is_rank_order; auto. }
  fold better in E, Hb, Ha.
  change (fold_left (fun b x => if PrimFloat.ltb (score b) (score x) then x else b)
            others first) with (fold_left better others first) in *.
  set (best := fold_left better others first) in *.
  assert (Ibest : In best (first :: others)).
  { rewrite E. apply in_or_app. right. now left. }
  rewrite Forall_forall in Hwf'.
  exists best, before, after. repeat split; auto.
  - intros t Ht.
    rewrite better_is_rank_order.
    + apply Z.ltb_lt. now apply Hb.
    + apply Hwf'. rewrite E. apply in_or_app. now left.
    + now apply Hwf'.
  - intros t Ht.
    rewrite better_is_rank_order.
    + apply Z.ltb_ge. now apply Ha.
    + now apply Hwf'.
    + apply Hwf'. rewrite E. apply in_or_app. right. now right.
Qed.

Lemma selectBest_none_succeeded (trajectories : list Trajectory) :
  (forall t, In t trajectories -> succeeded t = false) ->
  selectBest trajectories = nth_error trajectories 0.
Proof.
  intros Hall. unfold selectBest.
  destruct (filter succeeded trajectories) as [|first others] eqn:E; [reflexivity|].
  assert (Hin : In first (filter succeeded trajectories)) by (rewrite E; now left).
  apply filter_In in Hin. destruct Hin as [Hin Hs].
  rewrite (Hall first Hin) in Hs. discriminate.
Qed.

(** *** The round-robin distribution *)

Lemma pushAt_length (slot : nat) (memory : Memory) (memoryChunks : list (list Memory)) :
  List.length (pushAt slot memory memoryChunks) = List.length memoryChunks.
Proof.
  revert slot. induction memoryChunks as [|chunk rest IH]; intros [|slot]; simpl;
    auto.
Qed.

Lemma distributeFrom_returns (memories : list Memory) (numVariants : Z) :
  (0 < numVariants)%Z ->
  forall (index : Z) (memoryChunks : list (list Memory)),
    (0 <= index)%Z -> List.length memoryChunks = Z.to_nat numVariants ->
    exists filled,
      distributeFrom index memories numVariants memoryChunks = Return filled /\
      List.length filled = Z.to_nat numVariants.
Proof.
  intros Hpos. induction memories as [|memory rest IH]; intros index memoryChunks Hi Hlen.
  - exists memoryChunks. auto.
  - simpl. unfold JS.rem.
    destruct (numVariants =? 0)%Z eqn:E0; [apply Z.eqb_eq in E0; lia|].
    pose proof (Z.rem_bound_pos index numVariants Hi Hpos) as [Hlo Hhi].
    destruct (Z.rem index numVariants <? 0)%Z eqn:Eneg; [apply Z.ltb_lt in Eneg; lia|].
    destruct (nth_error memoryChunks (Z.to_nat (Z.rem index numVariants))) as [chunk|] eqn:En.
    + apply IH; [lia|]. now rewrite pushAt_length.
    + apply nth_error_None in En. lia.
Qed.

Lemma distribute_returns (memories : list Memory) (numVariants : Z) :
  (0 < numVariants)%Z ->
  exists memoryChunks,
    distribute memories numVariants = Return memoryChunks /\
    List.length memoryChunks = Z.to_nat numVariants.
Proof.
  intros Hpos. unfold distribute.
  apply distributeFrom_returns; [exact Hpos|lia|apply repeat_length].
Qed.

(** With no variant to fill, the first memory is pushed on [undefined]. *)
Lemma distribute_throws (memory : Memory) (rest : list Memory) (numVariants : Z) :
  (numVariants <= 0)%Z ->
  distribute (memory :: rest) numVariants = Throw pushOnUndefined.
Proof.
  intros Hn. unfold distribute. simpl. unfold JS.rem.
  destruct (numVariants =? 0)%Z; [reflexivity|].
  change (Z.rem 0 numVariants) with 0%Z. simpl.
  replace (Z.to_nat numVariants) with 0%nat by lia. reflexivity.
Qed.

(** *** Tracking the best result *)

(** [bestScore] is always the score of [bestResult], so the tracking is a fold
    on the results alone. *)
Definition keepBetter (best result : option Result) : option Result :=
  if PrimFloat.ltb (_scoreTrajectory best) (_scoreTrajectory result) then result else best.

Lemma track_keeps_better (results : list (option Result)) : forall (best : option Result),
  fold_left track results (best, _scoreTrajectory best)
  = (fold_left keepBetter results best,
     _scoreTrajectory (fold_left keepBetter results best)).
Proof.
  induction results as [|result rest IH]; intros best; simpl; [reflexivity|].
  unfold track at 2, keepBetter at 2 4. simpl.
  destruct (PrimFloat.ltb (_scoreTrajectory best) (_scoreTrajectory result)); apply IH.
Qed.

(** What tracking from [(null, 0)] leaves: nothing observed scores more; and
    either it is [null] and nothing observed scores above 0, or it is the
    first observed result to reach its score, which is above 0. *)
Lemma tracked_is_first_best (results : list (option Result)) :
  let v := fst (fold_left track results (None, 0)) in
  (forall r, In r results ->
             PrimFloat.ltb (_scoreTrajectory v) (_scoreTrajectory r) = false) /\
  ((v = None /\
    forall r, In r results -> PrimFloat.ltb 0 (_scoreTrajectory r) = false) \/
   (exists before after,
      results = before ++ v :: after /\
      (forall r, In r before ->
                 PrimFloat.ltb (_scoreTrajectory r) (_scoreTrajectory v) = true) /\
      PrimFloat.ltb 0 (_scoreTrajectory v) = true)).
Proof.
  change (None, 0) with (@None Result, _scoreTrajectory None).
  rewrite track_keeps_better. simpl.
  destruct (fold_keeps_first_maximum
              (fun a b => PrimFloat.ltb (_scoreTrajectory a) (_scoreTrajectory b))
              rank results None)
    as (before & after & E & Hb & Ha).
  { intros a b _ _. apply score_ltb_rank. }
  fold keepBetter in E, Hb, Ha.
  change (fold_left
            (fun b x => if PrimFloat.ltb (_scoreTrajectory b) (_scoreTrajectory x)
                        then x else b) results None)
    with (fold_left keepBetter results None) in *.
  set (v := fold_left keepBetter results None) in *.
  assert (Hmax : forall r, In r (None :: results) -> (rank r <= rank v)%Z).
  { intros r Hr. rewrite E in Hr. apply in_app_or in Hr.
    destruct Hr as [Hr|[<-|Hr]]; [specialize (Hb r Hr)| |specialize (Ha r Hr)]; lia. }
  split.
  - intros r Hr. rewrite score_ltb_rank. apply Z.ltb_ge.
    apply Hmax. now right.
  - destruct before as [|first before'].
    + left. simpl in E. injection E as Ev Ea. split; [now symmetry|].
      intros r Hr. change 0 with (_scoreTrajectory None).
      rewrite score_ltb_rank. apply Z.ltb_ge.
      rewrite Ev. apply Hmax. now right.
    + right. simpl in E. injection E as Ef Er. subst first.
      exists before', after. repeat split; [exact Er| |].
      * intros r Hr. rewrite score_ltb_rank. apply Z.ltb_lt.
        apply Hb. now right.
      * change 0 with (_scoreTrajectory None).
        rewrite score_ltb_rank. apply Z.ltb_lt. apply Hb. now left.
Qed.

Section ScalingProofs.
Context {W : Type} (config : Config) (memoryModel : MemoryModel W)
  (embedQuery : string -> string -> W -> Outcome (list float) * W)
  (toText : JS.value -> string) (JSON_stringify : JS.value -> string).

Lemma runTrajectory_run (task : Task) (executeFunction : @Executor W)
  (index : nat) (memorySet : list Memory) (w : W) :
  exists w' tr' t,
    runTrajectory task executeFunction index memorySet w = (Return t, w', tr') /\
    MemoryTestTimeScaling.index t = index /\ wellFormed t /\
    memoriesUsed t = map id memorySet /\
    executeCalls tr' = [(task, memorySet)].
Proof.
  unfold runTrajectory, try_catch, bind_or, bind, run, log, emit, ret, throw.
  destruct (executeFunction task memorySet w) as [[[r|]|e] w1];
    eexists; eexists; eexists; (split; [reflexivity|]); simpl;
    repeat split; reflexivity.
Qed.

Lemma runTrajectories_run (task : Task) (executeFunction : @Executor W)
  (memoryChunks : list (list Memory)) : forall (index : nat) (w : W),
  exists w' tr' trajectories,
    runTrajectories task executeFunction index memoryChunks w
      = (Return trajectories, w', tr') /\
    map MemoryTestTimeScaling.index trajectories = seq index (List.length memoryChunks) /\
    Forall wellFormed trajectories /\
    map memoriesUsed trajectories = map (map id) memoryChunks /\
    executeCalls tr' = map (fun memorySet => (task, memorySet)) memoryChunks.
Proof.
  induction memoryChunks as [|memorySet rest IH]; intros index w; simpl.
  - exists w, [], []. repeat split; auto.
  - unfold bind.
    destruct (runTrajectory_run task executeFunction index memorySet w)
      as (w1 & tr1 & t & E1 & I1 & F1 & U1 & C1).
    destruct (IH (S index) w1) as (w2 & tr2 & ts & E2 & I2 & F2 & U2 & C2).
    rewrite E1, E2. unfold ret.
    eexists; eexists; eexists; split; [reflexivity|].
    unfold executeCalls in *. simpl.
    rewrite I1, I2, U1, U2, !flat_map_app, C1, C2. simpl.
    repeat split; auto. now rewrite app_nil_r.
Qed.

(** *** [parallelScaling]: the fallbacks *)

(** With the switch off the call is one call of the executor without
    memories, and ends as that call ends. *)
Lemma parallelScaling_disabled (task : Task) (executeFunction : @Executor W)
  (numVariants : Z) (w w1 : W) (answer : Outcome (option Result)) :
  MATTS_PARALLEL_ENABLED config = false ->
  executeFunction task [] w = (answer, w1) ->
  parallelScaling config memoryModel embedQuery toText JSON_stringify
    task executeFunction numVariants w
  = (answer, w1,
     [Logged Debug "Parallel scaling disabled, using single execution" [];
      Executed task [] answer]).
Proof.
  intros Hoff Hexec. unfold parallelScaling. rewrite Hoff. simpl.
  unfold bind, log, emit, run. rewrite Hexec. destruct answer; reflexivity.
Qed.

(** With no memory retrieved the call is one call of the executor without
    memories, and ends as that call ends. *)
Lemma parallelScaling_no_memories (task : Task) (executeFunction : @Executor W)
  (numVariants : Z) (w w1 w2 w3 : W) (queryEmbedding : list float)
  (answer : Outcome (option Result)) :
  MATTS_PARALLEL_ENABLED config = true ->
  embedQuery (queryText toText JSON_stringify task) "RETRIEVAL_QUERY" w
    = (Return queryEmbedding, w1) ->
  retrieveMemories memoryModel queryEmbedding (numVariants * 3) 0.5 w1 = (Return [], w2) ->
  executeFunction task [] w2 = (answer, w3) ->
  parallelScaling config memoryModel embedQuery toText JSON_stringify
    task executeFunction numVariants w
  = (answer, w3,
     [Called (EmbedQuery (queryText toText JSON_stringify task) "RETRIEVAL_QUERY") true;
      Called (RetrieveMemories queryEmbedding (numVariants * 3) 0.5) true;
      Logged Info "No memories available for parallel scaling, using single execution" [];
      Executed task [] answer]).
Proof.
  intros Hon Hembed Hretrieve Hexec. unfold parallelScaling. rewrite Hon. simpl.
  unfold bind at 1. unfold call at 1. rewrite Hembed.
  unfold bind at 1. unfold call at 1. rewrite Hretrieve.
  unfold bind, log, emit, run. rewrite Hexec. destruct answer; reflexivity.
Qed.

(** With memories retrieved and no variant asked for, the distribution throws
    before any executor call. *)
Lemma parallelScaling_no_variant (task : Task) (executeFunction : @Executor W)
  (numVariants : Z) (w w1 w2 : W) (queryEmbedding : list float)
  (memory : Memory) (rest : list Memory) :
  MATTS_PARALLEL_ENABLED config = true ->
  embedQuery (queryText toText JSON_stringify task) "RETRIEVAL_QUERY" w
    = (Return queryEmbedding, w1) ->
  retrieveMemories memoryModel queryEmbedding (numVariants * 3) 0.5 w1
    = (Return (memory :: rest), w2) ->
  (numVariants <= 0)%Z ->
  parallelScaling config memoryModel embedQuery toText JSON_stringify
    task executeFunction numVariants w
  = (Throw pushOnUndefined, w2,
     [Called (EmbedQuery (queryText toText JSON_stringify task) "RETRIEVAL_QUERY") true;
      Called (RetrieveMemories queryEmbedding (numVariants * 3) 0.5) true]).
Proof.
  intros Hon Hembed Hretrieve Hn. unfold parallelScaling. rewrite Hon. simpl.
  unfold bind at 1. unfold call at 1. rewrite Hembed.
  unfold bind at 1. unfold call at 1. rewrite Hretrieve.
  rewrite (distribute_throws memory rest numVariants Hn). reflexivity.
Qed.

(** *** [parallelScaling]: the selection *)

(** C1: with the switch on, a query embedding, memories retrieved and
    [N >= 1] variants, the fan-out runs the [N] variants, numbered in launch
    order.  If a trajectory succeeded, the selected one is successful, every
    successful trajectory with a lower index scores strictly less, and no
    successful trajectory scores more.  If none succeeded, the first variant
    is selected.  Whenever the call returns, it returns the raw executor
    result of the selected trajectory, and it does return unless the
    statistics update of the winner throws. *)
Theorem parallelScaling_returns_best_successful_result
  (task : Task) (executeFunction : @Executor W) (numVariants : Z)
  (w w1 w2 : W) (queryEmbedding : list float) (memories : list Memory) :
  MATTS_PARALLEL_ENABLED config = true ->
  embedQuery (queryText toText JSON_stringify task) "RETRIEVAL_QUERY" w
    = (Return queryEmbedding, w1) ->
  retrieveMemories memoryModel queryEmbedding (numVariants * 3) 0.5 w1
    = (Return memories, w2) ->
  memories <> [] ->
  (0 < numVariants)%Z ->
  exists memoryChunks trajectories w3 tr3 best,
    distribute memories numVariants = Return memoryChunks /\
    runTrajectories task executeFunction 0 memoryChunks w2
      = (Return trajectories, w3, tr3) /\
    map index trajectories = seq 0 (Z.to_nat numVariants) /\
    selectBest trajectories = Some best /\
    ((exists t, In t trajectories /\ succeeded t = true) ->
     exists before after,
       filter succeeded trajectories = before ++ best :: after /\
       (forall t, In t before -> PrimFloat.ltb (score t) (score best) = true) /\
       (forall t, In t after -> PrimFloat.ltb (score best) (score t) = false)) /\
    ((forall t, In t trajectories -> succeeded t = false) ->
     nth_error trajectories 0 = Some best) /\
    (forall v w' tr',
       parallelScaling config memoryModel embedQuery toText JSON_stringify
         task executeFunction numVariants w = (Return v, w', tr') ->
       v = result best) /\
    ((succeeded best = false \/ memoriesUsed best = [] \/
      exists w4, updateMemoryStats memoryModel (memoriesUsed best) true w3
                 = (Return tt, w4)) ->
     exists w' tr',
       parallelScaling config memoryModel embedQuery toText JSON_stringify
         task executeFunction numVariants w = (Return (result best), w', tr')).
Proof.
  intros Hon Hembed Hretrieve Hne Hpos.
  destruct (distribute_returns memories numVariants Hpos) as (memoryChunks & Hd & Hlen).
  destruct (runTrajectories_run task executeFunction memoryChunks 0 w2)
    as (w3 & tr3 & trajectories & Hrun & Hidx & Hwf & _ & _).
  rewrite Hlen in Hidx.
  assert (Hsome : exists best, selectBest trajectories = Some best).
  { destruct (filter succeeded trajectories) as [|first others] eqn:Ef.
    - unfold selectBest. rewrite Ef.
      destruct trajectories as [|t ts]; [|now exists t].
      simpl in Hidx. destruct (Z.to_nat numVariants) eqn:En; [lia|discriminate].
    - unfold selectBest. rewrite Ef. eauto. }
  destruct Hsome as (best & Hbest).
  exists memoryChunks, trajectories, w3, tr3, best.
  assert (Hcall : parallelScaling config memoryModel embedQuery toText JSON_stringify
                    task executeFunction numVariants w
                  = match rewardWinner memoryModel best w3 with
                    | (Return _, w4, tr4) =>
                        (Return (result best), w4,
                         [Called (EmbedQuery (queryText toText JSON_stringify task)
                                    "RETRIEVAL_QUERY") true]
                         ++ [Called (RetrieveMemories queryEmbedding (numVariants * 3) 0.5) true]
                         ++ [Logged Info
                               "Starting parallel scaling with memory-guided variants" []]
                         ++ tr3
                         ++ [Logged Info
                               "Parallel scaling complete, selected best trajectory" []]
                         ++ tr4 ++ [])
                    | (Throw e, w4, tr4) =>
                        (Throw e, w4,
                         [Called (EmbedQuery (queryText toText JSON_stringify task)
                                    "RETRIEVAL_QUERY") true]
                         ++ [Called (RetrieveMemories queryEmbedding (numVariants * 3) 0.5) true]
                         ++ [Logged Info
                               "Starting parallel scaling with memory-guided variants" []]
                         ++ tr3
                         ++ [Logged Info
                               "Parallel scaling complete, selected best trajectory" []]
                         ++ tr4)
                    end).
  { unfold parallelScaling. rewrite Hon. simpl.
    unfold bind at 1. unfold call at 1. rewrite Hembed.
    unfold bind at 1. unfold call at 1. rewrite Hretrieve.
    destruct memories as [|memory rest]; [congruence|].
    rewrite Hd.
    unfold bind at 1. unfold log at 1, emit at 1.
    unfold bind at 1. rewrite Hrun. rewrite Hbest.
    unfold bind at 1. unfold log at 1, emit at 1.
    unfold bind at 1.
    destruct (rewardWinner memoryModel best w3) as [[[[]|e] w4] tr4]; reflexivity. }
  repeat match goal with |- _ /\ _ => split end; auto.
  - intros Hex.
    destruct (selectBest_first_maximum trajectories Hwf Hex)
      as (best' & before & after & Hb' & Ef & Hlt & Hge).
    rewrite Hbest in Hb'. injection Hb' as <-.
    exists before, after. auto.
  - intros Hall. rewrite <- Hbest. symmetry.
    now apply selectBest_none_succeeded.
  - intros v w' tr' Hret. rewrite Hcall in Hret.
    destruct (rewardWinner memoryModel best w3) as [[[[]|e] w4] tr4];
      [|discriminate].
    now injection Hret as <- _ _.
  - intros Hreward. rewrite Hcall.
    assert (Hr : exists w4 tr4, rewardWinner memoryModel best w3 = (Return tt, w4, tr4)).
    { unfold rewardWinner.
      destruct Hreward as [Hs|[Hm|(w4 & Hu)]].
      - rewrite Hs. simpl. unfold ret. eauto.
      - rewrite Hm. simpl. rewrite andb_false_r. unfold ret. eauto.
      - destruct (succeeded best && (0 <? List.length (memoriesUsed best))%nat);
          [|unfold ret; eauto].
        unfold bind, call, log, emit. rewrite Hu. eauto. }
    destruct Hr as (w4 & tr4 & ->). eauto.
Qed.

(** *** [sequentialScaling] *)

(** The loop makes at most [remaining] executor calls, and what it resolves
    to is what tracking the observed results from [best] on leaves. *)
Lemma refine_run (executeFunction : @Executor W) (reflectFunction : option (@Reflector W))
  (queryEmbedding : list float) (remaining : nat) :
  forall (currentTask : Task) (best : option Result * float) (w : W),
  exists out w' tr',
    refine memoryModel remaining executeFunction reflectFunction queryEmbedding
      currentTask best w = (out, w', tr') /\
    (List.length (executeCalls tr') <= remaining)%nat /\
    forall v, out = Return v -> v = fst (fold_left track (observedResults tr') best).
Proof.
  induction remaining as [|remaining IH]; intros currentTask best w.
  - exists (Return (fst best)), w, []. repeat split; auto.
    intros v Hv. now injection Hv as <-.
  - cbn [refine]. unfold bind at 1. unfold log at 1, emit at 1.
    unfold bind at 1. unfold call at 1.
    destruct (retrieveMemories memoryModel queryEmbedding 5 0.6 w)
      as [[memories|e] w1].
    2:{ eexists; eexists; eexists; split; [reflexivity|]. split; [simpl; lia|].
        intros v Hv. discriminate. }
    unfold bind at 1. unfold run at 1.
    destruct (executeFunction currentTask memories w1) as [[[r|]|e] w2].
    2:{ eexists; eexists; eexists; split; [reflexivity|]. split; [simpl; lia|].
        intros v Hv. discriminate. }
    2:{ eexists; eexists; eexists; split; [reflexivity|]. split; [simpl; lia|].
        intros v Hv. discriminate. }
    destruct (success r && PrimFloat.ltb 0.9 (_scoreTrajectory (Some r))).
    { unfold bind, log, emit, ret.
      eexists; eexists; eexists; split; [reflexivity|]. split; [simpl; lia|].
      intros v Hv. now injection Hv as <-. }
    destruct reflectFunction as [reflect|].
    + unfold bind_or. unfold call at 1.
      destruct (reflect currentTask (Some r) memories w2) as [[[rho|]|e] w3].
      * destruct (shouldRefine rho).
        -- destruct (IH (JS.spread currentTask (refinedTask rho))
                       (track best (Some r)) w3)
             as (out & w' & tr' & E & C & V).
           rewrite E. eexists; eexists; eexists; split; [reflexivity|]. split.
           ++ unfold executeCalls in *. rewrite !flat_map_app, !length_app.
              simpl. lia.
           ++ intros v Hv. unfold observedResults in *.
              rewrite !flat_map_app. simpl. now apply V.
        -- unfold bind, log, emit, ret.
           eexists; eexists; eexists; split; [reflexivity|]. split; [simpl; lia|].
           intros v Hv. now injection Hv as <-.
      * unfold bind, log, emit, ret.
        eexists; eexists; eexists; split; [reflexivity|]. split; [simpl; lia|].
        intros v Hv. now injection Hv as <-.
      * unfold bind, log, emit, ret.
        eexists; eexists; eexists; split; [reflexivity|]. split; [simpl; lia|].
        intros v Hv. now injection Hv as <-.
    + destruct (success r).
      * unfold ret.
        eexists; eexists; eexists; split; [reflexivity|]. split; [simpl; lia|].
        intros v Hv. now injection Hv as <-.
      * destruct (IH currentTask (track best (Some r)) w2)
          as (out & w' & tr' & E & C & V).
        rewrite E. eexists; eexists; eexists; split; [reflexivity|]. split.
        -- unfold executeCalls in *. rewrite !flat_map_app, !length_app.
           simpl. lia.
        -- intros v Hv. unfold observedResults in *.
           rewrite !flat_map_app. simpl. now apply V.
Qed.

(** C2, as far as the code goes: with the switch on, [sequentialScaling]
    calls the executor at most [maxIterations] times; when it returns, no
    observed result scores more than the returned value, which is either
    [null], nothing observed scoring above 0, or the first observed result to
    reach its score (so not necessarily the last one). *)
Theorem sequentialScaling_caps_calls_and_returns_first_best
  (task : Task) (executeFunction : @Executor W) (reflectFunction : option (@Reflector W))
  (maxIterations : Z) (w : W) :
  MATTS_SEQUENTIAL_ENABLED config = true ->
  exists out w' tr',
    sequentialScaling config memoryModel embedQuery toText JSON_stringify
      task executeFunction reflectFunction maxIterations w = (out, w', tr') /\
    (List.length (executeCalls tr') <= Z.to_nat maxIterations)%nat /\
    forall v, out = Return v ->
      (forall r, In r (observedResults tr') ->
                 PrimFloat.ltb (_scoreTrajectory v) (_scoreTrajectory r) = false) /\
      ((v = None /\
        forall r, In r (observedResults tr') ->
                  PrimFloat.ltb 0 (_scoreTrajectory r) = false) \/
       (exists before after,
          observedResults tr' = before ++ v :: after /\
          (forall r, In r before ->
                     PrimFloat.ltb (_scoreTrajectory r) (_scoreTrajectory v) = true) /\
          PrimFloat.ltb 0 (_scoreTrajectory v) = true)).
Proof.
  intros Hon. unfold sequentialScaling. rewrite Hon. simpl.
  unfold bind at 1. unfold call at 1.
  destruct (embedQuery (queryText toText JSON_stringify task) "RETRIEVAL_QUERY" w)
    as [[queryEmbedding|e] w1].
  2:{ eexists; eexists; eexists; split; [reflexivity|]. split; [simpl; lia|].
      intros v Hv. discriminate. }
  destruct (refine_run executeFunction reflectFunction queryEmbedding
              (Z.to_nat maxIterations) task (None, 0) w1)
    as (out & w' & tr' & E & C & V).
  unfold bind at 1. rewrite E.
  destruct out as [bestResult|e].
  - unfold bind, log, emit, ret.
    eexists; eexists; eexists; split; [reflexivity|].
    assert (Ecalls : forall A (f : Event -> list A),
              f (Called (EmbedQuery (queryText toText JSON_stringify task)
                           "RETRIEVAL_QUERY") true) = [] ->
              f (Logged Info "Sequential scaling complete" []) = [] ->
              flat_map f
                ([Called (EmbedQuery (queryText toText JSON_stringify task)
                            "RETRIEVAL_QUERY") true]
                 ++ tr' ++ [Logged Info "Sequential scaling complete" []] ++ [])
              = flat_map f tr').
    { intros A f H1 H2. rewrite !flat_map_app. simpl.
      now rewrite H1, H2, !app_nil_r. }
    unfold executeCalls, observedResults in *.
    rewrite !Ecalls by reflexivity.
    split; [exact C|].
    intros v Hv. injection Hv as <-.
    rewrite (V bestResult eq_refl).
    apply tracked_is_first_best.
  - eexists; eexists; eexists; split; [reflexivity|].
    unfold executeCalls in *. rewrite !flat_map_app. simpl.
    split; [exact C|]. intros v Hv. discriminate.
Qed.

End ScalingProofs.

(** *** Scenario S4 and the missing guard on the variant count *)

Definition enabled : Config := mkConfig true true.

Definition slowSuccess : Result :=
  mkResult true None (Some 6000) None None "trajectory-0.5".
Definition richSuccess : Result :=
  mkResult true (Some 5) (Some 3000) (Some ["a"; "b"; "c"; "d"; "e"; "f"]) None
    "trajectory-0.9".
Definition quickSuccess : Result :=
  mkResult true None (Some 3000) None None "trajectory-0.6".
Definition failure : Result :=
  mkResult false None None None None "failed".

Definition threeMemories : list Memory :=
  [ Reference.record "mem-1" [] 0 None 0;
    Reference.record "mem-2" [] 0 None 0;
    Reference.record "mem-3" [] 0 None 0 ].

(** An environment that retrieves [memories] and whose executor answers from
    [answers]. *)
Definition scene (memories : list Memory) (answers : list (Outcome (option Result)))
  : Reference.World :=
  Reference.mkWorld [] [] false [] memories false 0 answers.

Definition scenarioS4 : Reference.World :=
  scene threeMemories
    [Return (Some slowSuccess); Return (Some richSuccess); Return (Some quickSuccess)].

Lemma parallelScaling_scenarioS4 :
  exists w' tr',
    parallelScaling enabled Reference.memoryModel Reference.embedQuery
      Reference.toText Reference.stringify Reference.task Reference.scripted 3 scenarioS4
    = (Return (Some richSuccess), w', tr').
Proof.
  destruct (parallelScaling_returns_best_successful_result enabled
              Reference.memoryModel Reference.embedQuery Reference.toText
              Reference.stringify Reference.task Reference.scripted 3
              scenarioS4 scenarioS4 scenarioS4 [1; 0; 0] threeMemories
              eq_refl eq_refl eq_refl)
    as (memoryChunks & trajectories & w3 & tr3 & best
        & Hd & Hrun & _ & Hbest & _ & _ & _ & Hret).
  - discriminate.
  - reflexivity.
  - vm_compute in Hd. injection Hd as <-.
    vm_compute in Hrun. injection Hrun as <- <- <-.
    vm_compute in Hbest. injection Hbest as <-.
    apply Hret. right. right. eexists. reflexivity.
Defined.

(** C8 (code defect): the variant count is not checked.  With the switch on
    and one memory retrieved, a call with 0 variants (or with -1) throws a
    [TypeError] from the distribution and never calls the executor, where the
    specification asks for the single call [execute(task, [])]. *)
Theorem parallelScaling_nonpositive_variants_throw :
  outcomeOf
    (parallelScaling enabled Reference.memoryModel Reference.embedQuery
       Reference.toText Reference.stringify Reference.task Reference.scripted 0)
    (scene [Reference.record "mem-1" [] 0 None 0] [Return (Some slowSuccess)])
  = Throw pushOnUndefined /\
  executeCalls
    (traceOf
       (parallelScaling enabled Reference.memoryModel Reference.embedQuery
          Reference.toText Reference.stringify Reference.task Reference.scripted 0)
       (scene [Reference.record "mem-1" [] 0 None 0] [Return (Some slowSuccess)]))
  = [] /\
  outcomeOf
    (parallelScaling enabled Reference.memoryModel Reference.embedQuery
       Reference.toText Reference.stringify Reference.task Reference.scripted (-1))
    (scene [Reference.record "mem-1" [] 0 None 0] [Return (Some slowSuccess)])
  = Throw pushOnUndefined.
Proof.
  repeat match goal with |- _ /\ _ => split end; vm_compute; reflexivity.
Qed.

(** *** Scenario S5, and a run in which every iteration fails *)

Definition firstIteration : Result :=
  mkResult true None (Some 6000) None None "iteration-1".
Definition secondIteration : Result :=
  mkResult true (Some 5) (Some 3000) None None "iteration-2".
Definition thirdIteration : Result :=
  mkResult true None (Some 3000) None None "iteration-3".

Definition scenarioS5 : Reference.World :=
  scene []
    [Return (Some firstIteration); Return (Some secondIteration);
     Return (Some thirdIteration)].

Lemma sequentialScaling_scenarioS5 :
  exists w' tr',
    sequentialScaling enabled Reference.memoryModel Reference.embedQuery
      Reference.toText Reference.stringify Reference.task Reference.scripted
      (Some Reference.alwaysRefine) 3 scenarioS5
    = (Return (Some secondIteration), w', tr') /\
    List.length (executeCalls tr') = 3%nat.
Proof.
  destruct (sequentialScaling_caps_calls_and_returns_first_best enabled
              Reference.memoryModel Reference.embedQuery Reference.toText
              Reference.stringify Reference.task Reference.scripted
              (Some Reference.alwaysRefine) 3 scenarioS5 eq_refl)
    as (out & w' & tr' & E & _ & _).
  vm_compute in E. injection E as <- <- <-.
  eexists; eexists; split; reflexivity.
Defined.

(** C2 fails as stated: when the only iteration fails, the executor's result
    has been observed, yet the call returns [null], which is not a result of
    any iteration. *)
Lemma sequentialScaling_returns_null_when_all_fail :
  outcomeOf
    (sequentialScaling enabled Reference.memoryModel Reference.embedQuery
       Reference.toText Reference.stringify Reference.task Reference.scripted None 1)
    (scene [] [Return (Some failure)])
  = Return None /\
  observedResults
    (traceOf
       (sequentialScaling enabled Reference.memoryModel Reference.embedQuery
          Reference.toText Reference.stringify Reference.task Reference.scripted None 1)
       (scene [] [Return (Some failure)]))
  = [Some failure].
Proof. split; vm_compute; reflexivity. Qed.

(** *** The round-robin distribution: what each variant receives *)

(** The memories at the positions congruent to [slot] modulo [numVariants],
    in order; [position] is the position of the head of [memories]. *)
Fixpoint everyNth (position : nat) (memories : list Memory) (numVariants slot : nat)
  : list Memory :=
  match memories with
  | [] => []
  | memory :: rest =>
      if (position mod numVariants =? slot)%nat
      then memory :: everyNth (S position) rest numVariants slot
      else everyNth (S position) rest numVariants slot
  end.

Lemma nth_pushAt (memory : Memory) (memoryChunks : list (list Memory)) :
  forall slot s, (slot < List.length memoryChunks)%nat ->
    nth s (pushAt slot memory memoryChunks) []
    = if (slot =? s)%nat then nth s memoryChunks [] ++ [memory]
      else nth s memoryChunks [].
Proof.
  induction memoryChunks as [|chunk rest IH]; intros [|slot] [|s] H; simpl in *;
    try lia; auto.
  apply IH. lia.
Qed.

Lemma concat_pushAt (memory : Memory) (memoryChunks : list (list Memory)) :
  forall slot, (slot < List.length memoryChunks)%nat ->
    Permutation (List.concat (pushAt slot memory memoryChunks))
      (memory :: List.concat memoryChunks).
Proof.
  induction memoryChunks as [|chunk rest IH]; intros [|slot] H; simpl in *; try lia.
  - rewrite <- app_assoc. simpl. symmetry. apply Permutation_middle.
  - etransitivity; [apply Permutation_app_head, IH; lia|].
    symmetry. apply Permutation_middle.
Qed.

Lemma distributeFrom_round_robin (numVariants : Z) (memories : list Memory) :
  (0 < numVariants)%Z ->
  forall (position : nat) (memoryChunks : list (list Memory)),
    List.length memoryChunks = Z.to_nat numVariants ->
    exists filled,
      distributeFrom (Z.of_nat position) memories numVariants memoryChunks
        = Return filled /\
      List.length filled = Z.to_nat numVariants /\
      (forall slot, (slot < Z.to_nat numVariants)%nat ->
         nth slot filled []
         = nth slot memoryChunks []
           ++ everyNth position memories (Z.to_nat numVariants) slot) /\
      Permutation (List.concat filled) (List.concat memoryChunks ++ memories).
Proof.
  intros Hpos.
  induction memories as [|memory rest IH]; intros position memoryChunks Hlen.
  - exists memoryChunks. simpl. repeat split; auto.
    + intros slot _. now rewrite app_nil_r.
    + now rewrite app_nil_r.
  - cbn [distributeFrom everyNth]. unfold JS.rem.
    destruct (numVariants =? 0)%Z eqn:E0; [apply Z.eqb_eq in E0; lia|].
    assert (Hslot : Z.rem (Z.of_nat position) numVariants
                    = Z.of_nat (position mod Z.to_nat numVariants)).
    { rewrite Z.rem_mod_nonneg by lia.
      rewrite Nat2Z.inj_mod, Z2Nat.id by lia. reflexivity. }
    rewrite Hslot.
    destruct (Z.of_nat (position mod Z.to_nat numVariants) <? 0)%Z eqn:Eneg;
      [apply Z.ltb_lt in Eneg; lia|].
    rewrite Nat2Z.id.
    assert (Hlt : (position mod Z.to_nat numVariants < Z.to_nat numVariants)%nat)
      by (apply Nat.mod_upper_bound; lia).
    destruct (nth_error memoryChunks (position mod Z.to_nat numVariants)) eqn:En.
    2:{ apply nth_error_None in En. lia. }
    replace (Z.of_nat position + 1)%Z with (Z.of_nat (S position)) by lia.
    destruct (IH (S position)
                (pushAt (position mod Z.to_nat numVariants) memory memoryChunks))
      as (filled & E & L & H & P).
    { now rewrite pushAt_length. }
    exists filled. split; [exact E|]. split; [exact L|]. split.
    + intros slot Hs. rewrite (H slot Hs), nth_pushAt by lia.
      destruct (position mod Z.to_nat numVariants =? slot)%nat;
        [now rewrite <- app_assoc|reflexivity].
    + etransitivity; [exact P|].
      etransitivity;
        [apply Permutation_app_tail, concat_pushAt; lia|].
      simpl. apply Permutation_middle.
Qed.

Lemma concat_repeat_nil {A : Type} (n : nat) : List.concat (repeat (@nil A) n) = [].
Proof. induction n; simpl; auto. Qed.

Lemma nth_repeat_nil {A : Type} (n slot : nat) : nth slot (repeat (@nil A) n) [] = [].
Proof. revert slot. induction n; intros [|slot]; simpl; auto. Qed.

(** For [N >= 1] variants the distribution returns [N] chunks; chunk [i]
    holds, in retrieval order, the memories at the positions congruent to [i]
    modulo [N]; taken together the chunks hold every retrieved memory exactly
    once. *)
Theorem distribute_is_round_robin (memories : list Memory) (numVariants : Z) :
  (0 < numVariants)%Z ->
  exists memoryChunks,
    distribute memories numVariants = Return memoryChunks /\
    List.length memoryChunks = Z.to_nat numVariants /\
    (forall slot, (slot < Z.to_nat numVariants)%nat ->
       nth slot memoryChunks [] = everyNth 0 memories (Z.to_nat numVariants) slot) /\
    Permutation (List.concat memoryChunks) memories.
Proof.
  intros Hpos. unfold distribute.
  destruct (distributeFrom_round_robin numVariants memories Hpos 0
              (repeat [] (Z.to_nat numVariants)) (repeat_length _ _))
    as (filled & E & L & H & P).
  exists filled. split; [exact E|]. split; [exact L|]. split.
  - intros slot Hs. rewrite (H slot Hs). now rewrite nth_repeat_nil.
  - now rewrite concat_repeat_nil in P.
Qed.

Lemma distribute_threeMemories_to_two_variants :
  exists memoryChunks,
    distribute threeMemories 2 = Return memoryChunks /\
    map (map id) [nth 0 memoryChunks []; nth 1 memoryChunks []]
    = [["mem-1"; "mem-3"]; ["mem-2"]].
Proof.
  destruct (distribute_is_round_robin threeMemories 2 eq_refl)
    as (memoryChunks & E & _ & H & _).
  exists memoryChunks. split; [exact E|].
  rewrite (H 0%nat), (H 1%nat) by (simpl; lia). reflexivity.
Defined.

(** *** [parallelScaling]: executor calls and the statistics update *)

(** The statistics updates asked of the repository. *)
Definition statsUpdates (tr : Trace) : list (list string * bool) :=
  flat_map (fun e => match e with
                     | Called (UpdateMemoryStats ids succeeded) _ => [(ids, succeeded)]
                     | _ => [] end) tr.

Definition failedStatsUpdates (tr : Trace) : list (list string) :=
  flat_map (fun e => match e with
                     | Called (UpdateMemoryStats ids _) false => [ids]
                     | _ => [] end) tr.

Definition variantFailed : string := "Parallel trajectory failed".

(** An executor answer that is no result: an exception, or [null]. *)
Definition noResult (answer : Outcome (option Result)) : Prop :=
  match answer with Return (Some _) => False | _ => True end.

Lemma fold_better_In (others : list Trajectory) : forall first,
  In (fold_left better others first) (first :: others).
Proof.
  induction others as [|t rest IH]; intros first; simpl; [now left|].
  destruct (IH (better first t)) as [H|H]; [|now right; right].
  rewrite <- H. unfold better.
  destruct (PrimFloat.ltb (score first) (score t)); [right; now left|now left].
Qed.

Lemma selectBest_In (trajectories : list Trajectory) (best : Trajectory) :
  selectBest trajectories = Some best -> In best trajectories.
Proof.
  unfold selectBest.
  destruct (filter succeeded trajectories) as [|first others] eqn:E.
  - destruct trajectories as [|t ts]; simpl; [discriminate|].
    intros H. injection H as <-. now left.
  - intros H. injection H as <-.
    pose proof (fold_better_In others first) as Hin. rewrite <- E in Hin.
    apply filter_In in Hin. tauto.
Qed.

(** The executor calls of a trace: the task and the memories handed over, and
    the answer. *)
Definition executions (tr : Trace)
  : list (Task * list Memory * Outcome (option Result)) :=
  flat_map (fun e => match e with
                     | Executed task memories answer => [(task, memories, answer)]
                     | _ => [] end) tr.

(** A trajectory is the variant of an executor call: the call was made on the
    task, the trajectory names the ids of the memories handed over, and a
    result it carries is the answer of that call. *)
Definition variantOf (task : Task) (t : Trajectory)
  (execution : Task * list Memory * Outcome (option Result)) : Prop :=
  fst (fst execution) = task /\
  memoriesUsed t = map id (snd (fst execution)) /\
  forall r, result t = Some r -> snd execution = Return (Some r).

Lemma Forall2_In_nth {A B : Type} (R : A -> B -> Prop) (l : list A) (l' : list B) :
  Forall2 R l l' ->
  forall a, In a l ->
  exists position b,
    nth_error l position = Some a /\ nth_error l' position = Some b /\ R a b.
Proof.
  induction 1 as [|x y l l' Hxy _ IH]; intros a Hin; [destruct Hin|].
  destruct Hin as [<-|Hin].
  - exists 0%nat, y. auto.
  - destruct (IH a Hin) as (position & b & H1 & H2 & H3).
    exists (S position), b. auto.
Qed.

Section ScalingCalls.
Context {W : Type} (config : Config) (memoryModel : MemoryModel W)
  (embedQuery : string -> string -> W -> Outcome (list float) * W)
  (toText : JS.value -> string) (JSON_stringify : JS.value -> string).

Lemma runTrajectory_observed (task : Task) (executeFunction : @Executor W)
  (index : nat) (memorySet : list Memory) (w : W) :
  exists w' tr' t,
    runTrajectory task executeFunction index memorySet w = (Return t, w', tr') /\
    statsUpdates tr' = [] /\
    match result t with
    | Some r => fst (executeFunction task memorySet w) = Return (Some r) /\
                observedResults tr' = [Some r] /\ warnings variantFailed tr' = []
    | None => noResult (fst (executeFunction task memorySet w)) /\
              succeeded t = false /\
              List.length (warnings variantFailed tr') = 1%nat
    end.
Proof.
  unfold runTrajectory, try_catch, bind_or, bind, run, log, emit, ret, throw.
  destruct (executeFunction task memorySet w) as [[[r|]|e] w1];
    eexists; eexists; eexists; (split; [reflexivity|]); simpl; auto.
Qed.

Lemma runTrajectories_observed (task : Task) (executeFunction : @Executor W)
  (memoryChunks : list (list Memory)) : forall (index : nat) (w : W),
  exists w' tr' trajectories,
    runTrajectories task executeFunction index memoryChunks w
      = (Return trajectories, w', tr') /\
    statsUpdates tr' = [] /\
    (forall t r, In t trajectories -> result t = Some r ->
                 In (Some r) (observedResults tr')) /\
    List.length (warnings variantFailed tr')
    = List.length (filter (fun t => match result t with None => true | _ => false end)
                     trajectories).
Proof.
  induction memoryChunks as [|memorySet rest IH]; intros index w; simpl.
  - exists w, [], []. simpl. repeat split; auto.
  - unfold bind.
    destruct (runTrajectory_observed task executeFunction index memorySet w)
      as (w1 & tr1 & t & E1 & S1 & O1).
    destruct (IH (S index) w1) as (w2 & tr2 & ts & E2 & S2 & O2 & F2).
    rewrite E1, E2. unfold ret.
    eexists; eexists; eexists; split; [reflexivity|].
    rewrite app_nil_r.
    repeat match goal with |- _ /\ _ => split end.
    + unfold statsUpdates in *. now rewrite flat_map_app, S1, S2.
    + intros t' r [<-|Hin] Hr; unfold observedResults in *; rewrite flat_map_app;
        apply in_or_app.
      * rewrite Hr in O1. destruct O1 as (_ & O1 & _). left. rewrite O1. now left.
      * right. now apply (O2 t' r).
    + unfold warnings in *. rewrite flat_map_app, length_app, F2. simpl.
      destruct (result t) as [r|].
      * destruct O1 as (_ & _ & O1). rewrite O1. reflexivity.
      * destruct O1 as (_ & _ & O1). rewrite O1. reflexivity.
Qed.

Lemma runTrajectory_variant (task : Task) (executeFunction : @Executor W)
  (index : nat) (memorySet : list Memory) (w w' : W) (tr' : Trace) (t : Trajectory) :
  runTrajectory task executeFunction index memorySet w = (Return t, w', tr') ->
  exists answer,
    executions tr' = [(task, memorySet, answer)] /\
    variantOf task t (task, memorySet, answer).
Proof.
  unfold runTrajectory, try_catch, bind_or, bind, run, log, emit, ret, throw.
  destruct (executeFunction task memorySet w) as [[[r|]|e] w1]; simpl;
    intros E; injection E as <- _ <-; eexists; (split; [reflexivity|]);
    unfold variantOf; simpl; repeat split; auto; try discriminate.
  intros r' E. now injection E as <-.
Qed.

(** The trajectories are, position by position, the variants of the executor
    calls, which were made on the chunks in order. *)
Lemma runTrajectories_variants (task : Task) (executeFunction : @Executor W)
  (memoryChunks : list (list Memory)) :
  forall (index : nat) (w w' : W) (tr' : Trace) (trajectories : list Trajectory),
  runTrajectories task executeFunction index memoryChunks w
    = (Return trajectories, w', tr') ->
  Forall2 (variantOf task) trajectories (executions tr') /\
  map (fun execution => snd (fst execution)) (executions tr') = memoryChunks.
Proof.
  induction memoryChunks as [|memorySet rest IH];
    intros index w w' tr' trajectories; simpl.
  - unfold ret. intros E. injection E as <- _ <-. split; [constructor|reflexivity].
  - unfold bind at 1.
    destruct (runTrajectory task executeFunction index memorySet w)
      as [[[t|e] w1] tr1] eqn:E1; [|discriminate].
    unfold bind at 1.
    destruct (runTrajectories task executeFunction (S index) rest w1)
      as [[[ts|e] w2] tr2] eqn:E2; [|discriminate].
    unfold ret. intros E. injection E as <- _ <-.
    destruct (runTrajectory_variant _ _ _ _ _ _ _ _ E1) as (answer & Hx & Hv).
    destruct (IH _ _ _ _ _ E2) as [Hall Hmap].
    unfold executions in *. rewrite !flat_map_app, Hx, app_nil_r. simpl.
    split; [constructor; assumption|now rewrite Hmap].
Qed.

(** When no executor call gives a result, every trajectory is a failed one
    without result. *)
Lemma runTrajectories_without_results (task : Task) (executeFunction : @Executor W)
  (memoryChunks : list (list Memory)) :
  (forall memorySet w, noResult (fst (executeFunction task memorySet w))) ->
  forall (index : nat) (w : W) w' tr' trajectories,
    runTrajectories task executeFunction index memoryChunks w
      = (Return trajectories, w', tr') ->
    forall t, In t trajectories -> result t = None /\ succeeded t = false.
Proof.
  intros Hfail.
  induction memoryChunks as [|memorySet rest IH]; intros index w w' tr' trajectories; simpl.
  - unfold ret. intros H. injection H as <- _ _. intros t [].
  - unfold bind.
    destruct (runTrajectory_observed task executeFunction index memorySet w)
      as (w1 & tr1 & t & E1 & _ & O1).
    rewrite E1.
    destruct (runTrajectories task executeFunction (S index) rest w1)
      as [[[ts|e] w2] tr2] eqn:E2; [|discriminate].
    unfold ret. intros H. injection H as <- _ _.
    intros t' [<-|Hin]; [|now apply (IH (S index) w1 w2 tr2 ts E2)].
    destruct (result t) as [r|] eqn:Er.
    + exfalso. specialize (Hfail memorySet w).
      destruct O1 as (O1 & _). rewrite O1 in Hfail. exact Hfail.
    + tauto.
Qed.

(** The shape of a run that reaches the fan-out. *)
Lemma parallelScaling_fan_out
  (task : Task) (executeFunction : @Executor W) (numVariants : Z)
  (w w1 w2 w3 : W) (queryEmbedding : list float) (memories : list Memory)
  (memoryChunks : list (list Memory)) (trajectories : list Trajectory) (tr3 : Trace)
  (best : Trajectory) :
  MATTS_PARALLEL_ENABLED config = true ->
  embedQuery (queryText toText JSON_stringify task) "RETRIEVAL_QUERY" w
    = (Return queryEmbedding, w1) ->
  retrieveMemories memoryModel queryEmbedding (numVariants * 3) 0.5 w1
    = (Return memories, w2) ->
  memories <> [] ->
  distribute memories numVariants = Return memoryChunks ->
  runTrajectories task executeFunction 0 memoryChunks w2 = (Return trajectories, w3, tr3) ->
  selectBest trajectories = Some best ->
  exists out w4 tr4,
    rewardWinner memoryModel best w3 = (out, w4, tr4) /\
    parallelScaling config memoryModel embedQuery toText JSON_stringify
      task executeFunction numVariants w
    = (match out with Return _ => Return (result best) | Throw e => Throw e end, w4,
       [Called (EmbedQuery (queryText toText JSON_stringify task) "RETRIEVAL_QUERY") true;
        Called (RetrieveMemories queryEmbedding (numVariants * 3) 0.5) true;
        Logged Info "Starting parallel scaling with memory-guided variants" []]
       ++ tr3
       ++ [Logged Info "Parallel scaling complete, selected best trajectory" []]
       ++ tr4).
Proof.
  intros Hon Hembed Hretrieve Hne Hd Hrun Hbest.
  unfold parallelScaling. rewrite Hon. simpl.
  unfold bind at 1. unfold call at 1. rewrite Hembed.
  unfold bind at 1. unfold call at 1. rewrite Hretrieve.
  destruct memories as [|memory rest]; [congruence|].
  rewrite Hd.
  unfold bind at 1. unfold log at 1, emit at 1.
  unfold bind at 1. rewrite Hrun. rewrite Hbest.
  unfold bind at 1. unfold log at 1, emit at 1.
  unfold bind at 1.
  destruct (rewardWinner memoryModel best w3) as [[[[]|e] w4] tr4];
    eexists; eexists; eexists; (split; [reflexivity|]); simpl;
    rewrite ?app_nil_r; reflexivity.
Qed.

Lemma rewardWinner_run (best : Trajectory) (w : W) :
  exists out w' tr',
    rewardWinner memoryModel best w = (out, w', tr') /\
    executeCalls tr' = [] /\ observedResults tr' = [] /\
    warnings variantFailed tr' = [] /\
    ((statsUpdates tr' = [] /\ failedStatsUpdates tr' = [] /\ out = Return tt) \/
     (succeeded best = true /\ memoriesUsed best <> [] /\
      statsUpdates tr' = [(memoriesUsed best, true)] /\
      ((failedStatsUpdates tr' = [] /\ out = Return tt) \/
       (failedStatsUpdates tr' = [memoriesUsed best] /\ exists e, out = Throw e)))).
Proof.
  unfold rewardWinner.
  destruct (succeeded best) eqn:Hs; simpl.
  2:{ unfold ret. eexists; eexists; eexists; split; [reflexivity|]. simpl. tauto. }
  destruct (memoriesUsed best) as [|i ids] eqn:Hm; simpl.
  { unfold ret. eexists; eexists; eexists; split; [reflexivity|]. simpl. tauto. }
  unfold bind, call, log, emit.
  destruct (updateMemoryStats memoryModel (i :: ids) true w) as [[[]|e] w'];
    eexists; eexists; eexists; (split; [reflexivity|]); simpl;
    (repeat match goal with |- _ /\ _ => split end; auto);
    right; (repeat match goal with |- _ /\ _ => split end; auto; try discriminate).
  right. eauto.
Qed.

(** With the switch on, a query embedding, memories retrieved and [N >= 1]
    variants, the executor is called exactly [N] times, once per chunk of the
    round-robin distribution and in chunk order, always with the task as
    given.  The repository is asked for at most one statistics update,
    recorded as a success: for the memory ids of a non-empty chunk, and the
    executor call made on that very chunk (the call at the position of the
    chunk) returned a successful result, which is the value returned when
    the call returns.  The call throws only when that update fails; then the
    result of the winning variant is lost. *)
Theorem parallelScaling_calls_executor_once_per_chunk
  (task : Task) (executeFunction : @Executor W) (numVariants : Z)
  (w w1 w2 : W) (queryEmbedding : list float) (memories : list Memory) :
  MATTS_PARALLEL_ENABLED config = true ->
  embedQuery (queryText toText JSON_stringify task) "RETRIEVAL_QUERY" w
    = (Return queryEmbedding, w1) ->
  retrieveMemories memoryModel queryEmbedding (numVariants * 3) 0.5 w1
    = (Return memories, w2) ->
  memories <> [] ->
  (0 < numVariants)%Z ->
  exists memoryChunks out w' tr',
    distribute memories numVariants = Return memoryChunks /\
    parallelScaling config memoryModel embedQuery toText JSON_stringify
      task executeFunction numVariants w = (out, w', tr') /\
    executeCalls tr' = map (fun memorySet => (task, memorySet)) memoryChunks /\
    List.length (executeCalls tr') = Z.to_nat numVariants /\
    (statsUpdates tr' = [] \/
     exists position memorySet r,
       nth_error memoryChunks position = Some memorySet /\
       nth_error (executions tr') position
       = Some (task, memorySet, Return (Some r)) /\
       memorySet <> [] /\
       statsUpdates tr' = [(map id memorySet, true)] /\
       success r = true /\
       (forall v, out = Return v -> v = Some r)) /\
    (forall e, out = Throw e -> failedStatsUpdates tr' <> []) /\
    (failedStatsUpdates tr' = [] -> exists v, out = Return v).
Proof.
  intros Hon Hembed Hretrieve Hne Hpos.
  destruct (distribute_returns memories numVariants Hpos) as (memoryChunks & Hd & Hlen).
  destruct (runTrajectories_run task executeFunction memoryChunks 0 w2)
    as (w3 & tr3 & trajectories & Hrun & Hidx & Hwf & Hused & Hcalls).
  destruct (runTrajectories_observed task executeFunction memoryChunks 0 w2)
    as (w3' & tr3' & trajectories' & Hrun' & Hstats & Hobs & _).
  rewrite Hrun in Hrun'. injection Hrun' as <- <- <-.
  rewrite Hlen in Hidx.
  assert (Hsome : exists best, selectBest trajectories = Some best).
  { destruct (filter succeeded trajectories) as [|first others] eqn:Ef.
    - unfold selectBest. rewrite Ef.
      destruct trajectories as [|t ts]; [|now exists t].
      simpl in Hidx. destruct (Z.to_nat numVariants) eqn:En; [lia|discriminate].
    - unfold selectBest. rewrite Ef. eauto. }
  destruct Hsome as (best & Hbest).
  destruct (parallelScaling_fan_out task executeFunction numVariants w w1 w2 w3
              queryEmbedding memories memoryChunks trajectories tr3 best
              Hon Hembed Hretrieve Hne Hd Hrun Hbest)
    as (out & w4 & tr4 & Hreward & Hcall).
  destruct (rewardWinner_run best w3)
    as (out' & w4' & tr4' & Hreward' & Hx & Ho & _ & Hupd).
  rewrite Hreward in Hreward'. injection Hreward' as <- <- <-.
  exists memoryChunks. eexists; eexists; eexists.
  split; [exact Hd|]. split; [exact Hcall|].
  assert (Ecalls : forall A (f : Event -> list A),
            (forall l m a, f (Logged l m a) = []) ->
            flat_map f
              ([Called (EmbedQuery (queryText toText JSON_stringify task)
                          "RETRIEVAL_QUERY") true;
                Called (RetrieveMemories queryEmbedding (numVariants * 3) 0.5) true;
                Logged Info "Starting parallel scaling with memory-guided variants" []]
               ++ tr3
               ++ [Logged Info "Parallel scaling complete, selected best trajectory" []]
               ++ tr4)
            = f (Called (EmbedQuery (queryText toText JSON_stringify task)
                           "RETRIEVAL_QUERY") true)
              ++ f (Called (RetrieveMemories queryEmbedding (numVariants * 3) 0.5) true)
              ++ flat_map f tr3 ++ flat_map f tr4).
  { intros A f Hlog. rewrite !flat_map_app. simpl. rewrite !Hlog. simpl.
    now rewrite ?app_nil_r, <- ?app_assoc. }
  assert (Hexec : executeCalls
            ([Called (EmbedQuery (queryText toText JSON_stringify task)
                        "RETRIEVAL_QUERY") true;
              Called (RetrieveMemories queryEmbedding (numVariants * 3) 0.5) true;
              Logged Info "Starting parallel scaling with memory-guided variants" []]
             ++ tr3
             ++ [Logged Info "Parallel scaling complete, selected best trajectory" []]
             ++ tr4)
          = map (fun memorySet => (task, memorySet)) memoryChunks).
  { unfold executeCalls in *. rewrite Ecalls by auto. rewrite Hcalls, Hx.
    simpl. rewrite ?app_nil_r. reflexivity. }
  assert (Hstat : forall A (f : Event -> list A),
            (forall l m a, f (Logged l m a) = []) ->
            (forall t ms a, f (Executed t ms a) = []) ->
            (forall q k ok, f (Called (EmbedQuery q k) ok) = []) ->
            (forall q k r ok, f (Called (RetrieveMemories q k r) ok) = []) ->
            flat_map f tr3 = [] ->
            flat_map f
              ([Called (EmbedQuery (queryText toText JSON_stringify task)
                          "RETRIEVAL_QUERY") true;
                Called (RetrieveMemories queryEmbedding (numVariants * 3) 0.5) true;
                Logged Info "Starting parallel scaling with memory-guided variants" []]
               ++ tr3
               ++ [Logged Info "Parallel scaling complete, selected best trajectory" []]
               ++ tr4)
            = flat_map f tr4).
  { intros A f Hlog _ He Hr H3. rewrite Ecalls by auto.
    now rewrite He, Hr, H3. }
  assert (Hfailed3 : failedStatsUpdates tr3 = []).
  { clear - Hstats. unfold statsUpdates, failedStatsUpdates in *.
    induction tr3 as [|e rest IH]; simpl in *; [reflexivity|].
    apply app_eq_nil in Hstats. destruct Hstats as [He Hrest].
    rewrite (IH Hrest). destruct e as [[] []| | |]; simpl in *; try discriminate;
      reflexivity. }
  destruct (runTrajectories_variants _ _ _ _ _ _ _ _ Hrun) as [Hvariants Hchunks].
  assert (Hexecutions : executions
            ([Called (EmbedQuery (queryText toText JSON_stringify task)
                        "RETRIEVAL_QUERY") true;
              Called (RetrieveMemories queryEmbedding (numVariants * 3) 0.5) true;
              Logged Info "Starting parallel scaling with memory-guided variants" []]
             ++ tr3
             ++ [Logged Info "Parallel scaling complete, selected best trajectory" []]
             ++ tr4)
          = executions tr3).
  { unfold executions. rewrite Ecalls by auto. simpl.
    assert (H4 : flat_map (fun e => match e with
                                    | Executed task0 ms answer => [(task0, ms, answer)]
                                    | _ => [] end) tr4 = []).
    { clear - Hx. unfold executeCalls in Hx.
      induction tr4 as [|e rest IH]; simpl in *; [reflexivity|].
      apply app_eq_nil in Hx. destruct Hx as [He Hrest].
      rewrite (IH Hrest). destruct e; simpl in *; try discriminate; reflexivity. }
    rewrite H4. now rewrite app_nil_r. }
  split; [exact Hexec|]. split; [rewrite Hexec, length_map; exact Hlen|].
  rewrite Hexecutions.
  unfold statsUpdates, failedStatsUpdates, observedResults in *.
  rewrite (Hstat _ _ (fun _ _ _ => eq_refl) (fun _ _ _ => eq_refl)
             (fun _ _ _ => eq_refl) (fun _ _ _ _ => eq_refl) Hstats).
  rewrite (Hstat _ _ (fun _ _ _ => eq_refl) (fun _ _ _ => eq_refl)
             (fun _ _ _ => eq_refl) (fun _ _ _ _ => eq_refl) Hfailed3).
  destruct Hupd as [(U & F & ->)|(Hs & Hm & U & Hout)].
  - rewrite U, F. split; [now left|]. split; [discriminate|]. eauto.
  - rewrite U.
    pose proof (selectBest_In trajectories best Hbest) as Hin.
    destruct (Forall2_In_nth _ _ _ Hvariants best Hin)
      as (position & [[task0 memorySet] answer] & _ & Hnth & Htask & Em & Hanswer).
    simpl in Htask, Em, Hanswer. subst task0.
    assert (Hchunk : nth_error memoryChunks position = Some memorySet).
    { rewrite <- Hchunks.
      apply (map_nth_error (fun execution => snd (fst execution)) _ _ Hnth). }
    assert (Hres : exists r, result best = Some r /\ success r = true).
    { rewrite Forall_forall in Hwf. destruct (Hwf best Hin) as [_ Hsucc].
      rewrite Hs in Hsucc. destruct (result best) as [r|]; [eauto|discriminate]. }
    destruct Hres as (r & Er & Hr).
    rewrite (Hanswer r Er) in Hnth.
    split.
    + right. exists position, memorySet, r. rewrite <- Em.
      repeat match goal with |- _ /\ _ => split end; auto.
      * intros ->. simpl in Em. congruence.
      * intros v Hv. rewrite Er in Hv.
        destruct Hout as [(_ & ->)|(_ & e & ->)]; [|discriminate].
        now injection Hv as <-.
    + destruct Hout as [(F & ->)|(F & e & ->)]; rewrite F.
      * split; [discriminate|]. eauto.
      * split; [discriminate|]. discriminate.
Qed.

(** With the switch on, a query embedding, memories retrieved and [N >= 1]
    variants: when every executor call throws or resolves to [null], the call
    neither throws nor updates any statistics; it logs one warning per
    variant and resolves to [null]. *)
Theorem parallelScaling_resolves_to_null_when_no_variant_gives_a_result
  (task : Task) (executeFunction : @Executor W) (numVariants : Z)
  (w w1 w2 : W) (queryEmbedding : list float) (memories : list Memory) :
  MATTS_PARALLEL_ENABLED config = true ->
  embedQuery (queryText toText JSON_stringify task) "RETRIEVAL_QUERY" w
    = (Return queryEmbedding, w1) ->
  retrieveMemories memoryModel queryEmbedding (numVariants * 3) 0.5 w1
    = (Return memories, w2) ->
  memories <> [] ->
  (0 < numVariants)%Z ->
  (forall memorySet w, noResult (fst (executeFunction task memorySet w))) ->
  exists w' tr',
    parallelScaling config memoryModel embedQuery toText JSON_stringify
      task executeFunction numVariants w = (Return None, w', tr') /\
    statsUpdates tr' = [] /\
    List.length (warnings variantFailed tr') = Z.to_nat numVariants /\
    List.length (executeCalls tr') = Z.to_nat numVariants.
Proof.
  intros Hon Hembed Hretrieve Hne Hpos Hfail.
  destruct (distribute_returns memories numVariants Hpos) as (memoryChunks & Hd & Hlen).
  destruct (runTrajectories_run task executeFunction memoryChunks 0 w2)
    as (w3 & tr3 & trajectories & Hrun & Hidx & Hwf & Hused & Hcalls).
  destruct (runTrajectories_observed task executeFunction memoryChunks 0 w2)
    as (w3' & tr3' & trajectories' & Hrun' & Hstats & _ & Hwarn).
  rewrite Hrun in Hrun'. injection Hrun' as <- <- <-.
  pose proof (runTrajectories_without_results task executeFunction memoryChunks Hfail
                0 w2 w3 tr3 trajectories Hrun) as Hnone.
  assert (Hlen' : List.length trajectories = Z.to_nat numVariants).
  { rewrite <- Hlen, <- (length_map index trajectories), Hidx. apply length_seq. }
  destruct trajectories as [|first others] eqn:Et;
    [simpl in Hlen'; lia|]. rewrite <- Et in *.
  assert (Hbest : selectBest trajectories = Some first).
  { rewrite selectBest_none_succeeded; [now rewrite Et|].
    intros t Ht. now apply Hnone. }
  destruct (parallelScaling_fan_out task executeFunction numVariants w w1 w2 w3
              queryEmbedding memories memoryChunks trajectories tr3 first
              Hon Hembed Hretrieve Hne Hd Hrun Hbest)
    as (out & w4 & tr4 & Hreward & Hcall).
  assert (Hfirst : In first trajectories) by (rewrite Et; now left).
  destruct (Hnone first Hfirst) as [Hres Hsucc].
  unfold rewardWinner in Hreward. rewrite Hsucc in Hreward. simpl in Hreward.
  unfold ret in Hreward. injection Hreward as <- <- <-.
  rewrite Hres in Hcall.
  eexists; eexists. split; [exact Hcall|].
  assert (Hall : filter (fun t => match result t with None => true | _ => false end)
                   trajectories = trajectories).
  { clear - Hnone. induction trajectories as [|t ts IH]; [reflexivity|].
    simpl. destruct (Hnone t (or_introl eq_refl)) as [-> _].
    f_equal. apply IH. intros t' Ht'. apply Hnone. now right. }
  rewrite Hall in Hwarn.
  unfold statsUpdates, warnings, executeCalls in *.
  rewrite !flat_map_app. simpl. rewrite !app_nil_r, Hstats, Hcalls, length_map.
  repeat match goal with |- _ /\ _ => split end; auto; lia.
Qed.

End ScalingCalls.

(** An executor that always throws, and the retrieval of three memories. *)
Definition brokenExecutor (_ : Task) (_ : list Memory) (w : Reference.World)
  : Outcome (option Result) * Reference.World := (Throw "Execution failed", w).

Lemma parallelScaling_calls_executor_scenarioS4 :
  exists memoryChunks out w' tr',
    distribute threeMemories 3 = Return memoryChunks /\
    parallelScaling enabled Reference.memoryModel Reference.embedQuery
      Reference.toText Reference.stringify Reference.task Reference.scripted 3
      scenarioS4 = (out, w', tr') /\
    List.length (executeCalls tr') = 3%nat /\
    statsUpdates tr' = [(["mem-2"], true)] /\
    nth_error (executions tr') 1
    = Some (Reference.task, [Reference.record "mem-2" [] 0 None 0],
            Return (Some richSuccess)).
Proof.
  destruct (parallelScaling_calls_executor_once_per_chunk enabled Reference.memoryModel
              Reference.embedQuery Reference.toText Reference.stringify
              Reference.task Reference.scripted 3 scenarioS4 scenarioS4 scenarioS4
              [1; 0; 0]%float threeMemories eq_refl eq_refl eq_refl)
    as (memoryChunks & out & w' & tr' & Hd & Hcall & _ & Hlen & _).
  - discriminate.
  - reflexivity.
  - exists memoryChunks, out, w', tr'.
    assert (Etr : tr' = traceOf
              (parallelScaling enabled Reference.memoryModel Reference.embedQuery
                 Reference.toText Reference.stringify Reference.task
                 Reference.scripted 3) scenarioS4)
      by (unfold traceOf; now rewrite Hcall).
    repeat match goal with |- _ /\ _ => split end; auto;
      rewrite Etr; vm_compute; reflexivity.
Defined.

Lemma parallelScaling_brokenExecutor :
  exists w' tr',
    parallelScaling enabled Reference.memoryModel Reference.embedQuery
      Reference.toText Reference.stringify Reference.task brokenExecutor 3
      (scene threeMemories []) = (Return None, w', tr') /\
    statsUpdates tr' = [].
Proof.
  destruct (parallelScaling_resolves_to_null_when_no_variant_gives_a_result enabled
              Reference.memoryModel Reference.embedQuery Reference.toText
              Reference.stringify Reference.task brokenExecutor 3
              (scene threeMemories []) (scene threeMemories []) (scene threeMemories [])
              [1; 0; 0]%float threeMemories eq_refl eq_refl eq_refl)
    as (w' & tr' & Hcall & Hstats & _).
  - discriminate.
  - reflexivity.
  - intros memorySet w. exact I.
  - exists w', tr'. auto.
Defined.

(** *** [sequentialScaling]: the loop without and with a reflector *)

(** Whether each call of the reflector returned, in order. *)
Definition reflectOutcomes (tr : Trace) : list bool :=
  flat_map (fun e => match e with Called (Reflect _ _ _) ok => [ok] | _ => [] end) tr.

Definition reflectionFailed : string := "Reflection function failed, stopping refinement".

(** An observed result that is no success. *)
Definition unsuccessful (answer : option Result) : Prop :=
  match answer with Some r => success r = false | None => True end.

Lemma track_failure (r : Result) :
  success r = false -> track (None, 0) (Some r) = (None, 0).
Proof.
  intros Hr. unfold track.
  rewrite (score_failure (Some r) Hr). reflexivity.
Qed.

Lemma track_success (r : Result) :
  success r = true -> fst (track (None, 0) (Some r)) = Some r.
Proof.
  intros Hr. unfold track. cbn [snd].
  change 0 with (_scoreTrajectory None) at 1.
  rewrite score_ltb_rank.
  assert (H : (rank None <? rank (Some r))%Z = true).
  { apply Z.ltb_lt. simpl. rewrite Hr. simpl.
    destruct (fewSteps r), (quick r), (richOutput r), (longReport r); lia. }
  now rewrite H.
Qed.

Section ScalingSequential.
Context {W : Type} (config : Config) (memoryModel : MemoryModel W)
  (embedQuery : string -> string -> W -> Outcome (list float) * W)
  (toText : JS.value -> string) (JSON_stringify : JS.value -> string).

(** The collaborators of the loop answer: the retrieval returns, and the
    executor returns a result. *)
Definition answers (executeFunction : @Executor W) : Prop :=
  (forall queryEmbedding w,
     exists memories w',
       retrieveMemories memoryModel queryEmbedding 5 0.6 w = (Return memories, w')) /\
  (forall task memories w,
     exists r w', executeFunction task memories w = (Return (Some r), w')).

Lemma refine_without_reflector (executeFunction : @Executor W)
  (queryEmbedding : list float) (task : Task) :
  answers executeFunction ->
  forall (remaining : nat) (w : W),
  exists v w' tr',
    refine memoryModel remaining executeFunction None queryEmbedding task (None, 0) w
      = (Return v, w', tr') /\
    map fst (executeCalls tr') = repeat task (List.length (executeCalls tr')) /\
    (List.length (executeCalls tr') <= remaining)%nat /\
    reflectOutcomes tr' = [] /\
    match v with
    | Some r =>
        success r = true /\
        exists failures,
          observedResults tr' = failures ++ [Some r] /\ Forall unsuccessful failures
    | None =>
        List.length (executeCalls tr') = remaining /\
        Forall unsuccessful (observedResults tr')
    end.
Proof.
  intros [Hretrieve Hexec].
  induction remaining as [|remaining IH]; intros w.
  - exists None, w, []. simpl. repeat split; auto.
  - cbn [refine]. unfold bind at 1. unfold log at 1, emit at 1.
    unfold bind at 1. unfold call at 1.
    destruct (Hretrieve queryEmbedding w) as (memories & w1 & ->).
    unfold bind at 1. unfold run at 1.
    destruct (Hexec task memories w1) as (r & w2 & ->).
    destruct (success r) eqn:Hr.
    + assert (Hdone : forall tail : Trace,
                executeCalls tail = [] -> observedResults tail = [] ->
                reflectOutcomes tail = [] ->
                let tr' := [Logged Info "Sequential scaling iteration" []]
                           ++ [Called (RetrieveMemories queryEmbedding 5 0.6) true]
                           ++ [Executed task memories (Return (Some r))] ++ tail in
                map fst (executeCalls tr') = repeat task (List.length (executeCalls tr')) /\
                (List.length (executeCalls tr') <= S remaining)%nat /\
                reflectOutcomes tr' = [] /\
                success r = true /\
                exists failures,
                  observedResults tr' = failures ++ [Some r] /\
                  Forall unsuccessful failures).
      { intros tail Hx Ho Hf. unfold executeCalls, observedResults, reflectOutcomes in *.
        simpl. rewrite Hx, Ho, Hf. simpl.
        repeat match goal with |- _ /\ _ => split end; auto; try lia.
        exists []. auto. }
      simpl andb.
      destruct (PrimFloat.ltb 0.9 (_scoreTrajectory (Some r))).
      * unfold bind, log, emit, ret. rewrite (track_success r Hr).
        eexists; eexists; eexists; split; [reflexivity|].
        apply (Hdone ([Logged Info
                         "Sequential scaling achieved high score, stopping early" []]
                      ++ [])); reflexivity.
      * unfold ret. rewrite (track_success r Hr).
        eexists; eexists; eexists; split; [reflexivity|].
        apply (Hdone []); reflexivity.
    + rewrite (track_failure r Hr), andb_false_l.
      destruct (IH w2) as (v & w' & tr' & E & Ht & Hn & Hf & Hv).
      rewrite E. eexists; eexists; eexists; split; [reflexivity|].
      unfold executeCalls, observedResults, reflectOutcomes in *.
      rewrite !flat_map_app. simpl. rewrite Ht, Hf.
      repeat match goal with |- _ /\ _ => split end; auto; try lia.
      destruct v as [best|].
      * destruct Hv as (Hs & failures & Ho & Hall). split; [exact Hs|].
        exists (Some r :: failures). rewrite Ho. split; [reflexivity|].
        constructor; [exact Hr|exact Hall].
      * destruct Hv as [Hlen Hall]. split; [lia|].
        constructor; [exact Hr|exact Hall].
Qed.

(** Without a reflector, and with collaborators that answer, the call
    returns.  The executor is called with the task as given, again and again
    until a result is successful or [maxIterations] calls are made: the value
    returned is the first successful result, every result before it being a
    failure; or it is [null] after exactly [maxIterations] failures. *)
Theorem sequentialScaling_without_reflector_stops_at_first_success
  (task : Task) (executeFunction : @Executor W) (maxIterations : Z)
  (w w1 : W) (queryEmbedding : list float) :
  MATTS_SEQUENTIAL_ENABLED config = true ->
  embedQuery (queryText toText JSON_stringify task) "RETRIEVAL_QUERY" w
    = (Return queryEmbedding, w1) ->
  answers executeFunction ->
  exists v w' tr',
    sequentialScaling config memoryModel embedQuery toText JSON_stringify
      task executeFunction None maxIterations w = (Return v, w', tr') /\
    map fst (executeCalls tr') = repeat task (List.length (executeCalls tr')) /\
    (List.length (executeCalls tr') <= Z.to_nat maxIterations)%nat /\
    match v with
    | Some r =>
        success r = true /\
        exists failures,
          observedResults tr' = failures ++ [Some r] /\ Forall unsuccessful failures
    | None =>
        List.length (executeCalls tr') = Z.to_nat maxIterations /\
        Forall unsuccessful (observedResults tr')
    end.
Proof.
  intros Hon Hembed Hanswers. unfold sequentialScaling. rewrite Hon. simpl.
  unfold bind at 1. unfold call at 1. rewrite Hembed.
  destruct (refine_without_reflector executeFunction queryEmbedding task Hanswers
              (Z.to_nat maxIterations) w1)
    as (v & w' & tr' & E & Ht & Hn & _ & Hv).
  unfold bind at 1. rewrite E.
  unfold bind, log, emit, ret.
  eexists; eexists; eexists; split; [reflexivity|].
  unfold executeCalls, observedResults in *.
  rewrite !flat_map_app. simpl. rewrite !app_nil_r.
  repeat match goal with |- _ /\ _ => split end; auto.
Qed.

Lemma refine_survives_reflector (executeFunction : @Executor W)
  (reflectFunction : option (@Reflector W)) (queryEmbedding : list float) :
  answers executeFunction ->
  forall (remaining : nat) (currentTask : Task) (best : option Result * float) (w : W),
  exists v w' tr' refinements,
    refine memoryModel remaining executeFunction reflectFunction queryEmbedding
      currentTask best w = (Return v, w', tr') /\
    (reflectOutcomes tr' = repeat true refinements /\
     warnings reflectionFailed tr' = [] \/
     reflectOutcomes tr' = repeat true refinements ++ [false] /\
     List.length (warnings reflectionFailed tr') = 1%nat) /\
    (List.length (reflectOutcomes tr') <= List.length (executeCalls tr'))%nat.
Proof.
  intros [Hretrieve Hexec].
  induction remaining as [|remaining IH]; intros currentTask best w.
  - exists (fst best), w, [], 0%nat. simpl. split; [reflexivity|]. split; [now left|lia].
  - cbn [refine]. unfold bind at 1. unfold log at 1, emit at 1.
    unfold bind at 1. unfold call at 1.
    destruct (Hretrieve queryEmbedding w) as (memories & w1 & ->).
    unfold bind at 1. unfold run at 1.
    destruct (Hexec currentTask memories w1) as (r & w2 & ->).
    destruct (success r && PrimFloat.ltb 0.9 (_scoreTrajectory (Some r))).
    { unfold bind, log, emit, ret.
      eexists; eexists; eexists; exists 0%nat; split; [reflexivity|].
      simpl. split; [now left|lia]. }
    destruct reflectFunction as [reflect|].
    + unfold bind_or. unfold call at 1.
      destruct (reflect currentTask (Some r) memories w2) as [[[rho|]|e] w3].
      * destruct (shouldRefine rho).
        -- destruct (IH (JS.spread currentTask (refinedTask rho))
                       (track best (Some r)) w3)
             as (v & w' & tr' & k & E & Hk & Hn).
           rewrite E. eexists; eexists; eexists; exists (S k).
           split; [reflexivity|].
           unfold reflectOutcomes, executeCalls, warnings in *.
           rewrite !flat_map_app, !length_app. simpl.
           split; [|lia].
           destruct Hk as [[Hk Hw]|[Hk Hw]]; rewrite Hk, Hw; [left|right]; auto.
        -- unfold bind, log, emit, ret.
           eexists; eexists; eexists; exists 1%nat; split; [reflexivity|].
           simpl. split; [now left|lia].
      * unfold bind, log, emit, ret.
        eexists; eexists; eexists; exists 1%nat; split; [reflexivity|].
        simpl. split; [now left|lia].
      * unfold bind, log, emit, ret.
        eexists; eexists; eexists; exists 0%nat; split; [reflexivity|].
        simpl. split; [now right|lia].
    + destruct (success r).
      * unfold ret.
        eexists; eexists; eexists; exists 0%nat; split; [reflexivity|].
        simpl. split; [now left|lia].
      * destruct (IH currentTask (track best (Some r)) w2)
          as (v & w' & tr' & k & E & Hk & Hn).
        rewrite E. eexists; eexists; eexists; exists k.
        split; [reflexivity|].
        unfold reflectOutcomes, executeCalls, warnings in *.
        rewrite !flat_map_app, !length_app. simpl.
        split; [exact Hk|lia].
Qed.

(** With collaborators that answer, the call returns whatever the reflector
    does: an exception of the reflector never escapes.  The reflector is
    called at most once per executor call; every reflection but the last
    returned, and when the last one threw, one warning is logged and the loop
    ends. *)
Theorem sequentialScaling_survives_failing_reflector
  (task : Task) (executeFunction : @Executor W) (reflectFunction : option (@Reflector W))
  (maxIterations : Z) (w w1 : W) (queryEmbedding : list float) :
  MATTS_SEQUENTIAL_ENABLED config = true ->
  embedQuery (queryText toText JSON_stringify task) "RETRIEVAL_QUERY" w
    = (Return queryEmbedding, w1) ->
  answers executeFunction ->
  exists v w' tr' refinements,
    sequentialScaling config memoryModel embedQuery toText JSON_stringify
      task executeFunction reflectFunction maxIterations w = (Return v, w', tr') /\
    (reflectOutcomes tr' = repeat true refinements /\
     warnings reflectionFailed tr' = [] \/
     reflectOutcomes tr' = repeat true refinements ++ [false] /\
     List.length (warnings reflectionFailed tr') = 1%nat) /\
    (List.length (reflectOutcomes tr') <= List.length (executeCalls tr'))%nat.
Proof.
  intros Hon Hembed Hanswers. unfold sequentialScaling. rewrite Hon. simpl.
  unfold bind at 1. unfold call at 1. rewrite Hembed.
  destruct (refine_survives_reflector executeFunction reflectFunction queryEmbedding
              Hanswers (Z.to_nat maxIterations) task (None, 0) w1)
    as (v & w' & tr' & k & E & Hk & Hn).
  unfold bind at 1. rewrite E.
  unfold bind, log, emit, ret.
  eexists; eexists; eexists; exists k; split; [reflexivity|].
  unfold reflectOutcomes, executeCalls, warnings in *.
  rewrite !flat_map_app. simpl. rewrite !app_nil_r.
  split; [exact Hk|exact Hn].
Qed.

End ScalingSequential.

(** A repository whose retrieval always answers, an executor that always
    fails its task, and a reflector that throws. *)
Definition steadyModel : MemoryModel Reference.World :=
  mkMemoryModel Reference.World
    (getAllMemories Reference.memoryModel) (updateMemory Reference.memoryModel)
    (deleteMemory Reference.memoryModel) (archiveMemory Reference.memoryModel)
    (fun _ _ _ w => (Return (Reference.retrievable w), w))
    (updateMemoryStats Reference.memoryModel) (addMemory Reference.memoryModel).

Definition failingExecutor (_ : Task) (_ : list Memory) (w : Reference.World)
  : Outcome (option Result) * Reference.World := (Return (Some failure), w).

Definition brokenReflector (_ : Task) (_ : option Result) (_ : list Memory)
  (w : Reference.World) : Outcome (option Reflection) * Reference.World :=
  (Throw "Reflection failed", w).

Lemma failingExecutor_answers : answers steadyModel failingExecutor.
Proof.
  split.
  - intros queryEmbedding w. exists (Reference.retrievable w), w. reflexivity.
  - intros task memories w. exists failure, w. reflexivity.
Defined.

Lemma sequentialScaling_failingExecutor :
  exists w' tr',
    sequentialScaling enabled steadyModel Reference.embedQuery Reference.toText
      Reference.stringify Reference.task failingExecutor None 3 (scene [] [])
    = (Return None, w', tr') /\
    List.length (executeCalls tr') = 3%nat.
Proof.
  destruct (sequentialScaling_without_reflector_stops_at_first_success enabled
              steadyModel Reference.embedQuery Reference.toText Reference.stringify
              Reference.task failingExecutor 3 (scene [] []) (scene [] [])
              [1; 0; 0]%float eq_refl eq_refl failingExecutor_answers)
    as (v & w' & tr' & E & _ & _ & Hv).
  assert (Ev : outcomeOf
                 (sequentialScaling enabled steadyModel Reference.embedQuery
                    Reference.toText Reference.stringify Reference.task
                    failingExecutor None 3) (scene [] []) = Return None)
    by (vm_compute; reflexivity).
  unfold outcomeOf in Ev. rewrite E in Ev. simpl in Ev. injection Ev as ->.
  exists w', tr'. split; [exact E|exact (proj1 Hv)].
Defined.

Lemma sequentialScaling_brokenReflector :
  exists v w' tr',
    sequentialScaling enabled steadyModel Reference.embedQuery Reference.toText
      Reference.stringify Reference.task failingExecutor (Some brokenReflector) 3
      (scene [] [])
    = (Return v, w', tr') /\
    (List.length (reflectOutcomes tr') <= List.length (executeCalls tr'))%nat.
Proof.
  destruct (sequentialScaling_survives_failing_reflector enabled
              steadyModel Reference.embedQuery Reference.toText Reference.stringify
              Reference.task failingExecutor (Some brokenReflector) 3
              (scene [] []) (scene [] [])
              [1; 0; 0]%float eq_refl eq_refl failingExecutor_answers)
    as (v & w' & tr' & k & E & _ & Hn).
  exists v, w', tr'. split; [exact E|exact Hn].
Defined.

(** *** Failures that end a scaling call *)

(** The events after which [sequentialScaling] cannot go on: a failure of the
    embedder or of the retrieval, and an executor call that throws or
    resolves to [null]. *)
Definition fatal (e : Event) : bool :=
  match e with
  | Called (EmbedQuery _ _) false => true
  | Called (RetrieveMemories _ _ _) false => true
  | Executed _ _ (Throw _) => true
  | Executed _ _ (Return None) => true
  | _ => false
  end.

Section ScalingFailures.
Context {W : Type} (config : Config) (memoryModel : MemoryModel W)
  (embedQuery : string -> string -> W -> Outcome (list float) * W)
  (toText : JS.value -> string) (JSON_stringify : JS.value -> string).

(** With the switch on, a failure of the embedder or of the retrieval ends
    [parallelScaling] with that error: the executor is not called, so there
    is no fall-back to a single execution. *)
Theorem parallelScaling_propagates_embedder_and_retrieval_failures
  (task : Task) (executeFunction : @Executor W) (numVariants : Z) (w : W) :
  MATTS_PARALLEL_ENABLED config = true ->
  (forall error w1,
     embedQuery (queryText toText JSON_stringify task) "RETRIEVAL_QUERY" w
       = (Throw error, w1) ->
     parallelScaling config memoryModel embedQuery toText JSON_stringify
       task executeFunction numVariants w
     = (Throw error, w1,
        [Called (EmbedQuery (queryText toText JSON_stringify task) "RETRIEVAL_QUERY")
           false])) /\
  (forall queryEmbedding w1 error w2,
     embedQuery (queryText toText JSON_stringify task) "RETRIEVAL_QUERY" w
       = (Return queryEmbedding, w1) ->
     retrieveMemories memoryModel queryEmbedding (numVariants * 3) 0.5 w1
       = (Throw error, w2) ->
     parallelScaling config memoryModel embedQuery toText JSON_stringify
       task executeFunction numVariants w
     = (Throw error, w2,
        [Called (EmbedQuery (queryText toText JSON_stringify task) "RETRIEVAL_QUERY")
           true;
         Called (RetrieveMemories queryEmbedding (numVariants * 3) 0.5) false])) /\
  ((exists error w1,
      embedQuery (queryText toText JSON_stringify task) "RETRIEVAL_QUERY" w
        = (Throw error, w1)) \/
   (exists queryEmbedding w1 error w2,
      embedQuery (queryText toText JSON_stringify task) "RETRIEVAL_QUERY" w
        = (Return queryEmbedding, w1) /\
      retrieveMemories memoryModel queryEmbedding (numVariants * 3) 0.5 w1
        = (Throw error, w2)) ->
   executeCalls
     (traceOf (parallelScaling config memoryModel embedQuery toText JSON_stringify
                 task executeFunction numVariants) w) = []).
Proof.
  intros Hon.
  assert (Hembed : forall error w1,
     embedQuery (queryText toText JSON_stringify task) "RETRIEVAL_QUERY" w
       = (Throw error, w1) ->
     parallelScaling config memoryModel embedQuery toText JSON_stringify
       task executeFunction numVariants w
     = (Throw error, w1,
        [Called (EmbedQuery (queryText toText JSON_stringify task) "RETRIEVAL_QUERY")
           false])).
  { intros error w1 E. unfold parallelScaling. rewrite Hon. simpl.
    unfold bind at 1. unfold call at 1. rewrite E. reflexivity. }
  assert (Hretrieve : forall queryEmbedding w1 error w2,
     embedQuery (queryText toText JSON_stringify task) "RETRIEVAL_QUERY" w
       = (Return queryEmbedding, w1) ->
     retrieveMemories memoryModel queryEmbedding (numVariants * 3) 0.5 w1
       = (Throw error, w2) ->
     parallelScaling config memoryModel embedQuery toText JSON_stringify
       task executeFunction numVariants w
     = (Throw error, w2,
        [Called (EmbedQuery (queryText toText JSON_stringify task) "RETRIEVAL_QUERY")
           true;
         Called (RetrieveMemories queryEmbedding (numVariants * 3) 0.5) false])).
  { intros queryEmbedding w1 error w2 E1 E2. unfold parallelScaling. rewrite Hon. simpl.
    unfold bind at 1. unfold call at 1. rewrite E1.
    unfold bind at 1. unfold call at 1. rewrite E2. reflexivity. }
  split; [exact Hembed|]. split; [exact Hretrieve|].
  unfold traceOf.
  intros [(error & w1 & E)|(queryEmbedding & w1 & error & w2 & E1 & E2)].
  - now rewrite (Hembed error w1 E).
  - now rewrite (Hretrieve queryEmbedding w1 error w2 E1 E2).
Qed.

Lemma refine_throws_on_fatal_event (executeFunction : @Executor W)
  (reflectFunction : option (@Reflector W)) (queryEmbedding : list float)
  (remaining : nat) :
  forall (currentTask : Task) (best : option Result * float) (w : W),
  exists out w' tr',
    refine memoryModel remaining executeFunction reflectFunction queryEmbedding
      currentTask best w = (out, w', tr') /\
    (existsb fatal tr' = true <-> exists error, out = Throw error) /\
    (forall task memories error,
       In (Executed task memories (Throw error)) tr' -> out = Throw error).
Proof.
  assert (Hreturn : forall (v : option Result) (tr' : Trace),
            existsb fatal tr' = false ->
            (forall task memories error,
               ~ In (Executed task memories (Throw error)) tr') ->
            (existsb fatal tr' = true <-> exists error, Return v = @Throw (option Result) error) /\
            (forall task memories error,
               In (Executed task memories (Throw error)) tr' -> Return v = Throw error)).
  { intros v tr' Hf Hn. split.
    - rewrite Hf. split; [discriminate|intros (error & E); discriminate].
    - intros task memories error Hin. destruct (Hn _ _ _ Hin). }
  induction remaining as [|remaining IH]; intros currentTask best w.
  - exists (Return (fst best)), w, []. split; [reflexivity|].
    apply Hreturn; [reflexivity|]. intros task memories error [].
  - cbn [refine]. unfold bind at 1. unfold log at 1, emit at 1.
    unfold bind at 1. unfold call at 1.
    destruct (retrieveMemories memoryModel queryEmbedding 5 0.6 w)
      as [[memories|e] w1].
    2:{ eexists; eexists; eexists; split; [reflexivity|]. simpl. split.
        - split; eauto.
        - intros task ms error [H|[H|[]]]; discriminate. }
    unfold bind at 1. unfold run at 1.
    destruct (executeFunction currentTask memories w1) as [[[r|]|e] w2].
    2:{ eexists; eexists; eexists; split; [reflexivity|]. simpl. split.
        - split; eauto.
        - intros task ms error [H|[H|[H|[]]]]; discriminate. }
    2:{ eexists; eexists; eexists; split; [reflexivity|]. simpl. split.
        - split; eauto.
        - intros task ms error [H|[H|[H|[]]]]; try discriminate.
          now injection H as _ _ <-. }
    assert (Hend : forall (v : option Result) (tail : Trace),
              existsb fatal tail = false ->
              (forall task ms error, ~ In (Executed task ms (Throw error)) tail) ->
              (existsb fatal
                 ([Logged Info "Sequential scaling iteration" []]
                  ++ [Called (RetrieveMemories queryEmbedding 5 0.6) true]
                  ++ [Executed currentTask memories (Return (Some r))] ++ tail) = true
               <-> exists error, Return v = @Throw (option Result) error) /\
              (forall task ms error,
                 In (Executed task ms (Throw error))
                   ([Logged Info "Sequential scaling iteration" []]
                    ++ [Called (RetrieveMemories queryEmbedding 5 0.6) true]
                    ++ [Executed currentTask memories (Return (Some r))] ++ tail) ->
                 Return v = Throw error)).
    { intros v tail Hf Hn. apply Hreturn.
      - simpl. exact Hf.
      - intros task ms error [H|[H|[H|H]]]; try discriminate. exact (Hn _ _ _ H). }
    assert (Hgo : forall (out : Outcome (option Result)) (tail : Trace),
              (existsb fatal tail = true <-> exists error, out = Throw error) ->
              (forall task ms error,
                 In (Executed task ms (Throw error)) tail -> out = Throw error) ->
              forall middle : Trace,
              existsb fatal middle = false ->
              (forall task ms error, ~ In (Executed task ms (Throw error)) middle) ->
              (existsb fatal
                 ([Logged Info "Sequential scaling iteration" []]
                  ++ [Called (RetrieveMemories queryEmbedding 5 0.6) true]
                  ++ [Executed currentTask memories (Return (Some r))]
                  ++ middle ++ tail) = true
               <-> exists error, out = Throw error) /\
              (forall task ms error,
                 In (Executed task ms (Throw error))
                   ([Logged Info "Sequential scaling iteration" []]
                    ++ [Called (RetrieveMemories queryEmbedding 5 0.6) true]
                    ++ [Executed currentTask memories (Return (Some r))]
                    ++ middle ++ tail) ->
                 out = Throw error)).
    { intros out tail Hf Hin middle Hm Hnm. split.
      - simpl. rewrite existsb_app, Hm. simpl. exact Hf.
      - intros task ms error [H|[H|[H|H]]]; try discriminate.
        simpl in H. apply in_app_or in H.
        destruct H as [H|H]; [destruct (Hnm _ _ _ H)|].
        exact (Hin _ _ _ H). }
    destruct (success r && PrimFloat.ltb 0.9 (_scoreTrajectory (Some r))).
    { unfold bind, log, emit, ret.
      eexists; eexists; eexists; split; [reflexivity|].
      apply Hend; [reflexivity|]. intros task ms error [H|[]]. discriminate. }
    destruct reflectFunction as [reflect|].
    + unfold bind_or. unfold call at 1.
      destruct (reflect currentTask (Some r) memories w2) as [[[rho|]|e] w3].
      * destruct (shouldRefine rho).
        -- destruct (IH (JS.spread currentTask (refinedTask rho))
                       (track best (Some r)) w3)
             as (out & w' & tr' & E & Hf & Hin).
           rewrite E. eexists; eexists; eexists; split; [reflexivity|].
           apply (Hgo out tr' Hf Hin
                    [Called (Reflect currentTask (Some r) memories) true]);
             [reflexivity|].
           intros task ms error [H|[]]. discriminate.
        -- unfold bind, log, emit, ret.
           eexists; eexists; eexists; split; [reflexivity|].
           apply Hend; [reflexivity|].
           intros task ms error [H|[H|[]]]; discriminate.
      * unfold bind, log, emit, ret.
        eexists; eexists; eexists; split; [reflexivity|].
        apply Hend; [reflexivity|].
        intros task ms error [H|[H|[]]]; discriminate.
      * unfold bind, log, emit, ret.
        eexists; eexists; eexists; split; [reflexivity|].
        apply Hend; [reflexivity|].
        intros task ms error [H|[H|[]]]; discriminate.
    + destruct (success r).
      * unfold ret.
        eexists; eexists; eexists; split; [reflexivity|].
        apply Hend; [reflexivity|]. intros task ms error [].
      * destruct (IH currentTask (track best (Some r)) w2)
          as (out & w' & tr' & E & Hf & Hin).
        rewrite E. eexists; eexists; eexists; split; [reflexivity|].
        apply (Hgo out tr' Hf Hin []); [reflexivity|].
        intros task ms error [].
Qed.

(** With the switch on, [sequentialScaling] throws exactly when the embedder
    or a retrieval failed, or an executor call threw or resolved to [null],
    in whatever iteration: an exception of the executor is thrown on as it
    is, and the best result found before it is lost. *)
Theorem sequentialScaling_throws_exactly_on_fatal_events
  (task : Task) (executeFunction : @Executor W) (reflectFunction : option (@Reflector W))
  (maxIterations : Z) (w : W) :
  MATTS_SEQUENTIAL_ENABLED config = true ->
  exists out w' tr',
    sequentialScaling config memoryModel embedQuery toText JSON_stringify
      task executeFunction reflectFunction maxIterations w = (out, w', tr') /\
    (existsb fatal tr' = true <-> exists error, out = Throw error) /\
    (forall task' memories error,
       In (Executed task' memories (Throw error)) tr' -> out = Throw error).
Proof.
  intros Hon. unfold sequentialScaling. rewrite Hon. simpl.
  unfold bind at 1. unfold call at 1.
  destruct (embedQuery (queryText toText JSON_stringify task) "RETRIEVAL_QUERY" w)
    as [[queryEmbedding|e] w1].
  2:{ eexists; eexists; eexists; split; [reflexivity|]. simpl. split.
      - split; eauto.
      - intros task' ms error [H|[]]. discriminate. }
  destruct (refine_throws_on_fatal_event executeFunction reflectFunction queryEmbedding
              (Z.to_nat maxIterations) task (None, 0) w1)
    as (out & w' & tr' & E & Hf & Hin).
  unfold bind at 1. rewrite E.
  destruct out as [bestResult|e].
  - unfold bind, log, emit, ret.
    eexists; eexists; eexists; split; [reflexivity|]. split.
    + simpl. rewrite existsb_app. simpl. rewrite orb_false_r.
      split; [intros H; apply Hf in H; destruct H; discriminate
             |intros (error & H); discriminate].
    + intros task' ms error [H|H]; [discriminate|].
      simpl in H. apply in_app_or in H. destruct H as [H|H].
      * discriminate (Hin _ _ _ H).
      * simpl in H. destruct H as [H|[]]. discriminate.
  - eexists; eexists; eexists; split; [reflexivity|]. split.
    + simpl. split; [eauto|]. intros _. apply Hf. eauto.
    + intros task' ms error [H|H]; [discriminate|]. exact (Hin _ _ _ H).
Qed.

End ScalingFailures.

(** The embedder is down: no variant is run. *)
Definition embedderIsDown : Reference.World :=
  Reference.mkWorld [] [] false [] threeMemories true 0
    [Return (Some slowSuccess)].

Lemma parallelScaling_embedderIsDown :
  parallelScaling enabled Reference.memoryModel Reference.embedQuery
    Reference.toText Reference.stringify Reference.task Reference.scripted 3
    embedderIsDown
  = (Throw "Embedding failed", embedderIsDown,
     [Called (EmbedQuery
                (queryText Reference.toText Reference.stringify Reference.task)
                "RETRIEVAL_QUERY") false]).
Proof.
  apply (proj1 (parallelScaling_propagates_embedder_and_retrieval_failures enabled
                  Reference.memoryModel Reference.embedQuery Reference.toText
                  Reference.stringify Reference.task Reference.scripted 3
                  embedderIsDown eq_refl)).
  reflexivity.
Defined.

(** A first result that succeeds without reaching 0.9, a reflector that asks
    for a refinement, and an executor that throws on the second call. *)
Lemma sequentialScaling_loses_result_when_executor_throws :
  exists w' tr',
    sequentialScaling enabled Reference.memoryModel Reference.embedQuery
      Reference.toText Reference.stringify Reference.task Reference.scripted
      (Some Reference.alwaysRefine) 3
      (scene [] [Return (Some slowSuccess); Throw "Execution failed"])
    = (Throw "Execution failed", w', tr').
Proof.
  destruct (sequentialScaling_throws_exactly_on_fatal_events enabled
              Reference.memoryModel Reference.embedQuery Reference.toText
              Reference.stringify Reference.task Reference.scripted
              (Some Reference.alwaysRefine) 3
              (scene [] [Return (Some slowSuccess); Throw "Execution failed"]) eq_refl)
    as (out & w' & tr' & E & _ & Hin).
  exists w', tr'. rewrite E. f_equal. f_equal.
  apply (Hin Reference.task [] "Execution failed").
  assert (Etr : tr' = traceOf
            (sequentialScaling enabled Reference.memoryModel Reference.embedQuery
               Reference.toText Reference.stringify Reference.task Reference.scripted
               (Some Reference.alwaysRefine) 3)
            (scene [] [Return (Some slowSuccess); Throw "Execution failed"]))
    by (unfold traceOf; now rewrite E).
  rewrite Etr. vm_compute. tauto.
Defined.

End MemoryTestTimeScaling.

(** ** The build memory service: class [BuildMemoryService] *)
Module BuildMemoryService.

Import Effects.

(** The build result handed to [extractFromBuildFailure].  Optional fields
    that are missing are [None]; a commit is given by its [message]. *)
Record BuildResult : Type := mkBuildResult {
  status : string;
  branch : string;
  duration : option string;
  recentCommits : option (list string);
  errorLogs : option string;
  buildId : string
}.

(** [_truncateContent] *)
Definition _truncateContent (content : option string) (maxLength : nat) : string :=
  match content with
  | None => "N/A"
  | Some text =>
      if negb (JS.str_truthy text) then "N/A"
      else if (String.length text <=? maxLength)%nat then text
      else (String.substring 0 maxLength text ++ "
... [truncated]")%string
  end.

(** The double quote, for the templates of the prompts. *)
Definition quote : string := String (Ascii.ascii_of_nat 34) EmptyString.

(** [(recentCommits || []).slice(0, 5).map(c => `- ${c.message}`).join('\n')
     || 'No commit info'] *)
Definition commitLines (commits : option (list string)) : string :=
  let shown := firstn 5 (match commits with Some cs => cs | None => [] end) in
  let joined := String.concat "
" (map (fun message => ("- " ++ message)%string) shown) in
  if JS.str_truthy joined then joined else "No commit info".

(** A computation without effect on the environment, which may throw. *)
Definition lift {W A : Type} (o : Outcome A) : M W A := fun w => (o, w, []).

Definition andThen {A B : Type} (o : Outcome A) (k : A -> Outcome B) : Outcome B :=
  match o with
  | Return a => k a
  | Throw e => Throw e
  end.

Definition nullRead (name : string) : string :=
  ("Cannot read properties of null (reading '" ++ name ++ "')")%string.

(** [value.name] for the names the service reads ([title], [description],
    [content], [category]): reading them on [null] throws; arrays, strings,
    numbers and booleans have no such property. *)
Definition property (name : string) (value : Json) : Outcome (option Json) :=
  match value with
  | JNull => Throw (nullRead name)
  | JObj fields =>
      Return (option_map snd (find (fun field => String.eqb (fst field) name) fields))
  | _ => Return None
  end.

(** [memory.title?.substring(0, 50)], which every log call of [_storeMemory]
    evaluates: it throws on a [null] memory, and on a title that is neither
    a string nor nullish, since such a value has no [substring] method. *)
Definition titlePreview (memory : Candidate) : Outcome unit :=
  match property "title" memory with
  | Throw error => Throw error
  | Return None | Return (Some JNull) | Return (Some (JStr _)) => Return tt
  | Return (Some _) => Throw "memory.title?.substring is not a function"
  end.

(** [memories.length], read for the log. *)
Definition lengthRead (memories : Json) : Outcome unit :=
  match memories with
  | JNull => Throw (nullRead "length")
  | _ => Return tt
  end.

(** [for (const memory of memories)]: an array gives its elements and a
    string its characters; nothing else can be iterated. *)
Definition iterate (memories : Json) : Outcome (list Candidate) :=
  match memories with
  | JArr items => Return items
  | JStr text => Return (map (fun c => JStr (String c "")) (list_ascii_of_string text))
  | _ => Throw "memories is not iterable"
  end.

(** What reading the titles of the candidates in turn comes to. *)
Fixpoint titlesRead (memories : list Candidate) : Outcome unit :=
  match memories with
  | [] => Return tt
  | memory :: rest => andThen (titlePreview memory) (fun _ => titlesRead rest)
  end.

(** What going through a parsed answer comes to: its length is read, it is
    iterated, and the title of each element is read. *)
Definition walked (memories : Json) : Outcome unit :=
  andThen (lengthRead memories) (fun _ => andThen (iterate memories) titlesRead).

Section Extraction.
Context {W : Type} (memoryModel : MemoryModel W)
  (configGet : string -> string -> W -> Outcome (option string) * W)
  (generateContent : string -> string -> W -> Outcome string * W)
  (embedContent : string -> W -> Outcome (list float) * W)
  (parseMemories : string -> Outcome Json)
  (validateMemory : Candidate -> string -> Outcome bool)
  (validateEmbedding : list float -> Outcome bool)
  (toText : option Json -> Outcome string).
Local Open Scope js_scope.

(** The prompt of [extractFromBuildFailure]. *)
Definition buildFailurePrompt (buildResult : BuildResult) : string :=
  ("You are analyzing a failed CI/CD build to extract lessons about what breaks builds.

**Build Details:**
- Status: " ++ status buildResult
   ++ "
- Branch: " ++ branch buildResult
   ++ "
- Duration: " ++ (match duration buildResult with
         | Some d => if JS.str_truthy d then d else "unknown"
         | None => "unknown"
         end)
   ++ "

**Recent Commits:**
" ++ commitLines (recentCommits buildResult)
   ++ "

**Error Logs:**
```
" ++ _truncateContent (errorLogs buildResult) 1500
   ++ "
```

**Instructions:**
Analyze why this build failed. Extract lessons to prevent similar failures.

Focus on:
1. Common causes of build failures
2. Code patterns that break builds
3. Configuration issues to avoid
4. Test failures and their root causes

Extract at most 2 memory items.

Output Format (JSON array):
[
  {
    " ++ quote ++ "title" ++ quote ++ ": " ++ quote ++ "Brief identifier (5-7 words)"
   ++ quote
   ++ ",
    " ++ quote ++ "description" ++ quote ++ ": " ++ quote ++ "One-sentence summary"
   ++ quote
   ++ ",
    " ++ quote ++ "content" ++ quote ++ ": " ++ quote
   ++ "Detailed guidance (2-3 sentences)" ++ quote
   ++ ",
    " ++ quote ++ "category" ++ quote ++ ": " ++ quote ++ "build_failure" ++ quote
   ++ "
  }
]

Respond ONLY with the JSON array, no additional text.")%string.

(** [getGeminiModelName] *)
Definition getGeminiModelName : M W string :=
  modelName <- call (ConfigGet "GEMINI_MODEL") (configGet "config" "GEMINI_MODEL") ;;
  match modelName with
  | Some name =>
      if JS.str_truthy name then ret name
      else throw "GEMINI_MODEL not configured in Firestore agent/config"
  | None => throw "GEMINI_MODEL not configured in Firestore agent/config"
  end.

(** [_extractMemories]: the model name, the generation, and
    [JSON.parse(this._extractJSON(responseText))], which [parseMemories]
    stands for. *)
Definition _extractMemories (prompt : string) : M W Json :=
  modelName <- getGeminiModelName ;;
  responseText <-
    call (GenerateContent modelName prompt) (generateContent modelName prompt) ;;
  match parseMemories responseText with
  | Return memories => ret memories
  | Throw error => throw error
  end.

(** [`${memory.title}. ${memory.description}. ${memory.content}`]: each
    field is read and converted in turn; [toText] is the conversion of the
    template literal. *)
Definition embeddingText (memory : Candidate) : Outcome string :=
  andThen (property "title" memory) (fun title =>
  andThen (toText title) (fun titleText =>
  andThen (property "description" memory) (fun description =>
  andThen (toText description) (fun descriptionText =>
  andThen (property "content" memory) (fun content =>
  andThen (toText content) (fun contentText =>
  Return (titleText ++ ". " ++ descriptionText ++ ". " ++ contentText)%string)))))).

(** A log call of [_storeMemory]: its argument holds
    [memory.title?.substring(0, 50)], which is evaluated first. *)
Definition logWithTitle (level : Level) (message : string) (about : list string)
  (memory : Candidate) : M W unit :=
  lift (titlePreview memory) ;;; log level message about.

(** [_storeMemory]: validation, embedding, validation of the embedding,
    insertion; a failure is caught and logged, and the log call of the
    [catch] block reads the title as the others do.  [validateMemory] and
    [validateEmbedding] give the [valid] field of the validator's answer, or
    the error the validator threw. *)
Definition _storeMemory (memory : Candidate) (source : string) : M W unit :=
  try_catch
    (valid <- lift (validateMemory memory source) ;;
     if negb valid
     then logWithTitle Warn "Build memory failed validation, skipping" [source] memory
     else
       text <- lift (embeddingText memory) ;;
       embedding <- call (EmbedContent text) (embedContent text) ;;
       embeddingValid <- lift (validateEmbedding embedding) ;;
       if negb embeddingValid
       then logWithTitle Warn "Build memory embedding failed validation, skipping" []
              memory
       else
         call (AddMemory memory source embedding)
           (addMemory memoryModel memory source embedding) ;;;
         logWithTitle Debug "Build memory stored successfully" [source] memory)
    (fun error => logWithTitle Error "Failed to store build memory" [error] memory).

Definition extractFromBuildFailure (buildResult : BuildResult) : M W Json :=
  if String.eqb (status buildResult) "SUCCESS"
  then
    log Debug "Skipping memory extraction for successful build" [branch buildResult] ;;;
    ret (JArr [])
  else
    let prompt := buildFailurePrompt buildResult in
    try_catch
      (memories <- _extractMemories prompt ;;
       lift (lengthRead memories) ;;;
       log Info "Extracted memories from build failure"
         [status buildResult; branch buildResult] ;;;
       items <- lift (iterate memories) ;;
       forEach items (fun memory => _storeMemory memory "build_failure") ;;;
       ret memories)
      (fun error =>
         log Error "Failed to extract memories from build failure"
           [error; status buildResult] ;;;
         ret (JArr [])).

(** C10: for a build result whose status is ['SUCCESS'],
    [extractFromBuildFailure] returns the empty list at once: the environment
    is left as it was, and the only thing observed is one debug record; the
    text generator, the embedder and the repository are not called. *)
Theorem extractFromBuildFailure_skips_successful_build
  (buildResult : BuildResult) (w : W) :
  status buildResult = "SUCCESS" ->
  extractFromBuildFailure buildResult w
  = (Return (JArr []), w,
     [Logged Debug "Skipping memory extraction for successful build"
        [branch buildResult]]) /\
  existsb touchesCollaborator (traceOf (extractFromBuildFailure buildResult) w) = false.
Proof.
  intros Hstatus.
  assert (E : extractFromBuildFailure buildResult w
              = (Return (JArr []), w,
                 [Logged Debug "Skipping memory extraction for successful build"
                    [branch buildResult]])).
  { unfold extractFromBuildFailure. rewrite Hstatus. reflexivity. }
  split; [exact E|]. unfold traceOf. rewrite E. reflexivity.
Qed.

(** A computation whose trace starts with a call [c]. *)
Definition startsWith {A : Type} (c : Call) (m : M W A) : Prop :=
  forall w, exists returned later, traceOf m w = Called c returned :: later.

Lemma startsWith_call {A : Type} (c : Call) (f : W -> Outcome A * W) :
  startsWith c (call c f).
Proof.
  intros w. unfold traceOf, call. destruct (f w) as [[a|e] w1]; simpl; eauto.
Qed.

Lemma startsWith_bind {A B : Type} (c : Call) (m : M W A) (k : A -> M W B) :
  startsWith c m -> startsWith c (bind m k).
Proof.
  intros H w. destruct (H w) as (returned & later & E).
  unfold traceOf, bind in *.
  destruct (m w) as [[[a|e] w1] tr1]; simpl in *; subst tr1.
  - destruct (k a w1) as [[o w2] tr2]. simpl. eauto.
  - eauto.
Qed.

Lemma startsWith_bind_or {A B : Type} (c : Call) (m : M W A)
  (handler : string -> M W B) (k : A -> M W B) :
  startsWith c m -> startsWith c (bind_or m handler k).
Proof.
  intros H w. destruct (H w) as (returned & later & E).
  unfold traceOf, bind_or in *.
  destruct (m w) as [[[a|e] w1] tr1]; simpl in *; subst tr1.
  - destruct (k a w1) as [[o w2] tr2]. simpl. eauto.
  - destruct (handler e w1) as [[o w2] tr2]. simpl. eauto.
Qed.

(** For every other status the first thing the call does is to ask the
    configuration for the model of the text generator. *)
Lemma extractFromBuildFailure_otherwise_asks_for_model
  (buildResult : BuildResult) (w : W) :
  String.eqb (status buildResult) "SUCCESS" = false ->
  exists returned later,
    traceOf (extractFromBuildFailure buildResult) w
    = Called (ConfigGet "GEMINI_MODEL") returned :: later.
Proof.
  intros Hstatus. unfold extractFromBuildFailure. rewrite Hstatus.
  unfold try_catch. revert w.
  apply startsWith_bind_or, startsWith_bind.
  unfold _extractMemories. apply startsWith_bind.
  unfold getGeminiModelName. apply startsWith_bind, startsWith_call.
Qed.

End Extraction.

(** A successful build, and collaborators that always answer. *)
Definition successfulBuild : BuildResult :=
  mkBuildResult "SUCCESS" "main" None None None "build-1".

Definition answeringConfig (_ _ : string) (w : Reference.World)
  : Outcome (option string) * Reference.World := (Return (Some "gemini"), w).

Definition answeringGenerator (_ _ : string) (w : Reference.World)
  : Outcome string * Reference.World := (Return "[]", w).

Definition answeringEmbedder (_ : string) (w : Reference.World)
  : Outcome (list float) * Reference.World := (Return [1; 0; 0]%float, w).

(** The conversion of a template literal for the values the candidates
    below hold: strings, [null], booleans, missing fields, and objects
    without a conversion of their own.  Numbers and arrays do not occur
    there, and their conversion is not defined here. *)
Definition plainText (value : option Json) : Outcome string :=
  match value with
  | None => Return "undefined"
  | Some JNull => Return "null"
  | Some (JBool true) => Return "true"
  | Some (JBool false) => Return "false"
  | Some (JStr text) => Return text
  | Some (JObj _) => Return "[object Object]"
  | Some (JNum _) | Some (JArr _) => Throw "conversion not defined"
  end.

Lemma extractFromBuildFailure_successfulBuild :
  extractFromBuildFailure Reference.memoryModel answeringConfig answeringGenerator
    answeringEmbedder (fun _ => Return (JArr [])) (fun _ _ => Return true)
    (fun _ => Return true) plainText successfulBuild (Reference.world [])
  = (Return (JArr []), Reference.world [],
     [Logged Debug "Skipping memory extraction for successful build" ["main"]]) /\
  existsb touchesCollaborator
    (traceOf
       (extractFromBuildFailure Reference.memoryModel answeringConfig answeringGenerator
          answeringEmbedder (fun _ => Return (JArr [])) (fun _ _ => Return true)
          (fun _ => Return true) plainText successfulBuild) (Reference.world [])) = false.
Proof.
  apply (extractFromBuildFailure_skips_successful_build Reference.memoryModel
           answeringConfig answeringGenerator answeringEmbedder
           (fun _ => Return (JArr [])) (fun _ _ => Return true) (fun _ => Return true)
           plainText successfulBuild (Reference.world [])).
  reflexivity.
Defined.

(** *** [_truncateContent] *)

Lemma length_append (s1 s2 : string) :
  String.length (s1 ++ s2)%string = (String.length s1 + String.length s2)%nat.
Proof. induction s1 as [|c s1 IH]; simpl; auto. Qed.

Lemma length_substring_0 (n : nat) : forall s : string,
  (n <= String.length s)%nat -> String.length (String.substring 0 n s) = n.
Proof.
  induction n as [|n IH]; intros [|c s] H; simpl in *; try lia; auto.
  rewrite IH; lia.
Qed.

Lemma substring_0_append (n : nat) : forall s t : string,
  (n <= String.length s)%nat ->
  String.substring 0 n (String.substring 0 n s ++ t)%string = String.substring 0 n s.
Proof.
  assert (Hzero : forall u : string, String.substring 0 0 u = "")
    by (intros [|c u]; reflexivity).
  induction n as [|n IH]; intros s t H.
  - now rewrite !Hzero.
  - destruct s as [|c s]; simpl in *; [lia|].
    rewrite IH; [reflexivity|lia].
Qed.

(** What [_truncateContent] hands to the prompt: never the empty string, and
    never more than [maxLength + 16] characters (3 for ['N/A']); a text of at
    most [maxLength] characters is passed unchanged; a longer one is cut to
    its first [maxLength] characters, followed by the 16 characters of the
    truncation mark. *)
Theorem truncateContent_bounds (content : option string) (maxLength : nat) :
  _truncateContent content maxLength <> "" /\
  (String.length (_truncateContent content maxLength) <= Nat.max 3 (maxLength + 16))%nat /\
  (forall text, content = Some text -> text <> "" ->
     (String.length text <= maxLength)%nat ->
     _truncateContent content maxLength = text) /\
  (forall text, content = Some text -> (maxLength < String.length text)%nat ->
     String.length (_truncateContent content maxLength) = (maxLength + 16)%nat /\
     String.substring 0 maxLength (_truncateContent content maxLength)
     = String.substring 0 maxLength text) /\
  (content = None \/ content = Some "" -> _truncateContent content maxLength = "N/A").
Proof.
  unfold _truncateContent, JS.str_truthy.
  destruct content as [text|].
  2:{ repeat match goal with |- _ /\ _ => split end; try discriminate; auto.
      cbn -[Nat.max Nat.add]. lia. }
  destruct text as [|c text].
  { repeat match goal with |- _ /\ _ => split end; try discriminate; auto.
    - cbn -[Nat.max Nat.add]. lia.
    - intros text E Hne. injection E as <-. now destruct Hne.
    - intros text E H. injection E as <-. simpl in H. lia. }
  cbn [String.length Nat.eqb negb].
  destruct (S (String.length text) <=? maxLength)%nat eqn:Hle.
  - apply Nat.leb_le in Hle.
    repeat match goal with |- _ /\ _ => split end; try discriminate.
    + cbn -[Nat.max Nat.add]. lia.
    + intros t E _ _. now injection E as <-.
    + intros t E H. injection E as <-. simpl in H. lia.
    + intros [E|E]; discriminate.
  - apply Nat.leb_gt in Hle.
    assert (Hlen : String.length
                     (String.substring 0 maxLength (String c text) ++ "
... [truncated]")%string = (maxLength + 16)%nat).
    { rewrite length_append, length_substring_0 by (simpl; lia). reflexivity. }
    repeat match goal with |- _ /\ _ => split end.
    + intros E. rewrite E in Hlen. simpl in Hlen. lia.
    + rewrite Hlen. lia.
    + intros t E _ H. injection E as <-. simpl in H. lia.
    + intros t E _. injection E as <-. split; [exact Hlen|].
      apply substring_0_append. simpl. lia.
    + intros [E|E]; discriminate.
Qed.

(** *** Storing and extracting build memories *)

(** The memories the repository was asked to add, with source and
    embedding. *)
Definition addedMemories (tr : Trace) : list (Candidate * string * list float) :=
  flat_map (fun e => match e with
                     | Called (AddMemory c source vector) _ => [(c, source, vector)]
                     | _ => [] end) tr.

(** A rejected code modification; [afterContent] and [beforeContent] may be
    missing. *)
Record Modification : Type := mkModification {
  filePath : string;
  operation : string;
  commitMessage : string;
  afterContent : option string;
  beforeContent : option string
}.

Section Rejection.
Context {W : Type} (memoryModel : MemoryModel W)
  (configGet : string -> string -> W -> Outcome (option string) * W)
  (generateContent : string -> string -> W -> Outcome string * W)
  (embedContent : string -> W -> Outcome (list float) * W)
  (parseMemories : string -> Outcome Json)
  (validateMemory : Candidate -> string -> Outcome bool)
  (validateEmbedding : list float -> Outcome bool)
  (toText : option Json -> Outcome string).
Local Open Scope js_scope.

(** The prompt of [extractFromRejection]. *)
Definition rejectionPrompt (modification : Modification)
  (rejectionReason : option string) : string :=
  ("You are analyzing a rejected code modification to learn what to avoid in future code changes.

**Modification Details:**
- File: " ++ filePath modification
   ++ "
- Operation: " ++ operation modification
   ++ "
- Commit Message: " ++ commitMessage modification
   ++ "
- Rejection Reason: " ++ (match rejectionReason with
         | Some reason => if JS.str_truthy reason then reason else "Not specified"
         | None => "Not specified"
         end)
   ++ "

**Proposed Code Change:**
```
" ++ _truncateContent (afterContent modification) 2000
   ++ "
```

**Original Code (if update):**
```
" ++ _truncateContent (beforeContent modification) 1500
   ++ "
```

**Instructions:**
Analyze why this code change was rejected. Extract lessons about:
1. Patterns to avoid in generated code
2. Common mistakes that lead to rejection
3. What makes code changes unacceptable
4. How to improve code quality

Extract at most 2 memory items. Each should be:
- **Root-cause focused**: Identify the underlying issue
- **Preventative**: Help avoid similar rejections
- **Generalizable**: Apply to future code generation

Output Format (JSON array):
[
  {
    " ++ quote ++ "title" ++ quote ++ ": " ++ quote ++ "Brief identifier (5-7 words)"
   ++ quote
   ++ ",
    " ++ quote ++ "description" ++ quote ++ ": " ++ quote
   ++ "One-sentence summary of what to avoid" ++ quote
   ++ ",
    " ++ quote ++ "content" ++ quote ++ ": " ++ quote
   ++ "Detailed guidance on preventing this issue (2-3 sentences)" ++ quote
   ++ ",
    " ++ quote ++ "category" ++ quote ++ ": " ++ quote ++ "code_rejection" ++ quote
   ++ "
  }
]

Respond ONLY with the JSON array, no additional text.")%string.

Definition extractFromRejection (modification : Modification)
  (rejectionReason : option string) : M W Json :=
  let prompt := rejectionPrompt modification rejectionReason in
  try_catch
    (memories <- _extractMemories configGet generateContent parseMemories prompt ;;
     lift (lengthRead memories) ;;;
     log Info "Extracted memories from code rejection"
       (filePath modification
        :: match rejectionReason with
           | Some reason => [String.substring 0 100 reason]
           | None => []
           end) ;;;
     items <- lift (iterate memories) ;;
     forEach items
       (fun memory =>
          _storeMemory memoryModel embedContent validateMemory validateEmbedding toText
            memory "build_rejection") ;;;
     ret memories)
    (fun error =>
       log Error "Failed to extract memories from rejection"
         [error; filePath modification] ;;;
       ret (JArr [])).

Abbreviation storeMemory :=
  (_storeMemory memoryModel embedContent validateMemory validateEmbedding toText).
Abbreviation extractMemories := (_extractMemories configGet generateContent parseMemories).

(** What one call of [_storeMemory] asks of the embedder and of the
    repository: the memory it asks to add, if any, and the environment it
    leaves. *)
Definition storeOne (memory : Candidate) (source : string) (w : W)
  : list (Candidate * string * list float) * W :=
  match validateMemory memory source with
  | Return true =>
      match embeddingText toText memory with
      | Return text =>
          match embedContent text w with
          | (Return vector, w1) =>
              match validateEmbedding vector with
              | Return true =>
                  ([(memory, source, vector)],
                   snd (addMemory memoryModel memory source vector w1))
              | _ => ([], w1)
              end
          | (Throw _, w1) => ([], w1)
          end
      | Throw _ => ([], w)
      end
  | _ => ([], w)
  end.

(** The same for the loop over the candidates, which ends with the first
    candidate whose title cannot be read, once that candidate has been dealt
    with. *)
Fixpoint storeEach (memories : list Candidate) (source : string) (w : W)
  : list (Candidate * string * list float) * W :=
  match memories with
  | [] => ([], w)
  | memory :: rest =>
      let (added, w1) := storeOne memory source w in
      match titlePreview memory with
      | Return _ =>
          let (more, w2) := storeEach rest source w1 in (added ++ more, w2)
      | Throw _ => (added, w1)
      end
  end.

(** The same for a parsed answer: nothing is stored when its length cannot
    be read or it cannot be iterated. *)
Definition storeParsed (memories : Json) (source : string) (w : W)
  : list (Candidate * string * list float) * W :=
  match andThen (lengthRead memories) (fun _ => iterate memories) with
  | Return items => storeEach items source w
  | Throw _ => ([], w)
  end.

Lemma addedMemories_app (tr1 tr2 : Trace) :
  addedMemories (tr1 ++ tr2) = addedMemories tr1 ++ addedMemories tr2.
Proof. unfold addedMemories. apply flat_map_app. Qed.

Lemma touches_app (tr1 tr2 : Trace) :
  existsb touchesCollaborator (tr1 ++ tr2)
  = existsb touchesCollaborator tr1 || existsb touchesCollaborator tr2.
Proof. apply existsb_app. Qed.

(** A log call of [_storeMemory] ends as the reading of the title does, and
    touches nothing. *)
Lemma logWithTitle_run (level : Level) (message : string) (about : list string)
  (memory : Candidate) (w : W) :
  exists tr,
    logWithTitle level message about memory w = (titlePreview memory, w, tr) /\
    addedMemories tr = [] /\ existsb touchesCollaborator tr = false.
Proof.
  unfold logWithTitle, bind, lift, log, emit.
  destruct (titlePreview memory) as [[]|e]; eexists; split; try reflexivity; split; reflexivity.
Qed.

(** The [catch] block of [_storeMemory]. *)
Lemma storeMemory_caught (error : string) (memory : Candidate) (w : W) :
  exists tr,
    logWithTitle (W := W) Error "Failed to store build memory" [error] memory w
    = (titlePreview memory, w, tr) /\
    addedMemories tr = [] /\ existsb touchesCollaborator tr = false.
Proof. apply logWithTitle_run. Qed.

Ltac added_settled :=
  unfold addedMemories in *; simpl; rewrite ?flat_map_app; simpl;
  repeat match goal with H : flat_map _ _ = [] |- _ => rewrite H end;
  reflexivity.

Ltac untouched :=
  rewrite ?touches_app;
  repeat match goal with H : existsb touchesCollaborator _ = false |- _ => rewrite H end;
  reflexivity.

(** The [try] block has thrown [error] in the environment [w0]. *)
Ltac caught error memory w0 :=
  let tr := fresh "tr" in
  let E := fresh "E" in
  let Hadd := fresh "Hadd" in
  let Htouch := fresh "Htouch" in
  destruct (storeMemory_caught error memory w0) as (tr & E & Hadd & Htouch);
  rewrite E; eexists; eexists; split; [reflexivity|].

(** The [try] block ends with a log call in the environment [w0]. *)
Ltac logged level message about memory w0 :=
  let tr := fresh "tr" in
  let E := fresh "E" in
  let Hadd := fresh "Hadd" in
  let Htouch := fresh "Htouch" in
  let e0 := fresh "e" in
  let Htitle := fresh "Htitle" in
  let tr2 := fresh "tr" in
  let E2 := fresh "E" in
  let Hadd2 := fresh "Hadd" in
  let Htouch2 := fresh "Htouch" in
  destruct (logWithTitle_run level message about memory w0) as (tr & E & Hadd & Htouch);
  rewrite E; cbn [app];
  destruct (titlePreview memory) as [[]|e0] eqn:Htitle;
  [ unfold ret; eexists; eexists; split; [reflexivity|]
  | destruct (storeMemory_caught e0 memory w0) as (tr2 & E2 & Hadd2 & Htouch2);
    rewrite Htitle in E2; rewrite E2; eexists; eexists; split; [reflexivity|] ].

Lemma storeMemory_run (memory : Candidate) (source : string) (w : W) :
  exists w' tr',
    storeMemory memory source w = (titlePreview memory, w', tr') /\
    (addedMemories tr', w') = storeOne memory source w /\
    (validateMemory memory source <> Return true ->
     existsb touchesCollaborator tr' = false).
Proof.
  unfold _storeMemory, storeOne, try_catch, bind_or.
  unfold bind at 1. unfold lift at 1.
  destruct (validateMemory memory source) as [[|]|e1]; cbn [negb].
  3:{ caught e1 memory w. split; [f_equal; added_settled|intros _; untouched]. }
  2:{ logged Warn "Build memory failed validation, skipping" [source] memory w;
        (split; [f_equal; added_settled|intros _; untouched]). }
  unfold bind at 1. unfold lift at 1.
  destruct (embeddingText toText memory) as [text|e2].
  2:{ caught e2 memory w. split; [f_equal; added_settled|intros H; now elim H]. }
  unfold bind at 1. unfold call at 1.
  destruct (embedContent text w) as [[vector|e3] w1].
  2:{ caught e3 memory w1. split; [f_equal; added_settled|intros H; now elim H]. }
  unfold bind at 1. unfold lift at 1.
  destruct (validateEmbedding vector) as [[|]|e4]; cbn [negb].
  3:{ caught e4 memory w1. split; [f_equal; added_settled|intros H; now elim H]. }
  2:{ logged Warn "Build memory embedding failed validation, skipping"
        (@nil string) memory w1;
        (split; [f_equal; added_settled|intros H; now elim H]). }
  unfold bind at 1. unfold call at 1.
  destruct (addMemory memoryModel memory source vector w1) as [[[]|e5] w2]; cbn [snd].
  2:{ caught e5 memory w2. split; [f_equal; added_settled|intros H; now elim H]. }
  logged Debug "Build memory stored successfully" [source] memory w2;
    (split; [f_equal; added_settled|intros H; now elim H]).
Qed.

(** What [storeOne] adds: nothing, or the memory itself, validated, with the
    embedding returned for its text, validated too. *)
Lemma storeOne_added (memory : Candidate) (source : string) (w : W) :
  fst (storeOne memory source w) = [] \/
  exists text vector,
    fst (storeOne memory source w) = [(memory, source, vector)] /\
    validateMemory memory source = Return true /\
    embeddingText toText memory = Return text /\
    fst (embedContent text w) = Return vector /\
    validateEmbedding vector = Return true.
Proof.
  unfold storeOne.
  destruct (validateMemory memory source) as [[|]|e1]; [|now left|now left].
  destruct (embeddingText toText memory) as [text|e2]; [|now left].
  destruct (embedContent text w) as [[vector|e3] w1] eqn:Hembed; [|now left].
  destruct (validateEmbedding vector) as [[|]|e4] eqn:Hve; [|now left|now left].
  right. exists text, vector. rewrite Hembed. auto.
Qed.

(** A memory that does not pass validation leaves the environment as it
    was. *)
Lemma storeOne_skips (memory : Candidate) (source : string) (w : W) :
  validateMemory memory source <> Return true -> storeOne memory source w = ([], w).
Proof.
  unfold storeOne. intros H.
  destruct (validateMemory memory source) as [[|]|e1]; [now elim H|reflexivity..].
Qed.

(** [_storeMemory] ends as the reading of [memory.title?.substring(0, 50)]
    does: it rejects exactly when the memory is [null] or its title is
    neither a string nor nullish, and swallows every other failure.  What it
    asks the repository to add, and the environment it leaves, are those of
    [storeOne]: it asks for the memory to be added when the memory passes
    validation, the embedder returns an embedding for its text and the
    embedding passes validation, and for nothing otherwise; a memory that
    does not pass validation reaches neither the embedder nor the
    repository. *)
Theorem storeMemory_stores_only_validated_memories
  (memory : Candidate) (source : string) (w : W) :
  exists w' tr',
    storeMemory memory source w = (titlePreview memory, w', tr') /\
    (addedMemories tr', w') = storeOne memory source w /\
    (validateMemory memory source <> Return true ->
     w' = w /\ existsb touchesCollaborator tr' = false) /\
    (addedMemories tr' = [] \/
     exists text vector,
       addedMemories tr' = [(memory, source, vector)] /\
       validateMemory memory source = Return true /\
       embeddingText toText memory = Return text /\
       fst (embedContent text w) = Return vector /\
       validateEmbedding vector = Return true) /\
    (forall text vector w1,
       validateMemory memory source = Return true ->
       embeddingText toText memory = Return text ->
       embedContent text w = (Return vector, w1) ->
       validateEmbedding vector = Return true ->
       addedMemories tr' = [(memory, source, vector)] /\
       w' = snd (addMemory memoryModel memory source vector w1)).
Proof.
  destruct (storeMemory_run memory source w) as (w' & tr' & E & Hpinned & Htouch).
  exists w', tr'. split; [exact E|]. split; [exact Hpinned|].
  assert (Hadded : addedMemories tr' = fst (storeOne memory source w))
    by now rewrite <- Hpinned.
  repeat match goal with |- _ /\ _ => split end.
  - intros Hv. split; [|now apply Htouch].
    rewrite (storeOne_skips memory source w Hv) in Hpinned. now injection Hpinned.
  - rewrite Hadded. apply storeOne_added.
  - intros text vector w1 Hv Htext Hembed Hve.
    unfold storeOne in Hpinned. rewrite Hv, Htext, Hembed, Hve in Hpinned.
    now injection Hpinned.
Qed.

(** The loop over the candidates ends as the reading of their titles in turn
    does, and stores what [storeEach] says. *)
Lemma store_loop_run (source : string) (memories : list Candidate) : forall (w : W),
  exists w' tr',
    forEach memories (fun memory => storeMemory memory source) w
    = (titlesRead memories, w', tr') /\
    (addedMemories tr', w') = storeEach memories source w.
Proof.
  induction memories as [|memory rest IH]; intros w; cbn [forEach titlesRead storeEach].
  - exists w, []. split; reflexivity.
  - unfold bind.
    destruct (storeMemory_run memory source w) as (w1 & tr1 & E1 & P1 & _).
    rewrite E1, <- P1.
    destruct (titlePreview memory) as [[]|e]; cbn [andThen].
    + destruct (IH w1) as (w2 & tr2 & E2 & P2). rewrite E2, <- P2.
      exists w2, (tr1 ++ tr2). split; [reflexivity|].
      now rewrite addedMemories_app.
    + exists w1, tr1. split; reflexivity.
Qed.

(** Whatever [storeEach] adds is a candidate of the list, validated together
    with its embedding, under the source given. *)
Lemma storeEach_added (source : string) (memories : list Candidate) :
  forall (w : W) c s vector,
    In (c, s, vector) (fst (storeEach memories source w)) ->
    In c memories /\ s = source /\
    validateMemory c source = Return true /\ validateEmbedding vector = Return true.
Proof.
  induction memories as [|memory rest IH]; intros w c s vector Hin;
    cbn [storeEach] in Hin.
  - destruct Hin.
  - assert (Hfirst : In (c, s, vector) (fst (storeOne memory source w)) ->
              In c (memory :: rest) /\ s = source /\
              validateMemory c source = Return true /\
              validateEmbedding vector = Return true).
    { intros H.
      destruct (storeOne_added memory source w)
        as [H1|(text & v & H1 & Hv & _ & _ & Hve)]; rewrite H1 in H; [destruct H|].
      destruct H as [E|[]]. injection E as <- <- <-. simpl. auto. }
    destruct (storeOne memory source w) as [added w1].
    destruct (titlePreview memory) as [[]|e].
    + specialize (IH w1 c s vector).
      destruct (storeEach rest source w1) as [more w2]. cbn [fst] in *.
      apply in_app_or in Hin. destruct Hin as [Hin|Hin]; [auto|].
      destruct (IH Hin) as (Hc & Hrest). split; [now right|exact Hrest].
    + auto.
Qed.

Lemma extractMemories_run (prompt : string) (w : W) :
  (exists memories w1 tr1 response,
     extractMemories prompt w = (Return memories, w1, tr1) /\
     parseMemories response = Return memories /\ addedMemories tr1 = []) \/
  (exists error w1 tr1,
     extractMemories prompt w = (Throw error, w1, tr1) /\ addedMemories tr1 = []).
Proof.
  set (r := extractMemories prompt w).
  assert (Hr : r = extractMemories prompt w) by reflexivity.
  clearbody r.
  unfold _extractMemories, getGeminiModelName, bind, call, ret, throw in Hr.
  destruct (configGet "config" "GEMINI_MODEL" w) as [[[name|]|e] w1].
  2,3: (right; eexists; eexists; eexists; split; [exact Hr|reflexivity]).
  destruct (JS.str_truthy name).
  2:{ right. eexists; eexists; eexists; split; [exact Hr|reflexivity]. }
  destruct (generateContent name prompt w1) as [[responseText|e] w2].
  2:{ right. eexists; eexists; eexists; split; [exact Hr|reflexivity]. }
  destruct (parseMemories responseText) as [memories|e] eqn:Hparse.
  - left. exists memories. eexists; eexists; exists responseText.
    split; [exact Hr|]. split; [exact Hparse|reflexivity].
  - right. eexists; eexists; eexists; split; [exact Hr|reflexivity].
Qed.

(** What follows the extraction inside the [try] block: it ends as going
    through the parsed answer does, and stores what [storeParsed] says. *)
Lemma walk_and_store_run (source infoMessage : string) (infoAbout : list string)
  (memories : Json) (w : W) :
  exists w' tr',
    (lift (lengthRead memories) ;;;
     log Info infoMessage infoAbout ;;;
     items <- lift (iterate memories) ;;
     forEach items (fun memory => storeMemory memory source) ;;;
     ret memories) w
    = (match walked memories with
       | Return _ => Return memories
       | Throw error => Throw error
       end, w', tr') /\
    (addedMemories tr', w') = storeParsed memories source w.
Proof.
  unfold walked, storeParsed. unfold bind at 1. unfold lift at 1.
  destruct (lengthRead memories) as [[]|e]; cbn [andThen].
  2:{ exists w, []. split; reflexivity. }
  unfold bind at 1. unfold log at 1, emit at 1.
  unfold bind at 1. unfold lift at 1.
  destruct (iterate memories) as [items|e]; cbn [andThen].
  2:{ eexists; eexists. split; reflexivity. }
  unfold bind at 1.
  destruct (store_loop_run source items w) as (w2 & tr2 & E2 & P2). rewrite E2, <- P2.
  destruct (titlesRead items) as [[]|e].
  - unfold ret. eexists; eexists. split; [reflexivity|].
    f_equal; rewrite ?addedMemories_app; simpl; rewrite ?app_nil_r; reflexivity.
  - eexists; eexists. split; [reflexivity|].
    f_equal; rewrite ?addedMemories_app; simpl; rewrite ?app_nil_r; reflexivity.
Qed.

(** Whatever [storeParsed] adds is an element of the parsed answer,
    validated together with its embedding, under the source given. *)
Lemma storeParsed_added (source : string) (memories : Json) (w : W) c s vector :
  In (c, s, vector) (fst (storeParsed memories source w)) ->
  s = source /\
  validateMemory c source = Return true /\ validateEmbedding vector = Return true /\
  exists items, iterate memories = Return items /\ In c items.
Proof.
  unfold storeParsed.
  destruct (lengthRead memories) as [[]|e]; cbn [andThen]; [|intros []].
  destruct (iterate memories) as [items|e]; [|intros []].
  intros Hin. destruct (storeEach_added source items w c s vector Hin)
    as (Hc & Hs & Hv & Hve).
  repeat match goal with |- _ /\ _ => split end; auto. exists items. auto.
Qed.

(** The common shape of the two extraction methods. *)
Lemma extract_then_store_run (prompt source infoMessage errorMessage : string)
  (infoAbout : list string) (errorAbout : string -> list string) (w : W) :
  exists out w' tr',
    try_catch
      (memories <- extractMemories prompt ;;
       lift (lengthRead memories) ;;;
       log Info infoMessage infoAbout ;;;
       items <- lift (iterate memories) ;;
       forEach items (fun memory => storeMemory memory source) ;;;
       ret memories)
      (fun error => log Error errorMessage (errorAbout error) ;;; ret (JArr [])) w
    = (Return out, w', tr') /\
    (out = JArr [] \/
     exists response, parseMemories response = Return out /\ walked out = Return tt) /\
    (forall c s vector, In (c, s, vector) (addedMemories tr') ->
       s = source /\
       validateMemory c source = Return true /\ validateEmbedding vector = Return true /\
       exists response memories items,
         parseMemories response = Return memories /\
         iterate memories = Return items /\ In c items) /\
    (forall memories w1 tr1,
       extractMemories prompt w = (Return memories, w1, tr1) ->
       out = match walked memories with
             | Return _ => memories
             | Throw _ => JArr []
             end /\
       (addedMemories tr', w') = storeParsed memories source w1) /\
    (forall error w1 tr1,
       extractMemories prompt w = (Throw error, w1, tr1) ->
       out = JArr [] /\ addedMemories tr' = [] /\ w' = w1).
Proof.
  unfold try_catch, bind_or. unfold bind at 1.
  destruct (extractMemories_run prompt w)
    as [(memories & w1 & tr1 & response & E & Hparse & Hadd)
       |(error & w1 & tr1 & E & Hadd)]; rewrite E.
  - destruct (walk_and_store_run source infoMessage infoAbout memories w1)
      as (w2 & tr2 & E2 & P2).
    rewrite E2.
    assert (Hpinned : forall tr,
              addedMemories tr = addedMemories tr2 ->
              (addedMemories tr, w2) = storeParsed memories source w1).
    { intros tr Htr. now rewrite Htr. }
    assert (Hadded : forall tr,
              addedMemories tr = addedMemories tr2 ->
              forall c s vector, In (c, s, vector) (addedMemories tr) ->
                s = source /\
                validateMemory c source = Return true /\
                validateEmbedding vector = Return true /\
                exists response0 memories0 items,
                  parseMemories response0 = Return memories0 /\
                  iterate memories0 = Return items /\ In c items).
    { intros tr Htr c s vector Hin. rewrite Htr in Hin.
      assert (Hfst : addedMemories tr2 = fst (storeParsed memories source w1))
        by now rewrite <- P2.
      rewrite Hfst in Hin.
      destruct (storeParsed_added source memories w1 c s vector Hin)
        as (Hs & Hv & Hve & items & Hitems & Hc).
      repeat match goal with |- _ /\ _ => split end; auto.
      exists response, memories, items. auto. }
    destruct (walked memories) as [[]|e] eqn:Hwalked.
    + unfold ret. eexists; eexists; eexists; split; [reflexivity|].
      assert (Hsame : addedMemories ((tr1 ++ tr2) ++ []) = addedMemories tr2).
      { rewrite !addedMemories_app, Hadd. simpl. rewrite ?app_nil_r. reflexivity. }
      repeat match goal with |- _ /\ _ => split end.
      * right. exists response. auto.
      * apply Hadded, Hsame.
      * intros memories' w1' tr1' E'. injection E' as <- <- <-.
        split; [now rewrite Hwalked|apply Hpinned, Hsame].
      * intros error w1' tr1' E'. discriminate.
    + unfold bind, log, emit, ret.
      eexists; eexists; eexists; split; [reflexivity|].
      assert (Hsame : addedMemories
                        ((tr1 ++ tr2)
                         ++ [Logged Error errorMessage (errorAbout e)] ++ [])
                      = addedMemories tr2).
      { rewrite !addedMemories_app, Hadd. simpl. rewrite ?app_nil_r. reflexivity. }
      repeat match goal with |- _ /\ _ => split end.
      * now left.
      * apply Hadded, Hsame.
      * intros memories' w1' tr1' E'. injection E' as <- <- <-.
        split; [now rewrite Hwalked|apply Hpinned, Hsame].
      * intros error w1' tr1' E'. discriminate.
  - unfold bind, log, emit, ret.
    eexists; eexists; eexists; split; [reflexivity|].
    assert (Hnone : addedMemories
                      (tr1 ++ [Logged Error errorMessage (errorAbout error)] ++ []) = []).
    { rewrite addedMemories_app, Hadd. reflexivity. }
    repeat match goal with |- _ /\ _ => split end; auto.
    + intros c s vector Hin. rewrite Hnone in Hin. destruct Hin.
    + intros memories' w1' tr1' E'. discriminate.
    + intros error' w1' tr1' E'. injection E' as <- <- <-. auto.
Qed.

(** [extractFromBuildFailure] never throws.  It returns the value parsed
    from the answer of the text generator when it gets through it: the
    length is read, the value is iterated, and no candidate is [null] or has
    a title that is neither a string nor nullish; whether the candidates
    could be stored does not matter.  It returns the empty list otherwise:
    for a successful build, for a failure of the configuration, of the
    generator or of the parser, in which case nothing is stored, and when
    it does not get through the parsed value, although candidates met before
    may then have been stored.  What it asks the repository to add, and the
    environment it leaves, are those of [storeParsed]: the candidates are
    dealt with in turn, up to the first whose title cannot be read.
    Whatever it asks the repository to add is an element of a parsed answer,
    has passed validation together with its embedding, and carries the
    source ['build_failure']. *)
Theorem extractFromBuildFailure_never_throws (buildResult : BuildResult) (w : W) :
  exists out w' tr',
    extractFromBuildFailure memoryModel configGet generateContent embedContent
      parseMemories validateMemory validateEmbedding toText buildResult w
    = (Return out, w', tr') /\
    (out = JArr [] \/
     exists response, parseMemories response = Return out /\ walked out = Return tt) /\
    (forall c s vector, In (c, s, vector) (addedMemories tr') ->
       s = "build_failure" /\
       validateMemory c "build_failure" = Return true /\
       validateEmbedding vector = Return true /\
       exists response memories items,
         parseMemories response = Return memories /\
         iterate memories = Return items /\ In c items) /\
    (forall memories w1 tr1,
       String.eqb (status buildResult) "SUCCESS" = false ->
       extractMemories (buildFailurePrompt buildResult) w = (Return memories, w1, tr1) ->
       out = match walked memories with
             | Return _ => memories
             | Throw _ => JArr []
             end /\
       (addedMemories tr', w') = storeParsed memories "build_failure" w1) /\
    (forall error w1 tr1,
       String.eqb (status buildResult) "SUCCESS" = false ->
       extractMemories (buildFailurePrompt buildResult) w = (Throw error, w1, tr1) ->
       out = JArr [] /\ addedMemories tr' = [] /\ w' = w1).
Proof.
  unfold extractFromBuildFailure.
  destruct (String.eqb (status buildResult) "SUCCESS").
  - unfold bind, log, emit, ret.
    eexists; eexists; eexists; split; [reflexivity|].
    repeat match goal with |- _ /\ _ => split end; auto; try discriminate.
    intros c s vector [].
  - destruct (extract_then_store_run (buildFailurePrompt buildResult)
                "build_failure" "Extracted memories from build failure"
                "Failed to extract memories from build failure"
                [status buildResult; branch buildResult]
                (fun error => [error; status buildResult]) w)
      as (out & w' & tr' & E & Hout & Hadd & Hret & Hthrow).
    exists out, w', tr'. split; [exact E|].
    split; [exact Hout|]. split; [exact Hadd|]. split.
    + intros memories w1 tr1 _. apply Hret.
    + intros error w1 tr1 _. apply Hthrow.
Qed.

(** [extractFromRejection] never throws.  It returns the value parsed from
    the answer of the text generator when it gets through it: the length is
    read, the value is iterated, and no candidate is [null] or has a title
    that is neither a string nor nullish; whether the candidates could be
    stored does not matter.  It returns the empty list otherwise: when the
    configuration, the generator or the parser fails, in which case nothing
    is stored, and when it does not get through the parsed value, although
    candidates met before may then have been stored.  What it asks the
    repository to add, and the environment it leaves, are those of
    [storeParsed]: the candidates are dealt with in turn, up to the first
    whose title cannot be read.  Whatever it asks the repository to add is
    an element of a parsed answer, has passed validation together with its
    embedding, and carries the source ['build_rejection']. *)
Theorem extractFromRejection_never_throws
  (modification : Modification) (rejectionReason : option string) (w : W) :
  exists out w' tr',
    extractFromRejection modification rejectionReason w = (Return out, w', tr') /\
    (out = JArr [] \/
     exists response, parseMemories response = Return out /\ walked out = Return tt) /\
    (forall c s vector, In (c, s, vector) (addedMemories tr') ->
       s = "build_rejection" /\
       validateMemory c "build_rejection" = Return true /\
       validateEmbedding vector = Return true /\
       exists response memories items,
         parseMemories response = Return memories /\
         iterate memories = Return items /\ In c items) /\
    (forall memories w1 tr1,
       extractMemories (rejectionPrompt modification rejectionReason) w
       = (Return memories, w1, tr1) ->
       out = match walked memories with
             | Return _ => memories
             | Throw _ => JArr []
             end /\
       (addedMemories tr', w') = storeParsed memories "build_rejection" w1) /\
    (forall error w1 tr1,
       extractMemories (rejectionPrompt modification rejectionReason) w
       = (Throw error, w1, tr1) ->
       out = JArr [] /\ addedMemories tr' = [] /\ w' = w1).
Proof.
  unfold extractFromRejection.
  apply (extract_then_store_run (rejectionPrompt modification rejectionReason)
           "build_rejection" "Extracted memories from code rejection"
           "Failed to extract memories from rejection"
           (filePath modification
            :: match rejectionReason with
               | Some reason => [String.substring 0 100 reason]
               | None => []
               end)
           (fun error => [error; filePath modification]) w).
Qed.

End Rejection.


(** *** [retrieveForCodeGeneration] *)

Definition buildCategories : list string :=
  ["code_rejection"; "build_failure"; "generation_pattern"; "fix_strategy";
   "error_pattern"].

Section Retrieval.
Context {W : Type} (memoryModel : MemoryModel W)
  (embedQuery : string -> string -> W -> Outcome (list float) * W)
  (category : Memory -> option string).
Local Open Scope js_scope.

(** [buildCategories.includes(m.category)] *)
Definition isBuildMemory (m : Memory) : bool :=
  match category m with
  | Some c => existsb (String.eqb c) buildCategories
  | None => false
  end.

Definition codeQueryText (taskDescription : string) (filePath : option string) : string :=
  match filePath with
  | Some path =>
      if JS.str_truthy path
      then ("Code modification for " ++ path ++ ": " ++ taskDescription)%string
      else ("Code generation task: " ++ taskDescription)%string
  | None => ("Code generation task: " ++ taskDescription)%string
  end.

Definition retrieveForCodeGeneration (taskDescription : string)
  (filePath : option string) (topK : Z) : M W (list Memory) :=
  try_catch
    (let queryText := codeQueryText taskDescription filePath in
     queryEmbedding <-
       call (EmbedQuery queryText "RETRIEVAL_QUERY")
         (embedQuery queryText "RETRIEVAL_QUERY") ;;
     memories <-
       call (RetrieveMemories queryEmbedding topK 0.5)
         (retrieveMemories memoryModel queryEmbedding topK 0.5) ;;
     let buildMemories := filter isBuildMemory memories in
     let relevantMemories :=
       if (2 <=? List.length buildMemories)%nat then buildMemories else memories in
     log Info "Retrieved memories for code generation"
       [String.substring 0 100 taskDescription] ;;;
     ret relevantMemories)
    (fun error =>
       log Error "Failed to retrieve memories for code generation"
         [error; String.substring 0 100 taskDescription] ;;;
       ret []).

(** [retrieveForCodeGeneration] never throws: when the embedder or the
    retrieval fails it returns the empty list.  Otherwise it returns
    memories that were retrieved, in retrieval order: the build-related ones
    alone when there are at least two of them, and else all of them, so
    that a memory of another category is returned only when fewer than two
    build-related ones were retrieved, and the result is empty only when
    nothing was retrieved. *)
Theorem retrieveForCodeGeneration_prefers_build_memories
  (taskDescription : string) (filePath : option string) (topK : Z) (w : W) :
  exists out w' tr',
    retrieveForCodeGeneration taskDescription filePath topK w = (Return out, w', tr') /\
    (forall queryEmbedding w1 memories w2,
       embedQuery (codeQueryText taskDescription filePath) "RETRIEVAL_QUERY" w
         = (Return queryEmbedding, w1) ->
       retrieveMemories memoryModel queryEmbedding topK 0.5 w1 = (Return memories, w2) ->
       incl out memories /\
       (2 <= List.length (filter isBuildMemory memories) ->
        out = filter isBuildMemory memories)%nat /\
       (List.length (filter isBuildMemory memories) < 2 -> out = memories)%nat /\
       (forall m, In m out -> isBuildMemory m = false ->
                  (List.length (filter isBuildMemory memories) < 2)%nat) /\
       (out = [] -> memories = [])) /\
    (forall error w1,
       embedQuery (codeQueryText taskDescription filePath) "RETRIEVAL_QUERY" w
         = (Throw error, w1) -> out = []) /\
    (forall queryEmbedding w1 error w2,
       embedQuery (codeQueryText taskDescription filePath) "RETRIEVAL_QUERY" w
         = (Return queryEmbedding, w1) ->
       retrieveMemories memoryModel queryEmbedding topK 0.5 w1 = (Throw error, w2) ->
       out = []).
Proof.
  unfold retrieveForCodeGeneration, try_catch, bind_or.
  unfold bind at 1. unfold call at 1.
  destruct (embedQuery (codeQueryText taskDescription filePath) "RETRIEVAL_QUERY" w)
    as [[queryEmbedding|e] w1].
  2:{ unfold bind, log, emit, ret. eexists; eexists; eexists; split; [reflexivity|].
      repeat match goal with |- _ /\ _ => split end; auto; discriminate. }
  unfold bind at 1. unfold call at 1.
  destruct (retrieveMemories memoryModel queryEmbedding topK 0.5 w1)
    as [[memories|e] w2] eqn:Hretrieve.
  2:{ unfold bind, log, emit, ret. eexists; eexists; eexists; split; [reflexivity|].
      repeat match goal with |- _ /\ _ => split end; auto; try discriminate.
      intros q w1' memories w2' E. injection E as <- <-.
      rewrite Hretrieve. discriminate. }
  unfold bind, log, emit, ret. eexists; eexists; eexists; split; [reflexivity|].
  repeat match goal with |- _ /\ _ => split end; try discriminate.
  2:{ intros q w1' error w2' E. injection E as <- <-.
      rewrite Hretrieve. discriminate. }
  intros q w1' memories' w2' E. injection E as <- <-.
  rewrite Hretrieve. intros E. injection E as <- _.
  destruct (2 <=? List.length (filter isBuildMemory memories))%nat eqn:Hle.
  - apply Nat.leb_le in Hle.
    repeat match goal with |- _ /\ _ => split end; auto.
    + intros m Hm. apply filter_In in Hm. tauto.
    + lia.
    + intros m Hm Hb. apply filter_In in Hm. destruct Hm as [_ Hm]. congruence.
    + intros E. rewrite E in Hle. simpl in Hle. lia.
  - apply Nat.leb_gt in Hle.
    repeat match goal with |- _ /\ _ => split end; auto.
    + apply incl_refl.
    + lia.
Qed.

End Retrieval.

(** A failed build, a lesson drawn from it, a candidate whose title is an
    object instead of a string, and a validator that asks for a title, a
    description and a content that are strings. *)
Definition failedBuild : BuildResult :=
  mkBuildResult "FAILURE" "main" None (Some ["Fix tests"]) (Some "Error: tests failed")
    "build-2".

Definition lesson : Candidate :=
  JObj [("title", JStr "Run the tests before pushing");
        ("description", JStr "Tests failed in CI");
        ("content", JStr "Run the test suite locally before pushing to main.");
        ("category", JStr "build_failure")].

Definition nestedTitle : Candidate :=
  JObj [("title", JObj [("text", JStr "Pin the versions")]);
        ("description", JStr "Versions drifted");
        ("content", JStr "Pin the versions of the build tools.");
        ("category", JStr "build_failure")].

Definition hasText (name : string) (memory : Candidate) : bool :=
  match property name memory with
  | Return (Some (JStr _)) => true
  | _ => false
  end.

Definition textFields (memory : Candidate) (_ : string) : Outcome bool :=
  Return (hasText "title" memory && hasText "description" memory
          && hasText "content" memory).

Definition rejectedChange : Modification :=
  mkModification "src/index.js" "update" "Refactor" (Some "const a = 1;") None.

Definition buildRelated (m : Memory) : option string :=
  if String.eqb (id m) "mem-3" then Some "custom" else Some "build_failure".

Lemma truncateContent_cuts_long_text :
  String.length (_truncateContent (Some "abcdefgh") 3) = 19%nat /\
  String.substring 0 3 (_truncateContent (Some "abcdefgh") 3) = "abc".
Proof.
  apply (proj1 (proj2 (proj2 (proj2 (truncateContent_bounds (Some "abcdefgh") 3))))
           "abcdefgh" eq_refl).
  simpl. lia.
Defined.

(** A candidate whose title is an object fails validation and is not
    stored; the warning about it cannot be written, nor can the record of
    the [catch] block, and [_storeMemory] rejects.  The lesson is stored. *)
Lemma storeMemory_skips_invalid_memory :
  (exists w' tr',
     _storeMemory Reference.memoryModel answeringEmbedder textFields
       (fun _ => Return true) plainText nestedTitle "build_failure" (Reference.world [])
     = (Throw "memory.title?.substring is not a function", w', tr') /\
     w' = Reference.world [] /\ existsb touchesCollaborator tr' = false) /\
  (exists w' tr',
     _storeMemory Reference.memoryModel answeringEmbedder textFields
       (fun _ => Return true) plainText lesson "build_failure" (Reference.world [])
     = (Return tt, w', tr') /\
     addedMemories tr' = [(lesson, "build_failure", [1; 0; 0]%float)]).
Proof.
  split.
  - destruct (storeMemory_stores_only_validated_memories Reference.memoryModel
                answeringEmbedder textFields (fun _ => Return true) plainText
                nestedTitle "build_failure" (Reference.world []))
      as (w' & tr' & E & _ & Hskip & _).
    exists w', tr'. split; [exact E|]. apply Hskip. discriminate.
  - destruct (storeMemory_stores_only_validated_memories Reference.memoryModel
                answeringEmbedder textFields (fun _ => Return true) plainText
                lesson "build_failure" (Reference.world []))
      as (w' & tr' & E & _ & _ & _ & Hstored).
    exists w', tr'. split; [exact E|].
    apply (Hstored
             "Run the tests before pushing. Tests failed in CI. Run the test suite locally before pushing to main."
             [1; 0; 0]%float (Reference.world []));
      reflexivity.
Defined.

(** For the answer [[lesson, nestedTitle]] the lesson is stored, the second
    candidate makes [_storeMemory] reject, and the method returns the empty
    list; for the answer [[lesson]] it returns the answer. *)
Lemma extractFromBuildFailure_failedBuild :
  (exists w' tr',
     extractFromBuildFailure Reference.memoryModel answeringConfig answeringGenerator
       answeringEmbedder (fun _ => Return (JArr [lesson; nestedTitle])) textFields
       (fun _ => Return true) plainText failedBuild (Reference.world [])
     = (Return (JArr []), w', tr') /\
     addedMemories tr' = [(lesson, "build_failure", [1; 0; 0]%float)]) /\
  (exists w' tr',
     extractFromBuildFailure Reference.memoryModel answeringConfig answeringGenerator
       answeringEmbedder (fun _ => Return (JArr [lesson])) textFields
       (fun _ => Return true) plainText failedBuild (Reference.world [])
     = (Return (JArr [lesson]), w', tr') /\
     addedMemories tr' = [(lesson, "build_failure", [1; 0; 0]%float)]).
Proof.
  split.
  - destruct (extractFromBuildFailure_never_throws Reference.memoryModel answeringConfig
                answeringGenerator answeringEmbedder
                (fun _ => Return (JArr [lesson; nestedTitle])) textFields
                (fun _ => Return true) plainText failedBuild (Reference.world []))
      as (out & w' & tr' & E & _ & _ & Hret & _).
    destruct (Hret (JArr [lesson; nestedTitle]) (Reference.world [])
                [Called (ConfigGet "GEMINI_MODEL") true;
                 Called (GenerateContent "gemini" (buildFailurePrompt failedBuild)) true]
                eq_refl eq_refl) as (Hout & Hstored).
    exists w', tr'. rewrite E. split; [now rewrite Hout|].
    now injection Hstored as ->.
  - destruct (extractFromBuildFailure_never_throws Reference.memoryModel answeringConfig
                answeringGenerator answeringEmbedder (fun _ => Return (JArr [lesson]))
                textFields (fun _ => Return true) plainText failedBuild
                (Reference.world []))
      as (out & w' & tr' & E & _ & _ & Hret & _).
    destruct (Hret (JArr [lesson]) (Reference.world [])
                [Called (ConfigGet "GEMINI_MODEL") true;
                 Called (GenerateContent "gemini" (buildFailurePrompt failedBuild)) true]
                eq_refl eq_refl) as (Hout & Hstored).
    exists w', tr'. rewrite E. split; [now rewrite Hout|].
    now injection Hstored as ->.
Defined.

(** The same two answers, for a rejected modification. *)
Lemma extractFromRejection_rejectedChange :
  (exists w' tr',
     extractFromRejection Reference.memoryModel answeringConfig answeringGenerator
       answeringEmbedder (fun _ => Return (JArr [lesson; nestedTitle])) textFields
       (fun _ => Return true) plainText
       rejectedChange (Some "Breaks the API") (Reference.world [])
     = (Return (JArr []), w', tr') /\
     addedMemories tr' = [(lesson, "build_rejection", [1; 0; 0]%float)]) /\
  (exists w' tr',
     extractFromRejection Reference.memoryModel answeringConfig answeringGenerator
       answeringEmbedder (fun _ => Return (JArr [lesson])) textFields
       (fun _ => Return true) plainText
       rejectedChange (Some "Breaks the API") (Reference.world [])
     = (Return (JArr [lesson]), w', tr') /\
     addedMemories tr' = [(lesson, "build_rejection", [1; 0; 0]%float)]).
Proof.
  split.
  - destruct (extractFromRejection_never_throws Reference.memoryModel answeringConfig
                answeringGenerator answeringEmbedder
                (fun _ => Return (JArr [lesson; nestedTitle])) textFields
                (fun _ => Return true) plainText
                rejectedChange (Some "Breaks the API") (Reference.world []))
      as (out & w' & tr' & E & _ & _ & Hret & _).
    destruct (Hret (JArr [lesson; nestedTitle]) (Reference.world [])
                [Called (ConfigGet "GEMINI_MODEL") true;
                 Called (GenerateContent "gemini"
                           (rejectionPrompt rejectedChange (Some "Breaks the API")))
                   true]
                eq_refl) as (Hout & Hstored).
    exists w', tr'. rewrite E. split; [now rewrite Hout|].
    now injection Hstored as ->.
  - destruct (extractFromRejection_never_throws Reference.memoryModel answeringConfig
                answeringGenerator answeringEmbedder (fun _ => Return (JArr [lesson]))
                textFields (fun _ => Return true) plainText
                rejectedChange (Some "Breaks the API") (Reference.world []))
      as (out & w' & tr' & E & _ & _ & Hret & _).
    destruct (Hret (JArr [lesson]) (Reference.world [])
                [Called (ConfigGet "GEMINI_MODEL") true;
                 Called (GenerateContent "gemini"
                           (rejectionPrompt rejectedChange (Some "Breaks the API")))
                   true]
                eq_refl) as (Hout & Hstored).
    exists w', tr'. rewrite E. split; [now rewrite Hout|].
    now injection Hstored as ->.
Defined.

Lemma retrieveForCodeGeneration_two_build_memories :
  exists w' tr',
    retrieveForCodeGeneration Reference.memoryModel Reference.embedQuery buildRelated
      "Add a route" None 5
      (MemoryTestTimeScaling.scene MemoryTestTimeScaling.threeMemories [])
    = (Return (filter (isBuildMemory buildRelated) MemoryTestTimeScaling.threeMemories),
       w', tr') /\
    map id (filter (isBuildMemory buildRelated) MemoryTestTimeScaling.threeMemories)
    = ["mem-1"; "mem-2"].
Proof.
  destruct (retrieveForCodeGeneration_prefers_build_memories Reference.memoryModel
              Reference.embedQuery buildRelated "Add a route" None 5
              (MemoryTestTimeScaling.scene MemoryTestTimeScaling.threeMemories []))
    as (out & w' & tr' & E & Hok & _).
  destruct (Hok [1; 0; 0]%float
              (MemoryTestTimeScaling.scene MemoryTestTimeScaling.threeMemories [])
              MemoryTestTimeScaling.threeMemories
              (MemoryTestTimeScaling.scene MemoryTestTimeScaling.threeMemories [])
              eq_refl eq_refl) as (_ & Hbuild & _).
  exists w', tr'. split; [|reflexivity].
  rewrite E. f_equal. f_equal. f_equal. apply Hbuild. simpl. lia.
Defined.

End BuildMemoryService.

(** ** The administration route ([routes/admin.js]) *)

Module AdminRoutes.

Import Effects MemoryConsolidation.

(** What the handler of [POST /admin/memory-consolidation] sends. *)
Inductive Body : Type :=
| Completed (message : string) (stats : Stats)
| Failed (error : string) (details : string).

Record Response : Type := mkResponse {
  statusCode : Z;
  body : Body
}.

Section Routes.
Context {W : Type} (memoryModel : MemoryModel W) (clock : W -> Z * W)
  (sanitizeErrorMessage : string -> string).
Local Open Scope js_scope.

(** [req.user?.username || 'Cloud Scheduler'] *)
Definition triggeredBy (username : option string) : string :=
  match username with
  | Some name => if JS.str_truthy name then name else "Cloud Scheduler"
  | None => "Cloud Scheduler"
  end.

Definition postMemoryConsolidation (username : option string) : M W Response :=
  try_catch
    (log Info "Memory consolidation started" [triggeredBy username] ;;;
     stats <- consolidate memoryModel clock ;;
     emit (LoggedStats Info "Memory consolidation completed" "" stats) ;;;
     ret (mkResponse 200
            (Completed "Memory consolidation completed successfully" stats)))
    (fun error =>
       log Error "Memory consolidation endpoint failed" [error; triggeredBy username] ;;;
       ret (mkResponse 500
              (Failed "Failed to run memory consolidation" (sanitizeErrorMessage error)))).

(** The handler always answers.  It answers 200 with the statistics that
    [consolidate] returned exactly when the four scans of the run returned;
    when a scan failed it answers 500 with the sanitized message of the
    error that [consolidate] threw, and no statistics. *)
Theorem postMemoryConsolidation_answers_500_when_a_scan_fails
  (username : option string) (w : W) :
  (exists stats w' tr',
     postMemoryConsolidation username w
     = (Return (mkResponse 200
                  (Completed "Memory consolidation completed successfully" stats)),
        w', tr') /\
     outcomeOf (consolidate memoryModel clock) w = Return stats /\
     scanOutcomes tr' = [true; true; true; true]) \/
  (exists error w' tr' scansBefore,
     postMemoryConsolidation username w
     = (Return (mkResponse 500
                  (Failed "Failed to run memory consolidation"
                     (sanitizeErrorMessage error))),
        w', tr') /\
     outcomeOf (consolidate memoryModel clock) w = Throw error /\
     (scansBefore < 4)%nat /\
     scanOutcomes tr' = repeat true scansBefore ++ [false]).
Proof.
  set (r := postMemoryConsolidation username w).
  assert (Hr : r = postMemoryConsolidation username w) by reflexivity.
  clearbody r.
  unfold postMemoryConsolidation, try_catch, bind_or in Hr.
  unfold bind at 1 in Hr. unfold log at 1, emit at 1 in Hr.
  unfold bind at 1 in Hr. unfold outcomeOf.
  destruct (consolidate_run memoryModel clock w)
    as [(stats & w' & tr' & E & S)|(error & w' & tr' & k & stats & E & Hk & S & _)];
    rewrite E in *; unfold bind, log, emit, ret in Hr.
  - left. eexists; eexists; eexists. split; [exact Hr|]. split; [reflexivity|].
    unfold scanOutcomes in *. rewrite !flat_map_app, S. reflexivity.
  - right. eexists; eexists; eexists; exists k. split; [exact Hr|].
    split; [reflexivity|]. split; [exact Hk|].
    unfold scanOutcomes in *. rewrite !flat_map_app, S. simpl.
    now rewrite !app_nil_r.
Qed.

End Routes.

(** With a store that cannot be reached, the scheduler is answered 500. *)
Lemma postMemoryConsolidation_unreachable_store :
  exists body w' tr',
    postMemoryConsolidation Reference.memoryModel Reference.clock (fun message => message)
      None unreachable
    = (Return (mkResponse 500 body), w', tr').
Proof.
  assert (Hout : outcomeOf (consolidate Reference.memoryModel Reference.clock) unreachable
                 = Throw "Database connection failed") by (vm_compute; reflexivity).
  destruct (postMemoryConsolidation_answers_500_when_a_scan_fails Reference.memoryModel
              Reference.clock (fun message => message) None unreachable)
    as [(stats & w' & tr' & E & Hret & _)|(error & w' & tr' & k & E & _)].
  - rewrite Hout in Hret. discriminate.
  - eexists; exists w', tr'. exact E.
Defined.

End AdminRoutes.
